(** * Two-pass XMLTV parser and batched SQLite loader of [backend/epg_parser.py]

    A shallow embedding of [ChannelHandler], [ProgramHandler],
    [TwoPassEPGParser], [parse_epg_file] and [process_source], together with
    the part of SQLite that the schema of [init_database] relies on (primary
    keys, foreign keys with [ON DELETE CASCADE], transactions).

    Conventions.
    - Python [str] is [string]; only ASCII text is modelled.
    - Python [int] counters are [Z].
    - A [dict] used as a record (the candidate channel or programme) is a
      Rocq record; the attribute dictionary of an element is a [gmap].
    - The three tables are [gmap]s from the primary key to the row.
    - The SAX parser is its list of callbacks, closed by [endDocument] or by
      the exception it raised.
    - Exceptions of the store other than [sqlite3.IntegrityError] come from
      a fault plan carried by the connection: one flag is consumed by every
      write statement and every COMMIT that sits inside a [try]. BEGIN and
      ROLLBACK raise nothing. *)

From Stdlib Require Import ZArith Ascii String List Bool Lia.
From Stdlib Require QArith.
From stdpp Require Import base option strings list gmap fin_maps.

Local Open Scope Z_scope.
#[local] Set Warnings "-clear-no-such-hyp,-register-all".
Local Open Scope string_scope.

(** ** Strings *)

Module Str.

(** [str.isspace] on the ASCII range: TAB, LF, VT, FF, CR, FS, GS, RS, US, SP. *)
Definition isspace (c : ascii) : bool :=
  let n := nat_of_ascii c in
  ((9 <=? n)%nat && (n <=? 13)%nat) || ((28 <=? n)%nat && (n <=? 32)%nat).

Fixpoint lstrip (s : string) : string :=
  match s with
  | EmptyString => EmptyString
  | String c r => if isspace c then lstrip r else s
  end.

Fixpoint rstrip (s : string) : string :=
  match s with
  | EmptyString => EmptyString
  | String c r =>
      match rstrip r with
      | EmptyString => if isspace c then EmptyString else String c EmptyString
      | r' => String c r'
      end
  end.

(** [s.strip()] *)
Definition strip (s : string) : string := rstrip (lstrip s).

(** [needle in hay] *)
Fixpoint contains (needle hay : string) : bool :=
  String.prefix needle hay ||
  match hay with
  | EmptyString => false
  | String _ r => contains needle r
  end.

(** Truth value of a [str]: the empty string is false. *)
Definition truthy (s : string) : bool :=
  match s with EmptyString => false | _ => true end.

(** Truth value of a value that is [None] or a [str]. *)
Definition truthy_opt (o : option string) : bool :=
  match o with None => false | Some s => truthy s end.

End Str.

(** ** Rows and tables (schema of [init_database]) *)

(** A row of [sources]. *)
Record source_row := SourceRow {
  src_id : string;
  src_name : string;
  src_url : option string;
  src_file_path : option string;
  src_channel_count : Z;
  src_program_count : Z;
  src_last_updated : string
}.

(** The candidate [current_channel] and a row of [channels]. *)
Record channel := Channel {
  ch_id : string;
  ch_source_id : string;
  ch_name : string;
  ch_icon : option string
}.

(** The candidate [current_program] and a row of [programs]. *)
Record program := Program {
  pr_id : string;
  pr_channel_id : string;
  pr_title : string;
  pr_description : option string;
  pr_start : string;
  pr_stop : string;
  pr_category : option string
}.

Record tables := Tables {
  sources : gmap string source_row;
  channels : gmap string channel;
  programs : gmap string program
}.

(** What the handlers and the parser write to the logger. *)
Inductive log_entry :=
| StartingFirstPass
| StartingSecondPass
| FirstPassComplete (n : Z)
| ErrorFirstPass
| SecondPassComplete (n skipped : Z)
| ErrorSecondPass
| ProcessedChannels (n : Z)
| ProcessedPrograms (n skipped : Z)
| ErrorChannelBatch
| ErrorProgramBatch
| ProgramIntegrityError (id channel_id : string)
| UpdatedSourceStatistics (nc np : Z)
| FailedSourceStatistics
| CompletedParsing (nc np : Z)
| SkippedWarning (n : Z)
| ErrorParsing
| DeletedExisting.

(** The connection: the tables as the connection sees them, the tables as
    they were when the open transaction began, the fault plan, the clock of
    the store (what [CURRENT_TIMESTAMP] evaluates to) and the log. *)
Record world := World {
  store : tables;
  txn : option tables;
  faults : list bool;
  store_clock : string;
  log : list log_entry
}.

Definition set_store (t : tables) (w : world) : world :=
  World t (txn w) (faults w) (store_clock w) (log w).

Definition set_txn (x : option tables) (w : world) : world :=
  World (store w) x (faults w) (store_clock w) (log w).

Definition set_faults (f : list bool) (w : world) : world :=
  World (store w) (txn w) f (store_clock w) (log w).

Definition logger (e : log_entry) (w : world) : world :=
  World (store w) (txn w) (faults w) (store_clock w) (log w ++ [e]).

(** ** Statements *)

(** How a statement ends: normally, with [sqlite3.IntegrityError], or with
    another exception. *)
Inductive outcome := Done | IntegrityError | OtherError.

Module Sql.

(** Consume the next flag of the fault plan. *)
Definition next_fault (w : world) : bool * world :=
  match faults w with
  | [] => (false, w)
  | b :: f => (b, set_faults f w)
  end.

(** BEGIN TRANSACTION *)
Definition begin (w : world) : world := set_txn (Some (store w)) w.

(** COMMIT *)
Definition commit (w : world) : outcome * world :=
  let '(bad, w) := next_fault w in
  if bad then (OtherError, w) else (Done, set_txn None w).

(** ROLLBACK *)
Definition rollback (w : world) : world :=
  match txn w with
  | Some t => set_txn None (set_store t w)
  | None => w
  end.

(** INSERT INTO channels (id, source_id, name, icon) VALUES (?, ?, ?, ?) *)
Definition insert_channel (c : channel) (w : world) : outcome * world :=
  let '(bad, w) := next_fault w in
  if bad then (OtherError, w) else
  let t := store w in
  match channels t !! ch_id c, sources t !! ch_source_id c with
  | None, Some _ =>
      (Done, set_store (Tables (sources t) (<[ch_id c := c]> (channels t)) (programs t)) w)
  | _, _ => (IntegrityError, w)
  end.

(** UPDATE channels SET source_id = ?, name = ?, icon = ? WHERE id = ? *)
Definition update_channel (c : channel) (w : world) : outcome * world :=
  let '(bad, w) := next_fault w in
  if bad then (OtherError, w) else
  let t := store w in
  match channels t !! ch_id c with
  | None => (Done, w)
  | Some _ =>
      match sources t !! ch_source_id c with
      | Some _ =>
          (Done, set_store (Tables (sources t) (<[ch_id c := c]> (channels t)) (programs t)) w)
      | None => (IntegrityError, w)
      end
  end.

(** INSERT OR REPLACE INTO programs (...) VALUES (...). A row of the model
    holds the values the statement binds. The columns [id], [channel_id],
    [title], [description] and [category] are TEXT and keep them as they
    are; [start] and [stop] are declared TIMESTAMP, for which SQLite keeps
    a text that does not read as a number and turns one that does into
    that number. The model keeps the bound text there too: [pr_start] and
    [pr_stop] of a row stand for what was bound, not for how the store
    represents it, and no statement below is about those two columns of a
    stored row. *)
Definition replace_program (p : program) (w : world) : outcome * world :=
  let '(bad, w) := next_fault w in
  if bad then (OtherError, w) else
  let t := store w in
  match channels t !! pr_channel_id p with
  | Some _ =>
      (Done, set_store (Tables (sources t) (channels t) (<[pr_id p := p]> (programs t))) w)
  | None => (IntegrityError, w)
  end.

(** DELETE FROM sources WHERE id = ?, with foreign keys on: the channels
    of the source go with it, and the programs of those channels. *)
Definition delete_source (sid : string) (t : tables) : tables :=
  match sources t !! sid with
  | None => t
  | Some _ =>
      let gone := filter (λ kv, ch_source_id kv.2 = sid) (channels t) in
      Tables (delete sid (sources t))
             (filter (λ kv, ch_source_id kv.2 ≠ sid) (channels t))
             (filter (λ kv, gone !! pr_channel_id kv.2 = None) (programs t))
  end.

(** INSERT INTO sources (id, name, url, channel_count, program_count)
    VALUES (?, ?, ?, 0, 0): [file_path] is NULL and [last_updated] takes
    its default, CURRENT_TIMESTAMP. *)
Definition insert_source (sid name url : string) (w : world) : outcome * world :=
  let t := store w in
  match sources t !! sid with
  | Some _ => (IntegrityError, w)
  | None =>
      (Done, set_store (Tables (<[sid := SourceRow sid name (Some url) None 0 0 (store_clock w)]> (sources t))
                               (channels t) (programs t)) w)
  end.

(** UPDATE sources SET channel_count = ?, program_count = ?,
    last_updated = ? WHERE id = ? *)
Definition update_source (nc np : Z) (stamp sid : string) (w : world) : outcome * world :=
  let '(bad, w) := next_fault w in
  if bad then (OtherError, w) else
  let t := store w in
  match sources t !! sid with
  | None => (Done, w)
  | Some r =>
      (Done, set_store (Tables (<[sid := SourceRow (src_id r) (src_name r) (src_url r) (src_file_path r)
                                                    nc np stamp]> (sources t))
                               (channels t) (programs t)) w)
  end.

End Sql.

(** ** The SAX parser *)

Module Sax.

(** The callbacks [xml.sax] makes on a content handler while it reads. *)
Inductive event :=
| StartElement (name : string) (attrs : gmap string string)
| Characters (content : string)
| EndElement (name : string).

(** How the document ends: [endDocument] is called, or the parser raises
    (malformed document, IO error) after the callbacks made so far. *)
Inductive ending := EndDocument | SAXException.

Record feed := Feed { events : list event; final : ending }.

(** [xml.sax.handler.ContentHandler]; a handler works on its own fields and
    on the connection it shares with the rest of the program. *)
Class ContentHandler (H : Type) := {
  startElement : string → gmap string string → H * world → H * world;
  characters : string → H * world → H * world;
  endElement : string → H * world → H * world;
  endDocument : H * world → H * world
}.

Definition dispatch {H} `{ContentHandler H} (s : H * world) (e : event) : H * world :=
  match e with
  | StartElement name attrs => startElement name attrs s
  | Characters content => characters content s
  | EndElement name => endElement name s
  end.

Definition run {H} `{ContentHandler H} (evs : list event) (s : H * world) : H * world :=
  fold_left dispatch evs s.

(** [parser.parse(f)] *)
Definition parse {H} `{ContentHandler H} (f : feed) (s : H * world) : outcome * (H * world) :=
  let s := run (events f) s in
  match final f with
  | EndDocument => (Done, endDocument s)
  | SAXException => (OtherError, s)
  end.

(** [attrs.get(key, "")] *)
Definition get (attrs : gmap string string) (key : string) : string :=
  default "" (attrs !! key).

End Sax.

(** [self.batch_size = 1000] in both handlers. *)
Definition batch_size : Z := 1000.

(** ** First pass: [ChannelHandler] *)

Module ChannelHandler.

Record t := Make {
  source_id : string;
  channel_count : Z;
  current_element : option string;
  in_channel : bool;
  current_channel : channel;
  buffer : string;
  channel_batch : list channel;
  channel_ids : gset string
}.

(** [__init__]; [current_channel] starts as an empty dict, which is never
    read before [startElement] replaces it. *)
Definition init (sid : string) : t :=
  Make sid 0 None false (Channel "" "" "" None) "" [] ∅.

Definition startElement (name : string) (attrs : gmap string string) (h : t) : t :=
  if decide (name = "channel") then
    Make (source_id h) (channel_count h) (Some name) true
         (Channel (Sax.get attrs "id") (source_id h) "" None)
         "" (channel_batch h) (channel_ids h)
  else
    Make (source_id h) (channel_count h) (Some name) (in_channel h)
         (current_channel h) "" (channel_batch h) (channel_ids h).

Definition characters (content : string) (h : t) : t :=
  Make (source_id h) (channel_count h) (current_element h) (in_channel h)
       (current_channel h) (buffer h ++ content) (channel_batch h) (channel_ids h).

Definition set_current (c : channel) (h : t) : t :=
  Make (source_id h) (channel_count h) (current_element h) (in_channel h)
       c (buffer h) (channel_batch h) (channel_ids h).

Definition set_batch (b : list channel) (h : t) : t :=
  Make (source_id h) (channel_count h) (current_element h) (in_channel h)
       (current_channel h) (buffer h) b (channel_ids h).

(** The loop over [self.channel_batch]: INSERT, and UPDATE when the INSERT
    raised [IntegrityError]; any other exception leaves the loop. *)
Fixpoint write_batch (batch : list channel) (w : world) : outcome * world :=
  match batch with
  | [] => (Done, w)
  | c :: rest =>
      match Sql.insert_channel c w with
      | (Done, w) => write_batch rest w
      | (IntegrityError, w) =>
          match Sql.update_channel c w with
          | (Done, w) => write_batch rest w
          | (e, w) => (e, w)
          end
      | (OtherError, w) => (OtherError, w)
      end
  end.

Definition _process_channel_batch (s : t * world) : t * world :=
  let '(h, w) := s in
  match channel_batch h with
  | [] => s
  | _ =>
      match write_batch (channel_batch h) (Sql.begin w) with
      | (Done, w) =>
          match Sql.commit w with
          | (Done, w) => (set_batch [] h, w)
          | (_, w) => (set_batch [] h, Sql.rollback (logger ErrorChannelBatch w))
          end
      | (_, w) => (set_batch [] h, Sql.rollback (logger ErrorChannelBatch w))
      end
  end.

(** [_report_progress] only writes to the log, at most once every five
    seconds of wall-clock time; it is left out. *)
Definition endElement (name : string) (s : t * world) : t * world :=
  let '(h, w) := s in
  if in_channel h then
    let c := current_channel h in
    if decide (name = "display-name") then
      (set_current (Channel (ch_id c) (ch_source_id c) (Str.strip (buffer h)) (ch_icon c)) h, w)
    else if decide (name = "icon") then
      if negb (Str.truthy_opt (ch_icon c)) && Str.contains "@src" (buffer h) then
        (set_current (Channel (ch_id c) (ch_source_id c) (ch_name c) (Some (Str.strip (buffer h)))) h, w)
      else s
    else if decide (name = "channel") then
      if Str.truthy (ch_id c) then
        let h := Make (source_id h) (channel_count h + 1) (current_element h) false
                      c (buffer h) (channel_batch h ++ [c]) ({[ch_id c]} ∪ channel_ids h) in
        if (batch_size <=? Z.of_nat (length (channel_batch h)))%Z then
          _process_channel_batch (h, w)
        else (h, w)
      else
        (Make (source_id h) (channel_count h) (current_element h) false
              c (buffer h) (channel_batch h) (channel_ids h), w)
    else s
  else s.

Definition endDocument (s : t * world) : t * world :=
  let '(h, w) := match channel_batch s.1 with
                 | [] => s
                 | _ => _process_channel_batch s
                 end in
  (h, logger (ProcessedChannels (channel_count h)) w).

#[global] Instance handler : Sax.ContentHandler t := {|
  Sax.startElement name attrs s := (startElement name attrs s.1, s.2);
  Sax.characters content s := (characters content s.1, s.2);
  Sax.endElement := endElement;
  Sax.endDocument := endDocument
|}.

End ChannelHandler.

(** ** Second pass: [ProgramHandler] *)

Module ProgramHandler.

Record t := Make {
  channel_ids : gset string;
  program_count : Z;
  skipped_programs : Z;
  current_element : option string;
  in_programme : bool;
  current_program : program;
  buffer : string;
  program_batch : list program
}.

Definition init (ids : gset string) : t :=
  Make ids 0 0 None false (Program "" "" "" None "" "" None) "" [].

(** [f"{channel_id}_{start}_{stop}"] *)
Definition program_id (channel_id start stop : string) : string :=
  channel_id ++ "_" ++ start ++ "_" ++ stop.

Definition startElement (name : string) (attrs : gmap string string) (h : t) : t :=
  if decide (name = "programme") then
    let channel_id := Sax.get attrs "channel" in
    if decide (channel_id ∈ channel_ids h) then
      Make (channel_ids h) (program_count h) (skipped_programs h) (Some name) true
           (Program (program_id channel_id (Sax.get attrs "start") (Sax.get attrs "stop"))
                    channel_id "" None (Sax.get attrs "start") (Sax.get attrs "stop") None)
           "" (program_batch h)
    else
      Make (channel_ids h) (program_count h) (skipped_programs h + 1) (Some name) false
           (current_program h) "" (program_batch h)
  else
    Make (channel_ids h) (program_count h) (skipped_programs h) (Some name) (in_programme h)
         (current_program h) "" (program_batch h).

Definition characters (content : string) (h : t) : t :=
  Make (channel_ids h) (program_count h) (skipped_programs h) (current_element h) (in_programme h)
       (current_program h) (buffer h ++ content) (program_batch h).

Definition set_current (p : program) (h : t) : t :=
  Make (channel_ids h) (program_count h) (skipped_programs h) (current_element h) (in_programme h)
       p (buffer h) (program_batch h).

Definition set_batch (b : list program) (h : t) : t :=
  Make (channel_ids h) (program_count h) (skipped_programs h) (current_element h) (in_programme h)
       (current_program h) (buffer h) b.

(** The loop over [self.program_batch]: a record whose INSERT OR REPLACE
    raised [IntegrityError] is logged and the loop continues. *)
Fixpoint write_batch (batch : list program) (w : world) : outcome * world :=
  match batch with
  | [] => (Done, w)
  | p :: rest =>
      match Sql.replace_program p w with
      | (Done, w) => write_batch rest w
      | (IntegrityError, w) =>
          write_batch rest (logger (ProgramIntegrityError (pr_id p) (pr_channel_id p)) w)
      | (OtherError, w) => (OtherError, w)
      end
  end.

Definition _process_program_batch (s : t * world) : t * world :=
  let '(h, w) := s in
  match program_batch h with
  | [] => s
  | _ =>
      match write_batch (program_batch h) (Sql.begin w) with
      | (Done, w) =>
          match Sql.commit w with
          | (Done, w) => (set_batch [] h, w)
          | (_, w) => (set_batch [] h, Sql.rollback (logger ErrorProgramBatch w))
          end
      | (_, w) => (set_batch [] h, Sql.rollback (logger ErrorProgramBatch w))
      end
  end.

Definition endElement (name : string) (s : t * world) : t * world :=
  let '(h, w) := s in
  if in_programme h then
    let p := current_program h in
    if decide (name = "title") then
      (set_current (Program (pr_id p) (pr_channel_id p) (Str.strip (buffer h)) (pr_description p)
                            (pr_start p) (pr_stop p) (pr_category p)) h, w)
    else if decide (name = "desc") then
      (set_current (Program (pr_id p) (pr_channel_id p) (pr_title p) (Some (Str.strip (buffer h)))
                            (pr_start p) (pr_stop p) (pr_category p)) h, w)
    else if decide (name = "category") then
      (set_current (Program (pr_id p) (pr_channel_id p) (pr_title p) (pr_description p)
                            (pr_start p) (pr_stop p) (Some (Str.strip (buffer h)))) h, w)
    else if decide (name = "programme") then
      if Str.truthy (pr_title p) then
        let h := Make (channel_ids h) (program_count h + 1) (skipped_programs h) (current_element h)
                      false p (buffer h) (program_batch h ++ [p]) in
        if (batch_size <=? Z.of_nat (length (program_batch h)))%Z then
          _process_program_batch (h, w)
        else (h, w)
      else
        (Make (channel_ids h) (program_count h) (skipped_programs h) (current_element h)
              false p (buffer h) (program_batch h), w)
    else s
  else s.

Definition endDocument (s : t * world) : t * world :=
  let '(h, w) := match program_batch s.1 with
                 | [] => s
                 | _ => _process_program_batch s
                 end in
  (h, logger (ProcessedPrograms (program_count h) (skipped_programs h)) w).

#[global] Instance handler : Sax.ContentHandler t := {|
  Sax.startElement name attrs s := (startElement name attrs s.1, s.2);
  Sax.characters content s := (characters content s.1, s.2);
  Sax.endElement := endElement;
  Sax.endDocument := endDocument
|}.

End ProgramHandler.

(** ** The orchestrator: [TwoPassEPGParser] *)

Module TwoPassEPGParser.

Record t := Make {
  file_path : string;
  source_id : string;
  channel_count : Z;
  program_count : Z;
  skipped_programs : Z;
  channel_ids : gset string
}.

Definition init (path sid : string) : t := Make path sid 0 0 0 ∅.

(** [fs path] is what the SAX parser reports when it reads the file at
    [path] (through [gzip.open] when the name ends in [.gz]). *)
Definition _first_pass (fs : string → Sax.feed) (s : t * world) : bool * (t * world) :=
  let '(p, w) := s in
  match Sax.parse (fs (file_path p)) (ChannelHandler.init (source_id p), w) with
  | (Done, (h, w)) =>
      let p := Make (file_path p) (source_id p) (ChannelHandler.channel_count h)
                    (program_count p) (skipped_programs p) (ChannelHandler.channel_ids h) in
      (true, (p, logger (FirstPassComplete (channel_count p)) w))
  | (_, (_, w)) => (false, (p, logger ErrorFirstPass w))
  end.

Definition _second_pass (fs : string → Sax.feed) (s : t * world) : bool * (t * world) :=
  let '(p, w) := s in
  match Sax.parse (fs (file_path p)) (ProgramHandler.init (channel_ids p), w) with
  | (Done, (h, w)) =>
      let p := Make (file_path p) (source_id p) (channel_count p)
                    (ProgramHandler.program_count h) (ProgramHandler.skipped_programs h)
                    (channel_ids p) in
      (true, (p, logger (SecondPassComplete (program_count p) (skipped_programs p)) w))
  | (_, (_, w)) => (false, (p, logger ErrorSecondPass w))
  end.

(** The UPDATE of the source row and its commit, inside [try]. The sqlite3
    module opens the transaction before the UPDATE. *)
Definition update_statistics (current_time : string) (s : t * world) : world :=
  let '(p, w) := s in
  match Sql.update_source (channel_count p) (program_count p) current_time (source_id p)
                          (Sql.begin w) with
  | (Done, w) =>
      match Sql.commit w with
      | (Done, w) => logger (UpdatedSourceStatistics (channel_count p) (program_count p)) w
      | (_, w) => Sql.rollback (logger FailedSourceStatistics w)
      end
  | (_, w) => Sql.rollback (logger FailedSourceStatistics w)
  end.

(** [parse]; [current_time] is [datetime.now().isoformat()]. The values
    returned by the two passes are not looked at. *)
Definition parse (fs : string → Sax.feed) (current_time : string) (s : t * world)
  : bool * (t * world) :=
  let '(p, w) := s in
  let '(_, (p, w)) := _first_pass fs (p, logger StartingFirstPass w) in
  let '(_, (p, w)) := _second_pass fs (p, logger StartingSecondPass w) in
  let w := update_statistics current_time (p, w) in
  let w := logger (CompletedParsing (channel_count p) (program_count p)) w in
  let w := if (0 <? skipped_programs p)%Z then logger (SkippedWarning (skipped_programs p)) w
           else w in
  (true, (p, w)).

End TwoPassEPGParser.

(** [parse_epg_file]: the [except] branch needs [parse] to raise, which in
    this model it never does, both passes catching what the SAX parser and
    the store raise. *)
Definition parse_epg_file (fs : string → Sax.feed) (current_time path sid : string) (w : world)
  : bool * world :=
  let '(ok, (_, w)) := TwoPassEPGParser.parse fs current_time (TwoPassEPGParser.init path sid, w) in
  (ok, w).

(** [s.split("/")[-1]] *)
Fixpoint last_segment (s acc : string) : string :=
  match s with
  | EmptyString => acc
  | String c r =>
      if decide (c = "/"%char) then last_segment r "" else last_segment r (acc ++ String c "")
  end.

Section Sources.

(** The collaborators of [process_source]: [hashlib.md5(..).hexdigest()],
    [download_file] (the local path, or [None]) and the file system as the
    SAX parser reads it. *)
Variable md5_hexdigest : string → string.
Variable download_file : string → option string.
Variable fs : string → Sax.feed.

(** [process_source]. The DELETE, the INSERT and their commits are not in
    a [try]: an exception there ends the whole program and is not modelled.
    [current_time] is the clock reading [parse] will make. *)
Definition process_source (source_url current_time : string) (w : world) : bool * world :=
  let source_id := md5_hexdigest source_url in
  let source_name := last_segment source_url "" in
  let w := set_store (Sql.delete_source source_id (store w)) w in
  let w := logger DeletedExisting w in
  match (if String.prefix "http" source_url then download_file source_url
         else Some source_url) with
  | None => (false, w)
  | Some local_path =>
      match Sql.insert_source source_id source_name source_url w with
      | (Done, w) => parse_epg_file fs current_time local_path source_id w
      | (_, w) => (false, w)
      end
  end.

(** The loop of [main] and [run_parser] over the sources, each with the
    clock reading of its parse. *)
Fixpoint process_all (srcs : list (string * string)) (success_count : Z) (w : world)
  : Z * world :=
  match srcs with
  | [] => (success_count, w)
  | (source, current_time) :: rest =>
      let '(ok, w) := process_source source current_time w in
      process_all rest (if ok then success_count + 1 else success_count) w
  end.

End Sources.

(** ** Sample feeds *)

Module Samples.

Import Sax.

Definition elem (name : string) (attrs : gmap string string) (body : list event) : list event :=
  StartElement name attrs :: body ++ [EndElement name].

Definition text (name content : string) : list event :=
  elem name ∅ [Characters content].

Definition chan (id name : string) : list event :=
  elem "channel" {["id" := id]} (text "display-name" name).

Definition prog (channel start stop title : string) : list event :=
  elem "programme" (<["channel" := channel]> (<["start" := start]> {["stop" := stop]}))
       (text "title" title).

(** The example of the specification: channels c1 and c2, two programmes
    on c1, one on c2, one on the unknown c3. *)
Definition guide : feed :=
  Feed (elem "tv" ∅ (chan "c1" "One" ++ chan "c2" "Two" ++
                     prog "c1" "100" "200" "News" ++ prog "c1" "200" "300" "Film" ++
                     prog "c2" "100" "200" "Quiz" ++ prog "c3" "100" "200" "Lost"))
       EndDocument.

Definition empty_world : world := World (Tables ∅ ∅ ∅) None [] "2024-01-01 00:00:00" [].

(** The same guide without the programme on the unknown channel. *)
Definition guide_known : feed :=
  Feed (elem "tv" ∅ (chan "c1" "One" ++ chan "c2" "Two" ++
                     prog "c1" "100" "200" "News" ++ prog "c1" "200" "300" "Film" ++
                     prog "c2" "100" "200" "Quiz"))
       EndDocument.

(** A document cut short inside its first channel element. *)
Definition truncated : feed :=
  Feed [StartElement "tv" ∅; StartElement "channel" {["id" := "c1"]}] SAXException.

(** A channel with three icon elements that carry text. *)
Definition icons : feed :=
  Feed (elem "tv" ∅ (elem "channel" {["id" := "c1"]}
                       (text "display-name" "One" ++ text "icon" "http://a/1.png" ++
                        text "icon" "@src 2.png" ++ text "icon" "@src 3.png")))
       EndDocument.

(** The same channel id declared twice. *)
Definition twice : feed :=
  Feed (elem "tv" ∅ (elem "channel" {["id" := "c1"]}
                       (text "display-name" "One" ++ text "icon" "@src 1.png") ++
                     chan "c1" "Uno"))
       EndDocument.

(** A programme without a title between two with one. *)
Definition untitled : feed :=
  Feed (elem "tv" ∅ (chan "c1" "One" ++ prog "c1" "100" "200" "News" ++
                     elem "programme" (<["channel" := "c1"]> (<["start" := "200"]> {["stop" := "300"]}))
                          (text "desc" "No title here") ++
                     prog "c1" "300" "400" "   "))
       EndDocument.

(** A feed whose channel id another source already holds. *)
Definition shared : feed :=
  Feed (elem "tv" ∅ (chan "c1" "One" ++ prog "c1" "300" "400" "New")) EndDocument.

Definition other_tables : tables :=
  Tables {["other" := SourceRow "other" "other.xml" (Some "other.xml") None 1 1
                                "2024-01-01 00:00:00"]}
         {["c1" := Channel "c1" "other" "Uno" None]}
         {["c1_100_200" := Program "c1_100_200" "c1" "Old" None "100" "200" None]}.

Definition other_world : world :=
  World other_tables None [] "2024-01-01 00:00:00" [].

(** A store whose third statement, the COMMIT of the channel batch of
    [guide], raises. *)
Definition failing_commit : world :=
  World (Tables ∅ ∅ ∅) None [false; false; true] "2024-01-01 00:00:00" [].

(** The handler of the second pass inside an open programme element that
    has a description and no title. *)
Definition untitled_open : ProgramHandler.t :=
  ProgramHandler.Make {["c1"]} 1 0 (Some "desc") true
    (Program "c1_200_300" "c1" "" (Some "No title here") "200" "300" None)
    "No title here"
    [Program "c1_100_200" "c1" "News" None "100" "200" None].

(** A store that holds another source, with a channel and a programme. *)
Definition settled_tables : tables :=
  Tables {["other" := SourceRow "other" "other.xml" (Some "other.xml") None 1 1
                                "2024-01-01 00:00:00"]}
         {["k7" := Channel "k7" "other" "Seven" None]}
         {["k7_100_200" := Program "k7_100_200" "k7" "Old" None "100" "200" None]}.

Definition settled_world : world :=
  World settled_tables None [] "2024-01-01 00:00:00" [].

(** A store in which the row of the source "guide.xml" is in place. *)
Definition ready_world : world :=
  World (Tables {["guide.xml" := SourceRow "guide.xml" "guide.xml" (Some "guide.xml") None 0 0
                                           "2024-01-01 00:00:00"]} ∅ ∅)
        None [] "2024-01-01 00:00:00" [].

(** The handler of the first pass with two records for one id in its
    batch. *)
Definition pending : ChannelHandler.t :=
  ChannelHandler.Make "guide.xml" 2 (Some "channel") false
    (Channel "c1" "guide.xml" "Uno" None) ""
    [Channel "c1" "guide.xml" "One" (Some "@src 1.png"); Channel "c1" "guide.xml" "Uno" None]
    {["c1"]}.

(** The handler of the first pass inside an open channel element, after
    the text of an icon element. *)
Definition icon_open : ChannelHandler.t :=
  ChannelHandler.Make "guide.xml" 0 (Some "icon") true
    (Channel "c1" "guide.xml" "One" None) "@src 2.png" [] ∅.

(** The same store with the row of the source "guide.xml" in place. *)
Definition failing_ready : world :=
  World (Tables {["guide.xml" := SourceRow "guide.xml" "guide.xml" (Some "guide.xml") None 0 0
                                           "2024-01-01 00:00:00"]} ∅ ∅)
        None [false; false; true] "2024-01-01 00:00:00" [].

(** Collaborators for the samples: the source id is the url itself, every
    download succeeds, and every path holds the given feed. *)
Definition same (u : string) : string := u.
Definition fetched (u : string) : option string := Some u.
Definition only (f : feed) (path : string) : feed := f.

End Samples.

(** ** More of [str] and [os.path] *)

Module PyStr.

(** [c.lower()] for an ASCII character. *)
Definition lower_char (c : ascii) : ascii :=
  let n := nat_of_ascii c in
  if (65 <=? n)%nat && (n <=? 90)%nat then ascii_of_nat (n + 32) else c.

(** [s.lower()] *)
Fixpoint lower (s : string) : string :=
  match s with
  | EmptyString => EmptyString
  | String c r => String (lower_char c) (lower r)
  end.

(** [s.endswith(suffix)]: [suffix] is what is left of [s] from some
    position on. *)
Fixpoint endswith (suffix s : string) : bool :=
  (suffix =? s)%string ||
  match s with
  | EmptyString => false
  | String _ r => endswith suffix r
  end.

(** [s.replace(old, new)] for one-character [old] and [new]. *)
Fixpoint replace (old new : ascii) (s : string) : string :=
  match s with
  | EmptyString => EmptyString
  | String c r => String (if decide (c = old) then new else c) (replace old new r)
  end.

(** [os.path.join(a, b)] on a POSIX system. *)
Definition path_join (a b : string) : string :=
  if String.prefix "/" b then b
  else if (a =? "")%string || endswith "/" a then a ++ b
  else a ++ "/" ++ b.

End PyStr.

(** [self.is_gzipped] of [TwoPassEPGParser.__init__]. *)
Definition is_gzipped (file_path : string) : bool :=
  PyStr.endswith ".gz" (PyStr.lower file_path).

(** ** [download_file] *)

Module Download.

(** A file of the cache: what [time.time() - os.path.getmtime(path)] gives
    at the call, in seconds, and what the file holds. *)
Record file := File { file_age : QArith_base.Q; content : string }.

(** What the network does for a url: [urlopen] raises; or the response
    is there and, once the cache file is open, [chunks] are written to it
    before the loop ends, normally or ([complete] false) by an exception
    of [read], of [write] or of the conversion of the Content-Length
    header, which comes before the first chunk. *)
Inductive response :=
| Refused
| Body (chunks : list string) (complete : bool).

(** The name of the cache file for a url. *)
Definition cache_filename (md5_hexdigest : string → string) (url : string) : string :=
  let url_hash := PyStr.replace "." "_" (PyStr.replace ":" "_" (PyStr.replace "/" "_" url)) in
  let url_hash := if (100 <? String.length url_hash)%nat then md5_hexdigest url else url_hash in
  let filename := url_hash ++ ".xml" in
  if PyStr.endswith ".gz" (PyStr.lower url) then filename ++ ".gz" else filename.

(** The [try] block. [urlopen] comes first and [open(local_path, 'wb')]
    second, in one [with]: when either raises nothing is written and the
    [except] branch gives the path if a file is there and [None] otherwise.
    [writable path] tells whether [open(path, 'wb')] succeeds; when it does
    the file is emptied and the chunks are written as they come. *)
Definition fetch (fsys : gmap string file) (net : string → response)
    (writable : string → bool) (url local_path : string)
  : option string * gmap string file :=
  let fallback := match fsys !! local_path with Some _ => Some local_path | None => None end in
  match net url with
  | Refused => (fallback, fsys)
  | Body chunks _ =>
      if writable local_path then
        (Some local_path,
         <[local_path := File (QArith_base.inject_Z 0) (String.concat "" chunks)]> fsys)
      else (fallback, fsys)
  end.

(** [download_file(url, cache_dir)] on a file system and a network; the
    result and the file system afterwards. *)
Definition download_file (md5_hexdigest : string → string)
    (fsys : gmap string file) (net : string → response) (writable : string → bool)
    (url cache_dir : string)
  : option string * gmap string file :=
  let local_path := PyStr.path_join cache_dir (cache_filename md5_hexdigest url) in
  match fsys !! local_path with
  | Some f =>
      if QArith_base.Qlt_le_dec (file_age f) (QArith_base.inject_Z (24 * 60 * 60))
      then (Some local_path, fsys)
      else fetch fsys net writable url local_path
  | None => fetch fsys net writable url local_path
  end.

End Download.

(** ** [read_sources_file] *)

Module SourcesFile.

(** A value [json.load] returns. *)
Inductive json :=
| JNull
| JBool (b : bool)
| JNumber (z : Z)
| JString (s : string)
| JArray (l : list json)
| JObject (kv : list (string * json)).

(** What is at a path: nothing that can be opened, or lines (each with its
    line end) together with what [json.load] makes of the file, [None] when
    it raises. *)
Inductive file_data :=
| Unreadable
| Contents (lines : list string) (parsed : option json).

(** What the function returns: a list of strings from a text file, or a
    value taken from a JSON file as it is. *)
Inductive loaded :=
| Urls (l : list string)
| Value (j : json).

(** [key in data] and [data[key]] for a dict: the last pair with the key
    counts. *)
Fixpoint dict_get (key : string) (kv : list (string * json)) : option json :=
  match kv with
  | nil => None
  | cons (k, v) rest =>
      match dict_get key rest with
      | Some v' => Some v'
      | None => if decide (k = key) then Some v else None
      end
  end.

Definition read_sources_file (file_path : string) (data : file_data) : loaded :=
  match data with
  | Unreadable => Urls nil
  | Contents lines parsed =>
      if PyStr.endswith ".json" file_path then
        match parsed with
        | Some (JArray l) => Value (JArray l)
        | Some (JObject kv) =>
            match dict_get "EXTERNAL_EPG_URLS" kv with
            | Some v => Value v
            | None => Urls nil
            end
        | _ => Urls nil
        end
      else
        Urls (List.map Str.strip
                (List.filter (λ line, Str.truthy (Str.strip line) &&
                                       negb (String.prefix "#" line)) lines))
  end.

End SourcesFile.

(** ** Vocabulary of the statements *)

Local Open Scope list_scope.

Arguments ChannelHandler._process_channel_batch : simpl never.
Arguments ProgramHandler._process_program_batch : simpl never.

(** The effect of one channel write and of one programme write on the
    tables, when the statement goes through. *)
Definition put_channel (c : channel) (t : tables) : tables :=
  Tables (sources t) (<[ch_id c := c]> (channels t)) (programs t).

Definition put_program (p : program) (t : tables) : tables :=
  Tables (sources t) (channels t) (<[pr_id p := p]> (programs t)).

(** A whole channel batch applied: every record inserted, or written over
    the row that has its id. *)
Definition upsert_all (b : list channel) (t : tables) : tables :=
  foldl (λ t c, put_channel c t) t b.

(** A whole programme batch applied: every record whose channel exists is
    inserted or replaces the row with its id; the others are passed over. *)
Definition replace_all (b : list program) (t : tables) : tables :=
  foldl (λ t p, if decide (is_Some (channels t !! pr_channel_id p)) then put_program p t else t)
        t b.

(** Referential integrity, as foreign keys enforce it. *)
Definition fk_ok (t : tables) : Prop :=
  (∀ k c, channels t !! k = Some c → is_Some (sources t !! ch_source_id c)) ∧
  (∀ k p, programs t !! k = Some p → is_Some (channels t !! pr_channel_id p)).

(** The rows of a source: its channels, and the programmes on them. *)
Definition channels_of (sid : string) (t : tables) : gmap string channel :=
  filter (λ kv, ch_source_id kv.2 = sid) (channels t).

Definition programs_of (sid : string) (t : tables) : gmap string program :=
  filter (λ kv, is_Some (channels_of sid t !! pr_channel_id kv.2)) (programs t).

(** A programme element the second pass turns away. *)
Definition rejected (ids : gset string) (e : Sax.event) : bool :=
  match e with
  | Sax.StartElement name attrs =>
      bool_decide (name = "programme") && negb (bool_decide (Sax.get attrs "channel" ∈ ids))
  | _ => false
  end.

(** A world to run a handler in when only the handler is of interest. *)
Definition null_world : world := World (Tables ∅ ∅ ∅) None [] "" [].

(** The handler of the first pass after the callbacks [evs], and the
    channel ids a feed declares. Neither depends on the store. *)
Definition channel_state (evs : list Sax.event) (h : ChannelHandler.t) : ChannelHandler.t :=
  (Sax.run evs (h, null_world)).1.

Definition declared_ids (f : Sax.feed) (sid : string) : gset string :=
  ChannelHandler.channel_ids (channel_state (Sax.events f) (ChannelHandler.init sid)).

(** The record the callback [e] makes the first pass accept, if any. *)
Definition accepts (h : ChannelHandler.t) (e : Sax.event) : list channel :=
  match e with
  | Sax.EndElement name =>
      if ChannelHandler.in_channel h && bool_decide (name = "channel") &&
         Str.truthy (ch_id (ChannelHandler.current_channel h))
      then [ChannelHandler.current_channel h] else []
  | _ => []
  end.

Fixpoint accepted (evs : list Sax.event) (h : ChannelHandler.t) : list channel :=
  match evs with
  | [] => []
  | e :: rest => accepts h e ++ accepted rest (channel_state [e] h)
  end.

(** The same for the second pass. *)
Definition program_state (evs : list Sax.event) (h : ProgramHandler.t) : ProgramHandler.t :=
  (Sax.run evs (h, null_world)).1.

Definition admits (h : ProgramHandler.t) (e : Sax.event) : list program :=
  match e with
  | Sax.EndElement name =>
      if ProgramHandler.in_programme h && bool_decide (name = "programme") &&
         Str.truthy (pr_title (ProgramHandler.current_program h))
      then [ProgramHandler.current_program h] else []
  | _ => []
  end.

Fixpoint admitted (evs : list Sax.event) (h : ProgramHandler.t) : list program :=
  match evs with
  | [] => []
  | e :: rest => admits h e ++ admitted rest (program_state [e] h)
  end.

(** A programme record that comes from a programme element among the
    callbacks [seen]: its channel, start and stop are the raw attributes of
    the element, the channel is one of [ids], and its key is made of the
    three. *)
Definition from_feed (seen : list Sax.event) (ids : gset string) (p : program) : Prop :=
  ∃ attrs, Sax.StartElement "programme" attrs ∈ seen ∧
           Sax.get attrs "channel" ∈ ids ∧
           pr_channel_id p = Sax.get attrs "channel" ∧
           pr_start p = Sax.get attrs "start" ∧
           pr_stop p = Sax.get attrs "stop" ∧
           pr_id p = (Sax.get attrs "channel" ++ "_" ++ Sax.get attrs "start" ++ "_" ++
                      Sax.get attrs "stop")%string.

Definition written_ok (seen : list Sax.event) (ids : gset string) (p : program) : Prop :=
  from_feed seen ids p ∧ pr_title p ≠ "".

(** While a programme element is open, the candidate comes from it. *)
Definition programme_ok (seen : list Sax.event) (h : ProgramHandler.t) : Prop :=
  ProgramHandler.in_programme h = true →
  from_feed seen (ProgramHandler.channel_ids h) (ProgramHandler.current_program h).

(** The records a pass writes when the store raises nothing: all those it
    took when the document ends well, and otherwise those of the batches
    that were full before the parser raised. *)
Definition written_channels (f : Sax.feed) (sid : string) : list channel :=
  let acc := accepted (Sax.events f) (ChannelHandler.init sid) in
  match Sax.final f with
  | Sax.EndDocument => acc
  | Sax.SAXException =>
      take (length acc - length (ChannelHandler.channel_batch
                                   (channel_state (Sax.events f) (ChannelHandler.init sid))))
           acc
  end.

Definition written_programs (f : Sax.feed) (ids : gset string) : list program :=
  let acc := admitted (Sax.events f) (ProgramHandler.init ids) in
  match Sax.final f with
  | Sax.EndDocument => acc
  | Sax.SAXException =>
      take (length acc - length (ProgramHandler.program_batch
                                   (program_state (Sax.events f) (ProgramHandler.init ids))))
           acc
  end.

(** The channel ids the first pass hands to the second. *)
Definition first_pass_ids (f : Sax.feed) (sid : string) : gset string :=
  match Sax.final f with
  | Sax.EndDocument => declared_ids f sid
  | Sax.SAXException => ∅
  end.

(** The tables [process_source] hands to the parser: the source deleted
    with what hangs on it, and its row inserted anew. *)
Definition prepared (sid url clock : string) (t : tables) : tables :=
  let t0 := Sql.delete_source sid t in
  Tables (<[sid := SourceRow sid (last_segment url "") (Some url) None 0 0 clock]> (sources t0))
         (channels t0) (programs t0).

(** The file [process_source] parses, if it gets one. *)
Definition local_path (download_file : string → option string) (url : string) : option string :=
  if String.prefix "http" url then download_file url else Some url.

(** A callback that opens an element of the given name. *)
Definition opens (name : string) (e : Sax.event) : bool :=
  match e with
  | Sax.StartElement n _ => bool_decide (n = name)
  | _ => false
  end.

(** A callback that closes an element of the given name. *)
Definition closes (name : string) (e : Sax.event) : bool :=
  match e with
  | Sax.EndElement n => bool_decide (n = name)
  | _ => false
  end.

(** The head of a string, when there is one, is not white space. *)
Definition head_ok (s : string) : Prop :=
  match s with
  | EmptyString => True
  | String c _ => Str.isspace c = false
  end.

(** The log entries for the records of a programme batch that the store
    turned away one by one. *)
Definition skipped_entries (t : tables) (b : list program) : list log_entry :=
  (λ p, ProgramIntegrityError (pr_id p) (pr_channel_id p)) <$>
  filter (λ p, channels t !! pr_channel_id p = None) b.

(** While a channel element is open, the candidate carries the source id
    of the handler. *)
Definition candidate_ok (h : ChannelHandler.t) : Prop :=
  ChannelHandler.in_channel h = true →
  ch_source_id (ChannelHandler.current_channel h) = ChannelHandler.source_id h.

(** What holds of the channel batch between two callbacks. *)
Definition batch_ok (h : ChannelHandler.t) : Prop :=
  candidate_ok h ∧
  ∀ c, c ∈ ChannelHandler.channel_batch h → ch_source_id c = ChannelHandler.source_id h.

(** Closes the conjunctions of facts about a world that the lemmas on
    statements leave. *)
Ltac settle :=
  repeat match goal with
         | |- _ ∧ _ => split
         | |- _ → _ => intro
         end;
  repeat match goal with
         | H : ?P → _, H' : ?P |- _ => specialize (H H')
         | H : ?x = ?x → _ |- _ => specialize (H eq_refl)
         | H : _ ∧ _ |- _ => destruct H
         end;
  try done; try congruence;
  try (left; split; (done || congruence));
  try (right; split; (done || congruence));
  try naive_solver.

(** ** The statements one at a time *)

Section Statements.

Implicit Types (w : world) (t : tables).

Lemma next_fault_quiet w : faults w = [] → Sql.next_fault w = (false, w).
Proof. unfold Sql.next_fault. by intros ->. Qed.

Lemma set_store_id w : set_store (store w) w = w.
Proof. by destruct w. Qed.

Lemma next_fault_frame w b w' :
  Sql.next_fault w = (b, w') →
  store w' = store w ∧ txn w' = txn w ∧ store_clock w' = store_clock w ∧ log w' = log w.
Proof.
  unfold Sql.next_fault. destruct (faults w); intros [= <- <-]; by destruct w.
Qed.

Lemma insert_channel_spec c w o w' :
  Sql.insert_channel c w = (o, w') →
  txn w' = txn w ∧ store_clock w' = store_clock w ∧ log w' = log w ∧
  (faults w = [] → faults w' = [] ∧ o ≠ OtherError) ∧
  match o with
  | Done => channels (store w) !! ch_id c = None ∧ store w' = put_channel c (store w)
  | IntegrityError =>
      store w' = store w ∧
      (is_Some (channels (store w) !! ch_id c) ∨ sources (store w) !! ch_source_id c = None)
  | OtherError => store w' = store w
  end.
Proof.
  unfold Sql.insert_channel, Sql.next_fault.
  destruct w as [t x f k l]; simpl.
  destruct f as [|[] f]; simpl;
    destruct (channels t !! ch_id c) eqn:Hc, (sources t !! ch_source_id c) eqn:Hs;
    intros [= <- <-]; simpl; rewrite ?Hc, ?Hs; naive_solver.
Qed.

Lemma update_channel_spec c w o w' :
  Sql.update_channel c w = (o, w') →
  txn w' = txn w ∧ store_clock w' = store_clock w ∧ log w' = log w ∧
  (faults w = [] → faults w' = [] ∧ o ≠ OtherError) ∧
  match o with
  | Done =>
      match channels (store w) !! ch_id c with
      | Some _ => store w' = put_channel c (store w)
      | None => store w' = store w
      end
  | IntegrityError =>
      store w' = store w ∧ sources (store w) !! ch_source_id c = None
  | OtherError => store w' = store w
  end.
Proof.
  unfold Sql.update_channel, Sql.next_fault.
  destruct w as [t x f k l]; simpl.
  destruct f as [|[] f]; simpl;
    destruct (channels t !! ch_id c) eqn:Hc, (sources t !! ch_source_id c) eqn:Hs;
    intros [= <- <-]; simpl; rewrite ?Hc, ?Hs; naive_solver.
Qed.

Lemma replace_program_spec p w o w' :
  Sql.replace_program p w = (o, w') →
  txn w' = txn w ∧ store_clock w' = store_clock w ∧ log w' = log w ∧
  (faults w = [] → faults w' = [] ∧ o ≠ OtherError) ∧
  match o with
  | Done => is_Some (channels (store w) !! pr_channel_id p) ∧
            store w' = put_program p (store w)
  | IntegrityError => store w' = store w ∧ channels (store w) !! pr_channel_id p = None
  | OtherError => store w' = store w
  end.
Proof.
  unfold Sql.replace_program, Sql.next_fault.
  destruct w as [t x f k l]; simpl.
  destruct f as [|[] f]; simpl;
    destruct (channels t !! pr_channel_id p) eqn:Hc;
    intros [= <- <-]; simpl; rewrite ?Hc; naive_solver.
Qed.

Lemma commit_spec w o w' :
  Sql.commit w = (o, w') →
  store w' = store w ∧ store_clock w' = store_clock w ∧ log w' = log w ∧
  (faults w = [] → faults w' = [] ∧ o = Done) ∧
  match o with
  | Done => txn w' = None
  | _ => txn w' = txn w
  end.
Proof.
  unfold Sql.commit, Sql.next_fault.
  destruct w as [t x f k l]; simpl.
  destruct f as [|[] f]; simpl; intros [= <- <-]; simpl; naive_solver.
Qed.

Lemma rollback_spec w t :
  txn w = Some t →
  store (Sql.rollback w) = t ∧ txn (Sql.rollback w) = None ∧
  faults (Sql.rollback w) = faults w ∧ store_clock (Sql.rollback w) = store_clock w ∧
  log (Sql.rollback w) = log w.
Proof. unfold Sql.rollback. intros ->. by destruct w. Qed.

Lemma update_source_spec nc np stamp sid w o w' :
  Sql.update_source nc np stamp sid w = (o, w') →
  txn w' = txn w ∧ store_clock w' = store_clock w ∧ log w' = log w ∧
  channels (store w') = channels (store w) ∧ programs (store w') = programs (store w) ∧
  (faults w = [] → faults w' = [] ∧ o = Done) ∧
  o ≠ IntegrityError ∧
  match o with
  | Done =>
      sources (store w') =
      match sources (store w) !! sid with
      | Some r => <[sid := SourceRow (src_id r) (src_name r) (src_url r) (src_file_path r)
                                     nc np stamp]> (sources (store w))
      | None => sources (store w)
      end
  | _ => store w' = store w
  end.
Proof.
  unfold Sql.update_source, Sql.next_fault.
  destruct w as [t x f k l]; simpl.
  destruct f as [|[] f]; simpl;
    destruct (sources t !! sid) eqn:Hs;
    intros [= <- <-]; simpl; rewrite ?Hs; naive_solver.
Qed.

End Statements.

(** ** A batch at a time *)

Section Batches.

Implicit Types (w : world) (t : tables).

Lemma upsert_all_sources b t : sources (upsert_all b t) = sources t.
Proof. revert t. induction b as [|c b IH]; intros t; [done|]. simpl. by rewrite IH. Qed.

Lemma upsert_all_programs b t : programs (upsert_all b t) = programs t.
Proof. revert t. induction b as [|c b IH]; intros t; [done|]. simpl. by rewrite IH. Qed.

Lemma replace_all_sources b t : sources (replace_all b t) = sources t.
Proof.
  revert t. induction b as [|c b IH]; intros t; [done|]. simpl.
  rewrite IH. by case_decide.
Qed.

Lemma replace_all_channels b t : channels (replace_all b t) = channels t.
Proof.
  revert t. induction b as [|c b IH]; intros t; [done|]. simpl.
  rewrite IH. by case_decide.
Qed.

Lemma channel_write_batch_spec b w o w' :
  (∀ c, c ∈ b → is_Some (sources (store w) !! ch_source_id c)) →
  ChannelHandler.write_batch b w = (o, w') →
  txn w' = txn w ∧ store_clock w' = store_clock w ∧ log w' = log w ∧
  (faults w = [] → faults w' = [] ∧ o = Done) ∧
  (o = Done → store w' = upsert_all b (store w)) ∧
  (o ≠ Done → o = OtherError).
Proof.
  revert w. induction b as [|c b IH]; intros w Hsrc; simpl.
  { intros [= <- <-]. naive_solver. }
  assert (Hc : is_Some (sources (store w) !! ch_source_id c)) by (apply Hsrc; left).
  destruct (Sql.insert_channel c w) as [[| |] w1] eqn:E1;
    apply insert_channel_spec in E1 as (Ht & Hk & Hl & Hq & Hs).
  - destruct Hs as [_ Hs]. intros E.
    apply IH in E as (? & ? & ? & Hq' & Hd & Hn).
    + rewrite Hs in Hd. repeat split; try congruence; naive_solver.
    + intros c' Hc'. rewrite Hs. simpl. apply Hsrc. by right.
  - destruct Hs as [Hs [Hrow|Hno]]; [|rewrite Hno in Hc; by destruct Hc].
    destruct (Sql.update_channel c w1) as [[| |] w2] eqn:E2;
      apply update_channel_spec in E2 as (Ht2 & Hk2 & Hl2 & Hq2 & Hs2);
      rewrite Hs in Hs2.
    + destruct Hrow as [r Hrow]. rewrite Hrow in Hs2. intros E.
      apply IH in E as (? & ? & ? & Hq' & Hd & Hn).
      * rewrite Hs2 in Hd. repeat split; try congruence; naive_solver.
      * intros c' Hc'. rewrite Hs2. simpl. apply Hsrc. by right.
    + destruct Hs2 as [_ Hno]. rewrite Hno in Hc. by destruct Hc.
    + intros [= <- <-]. repeat split; try congruence; naive_solver.
  - intros [= <- <-]. repeat split; try congruence; naive_solver.
Qed.

Lemma program_write_batch_spec b w o w' :
  ProgramHandler.write_batch b w = (o, w') →
  txn w' = txn w ∧ store_clock w' = store_clock w ∧
  (faults w = [] → faults w' = [] ∧ o = Done) ∧
  (o = Done → store w' = replace_all b (store w) ∧
              log w' = (log w ++ skipped_entries (store w) b)%list) ∧
  (o ≠ Done → o = OtherError).
Proof.
  revert w. induction b as [|p b IH]; intros w; simpl.
  { intros [= <- <-]. unfold skipped_entries. simpl. rewrite app_nil_r. naive_solver. }
  destruct (Sql.replace_program p w) as [[| |] w1] eqn:E1;
    apply replace_program_spec in E1 as (Ht & Hk & Hl & Hq & Hs).
  - destruct Hs as [Hc Hs]. intros E.
    apply IH in E as (? & ? & Hq' & Hd & Hn).
    rewrite Hs in Hd. rewrite decide_True by done.
    unfold skipped_entries in *. rewrite filter_cons_False by (destruct Hc; congruence).
    simpl in Hd. rewrite Hl in Hd.
    repeat split; try congruence; naive_solver.
  - destruct Hs as [Hs Hc]. intros E.
    apply IH in E as (? & ? & Hq' & Hd & Hn). simpl in *.
    rewrite Hs in Hd. rewrite decide_False by (rewrite Hc; by intros [? ?]).
    unfold skipped_entries in *. rewrite filter_cons_True by done.
    rewrite Hl in Hd. rewrite fmap_cons, cons_middle, app_assoc.
    repeat split; try congruence; naive_solver.
  - intros [= <- <-]. repeat split; try congruence; naive_solver.
Qed.

Lemma channel_set_batch_nil h :
  ChannelHandler.channel_batch h = [] → ChannelHandler.set_batch [] h = h.
Proof. destruct h; simpl. by intros ->. Qed.

Lemma program_set_batch_nil h :
  ProgramHandler.program_batch h = [] → ProgramHandler.set_batch [] h = h.
Proof. destruct h; simpl. by intros ->. Qed.

Lemma channel_flush_spec h w h' w' :
  (∀ c, c ∈ ChannelHandler.channel_batch h → is_Some (sources (store w) !! ch_source_id c)) →
  ChannelHandler._process_channel_batch (h, w) = (h', w') →
  h' = ChannelHandler.set_batch [] h ∧ store_clock w' = store_clock w ∧
  ((store w' = upsert_all (ChannelHandler.channel_batch h) (store w) ∧ log w' = log w) ∨
   (store w' = store w ∧ log w' = (log w ++ [ErrorChannelBatch])%list)) ∧
  (ChannelHandler.channel_batch h ≠ [] → txn w' = None) ∧
  (ChannelHandler.channel_batch h = [] → w' = w) ∧
  (faults w = [] →
   faults w' = [] ∧ log w' = log w ∧
   store w' = upsert_all (ChannelHandler.channel_batch h) (store w)).
Proof.
  intros Hsrc. unfold ChannelHandler._process_channel_batch.
  destruct (ChannelHandler.channel_batch h) as [|c b] eqn:Hb.
  { intros [= <- <-]. rewrite channel_set_batch_nil by done. naive_solver. }
  rewrite <- Hb in *.
  assert (Hne : ChannelHandler.channel_batch h ≠ []) by (rewrite Hb; done).
  destruct (ChannelHandler.write_batch _ (Sql.begin w)) as [o w1] eqn:E1.
  apply channel_write_batch_spec in E1 as (Ht & Hk & Hl & Hq & Hd & Hn); [|done].
  change (txn (Sql.begin w)) with (Some (store w)) in Ht.
  change (store (Sql.begin w)) with (store w) in Hd.
  change (faults (Sql.begin w)) with (faults w) in Hq.
  change (log (Sql.begin w)) with (log w) in Hl.
  change (store_clock (Sql.begin w)) with (store_clock w) in Hk.
  assert (Hfail : ∀ w2, txn w2 = Some (store w) → log w2 = log w →
            store_clock w2 = store_clock w →
            let w3 := Sql.rollback (logger ErrorChannelBatch w2) in
            store w3 = store w ∧ log w3 = (log w ++ [ErrorChannelBatch])%list ∧
            txn w3 = None ∧ store_clock w3 = store_clock w).
  { intros w2 Ht2 Hl2 Hk2 w3.
    destruct (rollback_spec (logger ErrorChannelBatch w2) (store w)) as (?&?&?&?&?);
      [done|]. subst w3. simpl in *. rewrite <- Hl2, <- Hk2. done. }
  destruct o.
  - destruct (Sql.commit w1) as [o2 w2] eqn:E2.
    apply commit_spec in E2 as (Hs2 & Hk2 & Hl2 & Hq2 & Ht2).
    destruct o2.
    + intros [= <- <-]. rewrite Hs2, Hd by done.
      settle.
    + intros [= <- <-].
      destruct (Hfail w2) as (?&?&?&?); [congruence..|].
      settle.
    + intros [= <- <-].
      destruct (Hfail w2) as (?&?&?&?); [congruence..|].
      settle.
  - intros [= <- <-].
    destruct (Hfail w1) as (?&?&?&?); [congruence..|].
    settle.
  - intros [= <- <-].
    destruct (Hfail w1) as (?&?&?&?); [congruence..|].
    settle.
Qed.

Lemma program_flush_spec h w h' w' :
  ProgramHandler._process_program_batch (h, w) = (h', w') →
  h' = ProgramHandler.set_batch [] h ∧ store_clock w' = store_clock w ∧
  ((store w' = replace_all (ProgramHandler.program_batch h) (store w) ∧
    log w' = (log w ++ skipped_entries (store w) (ProgramHandler.program_batch h))%list) ∨
   (store w' = store w ∧ last (log w') = Some ErrorProgramBatch)) ∧
  (ProgramHandler.program_batch h ≠ [] → txn w' = None) ∧
  (ProgramHandler.program_batch h = [] → w' = w) ∧
  (faults w = [] →
   faults w' = [] ∧
   store w' = replace_all (ProgramHandler.program_batch h) (store w)).
Proof.
  unfold ProgramHandler._process_program_batch.
  destruct (ProgramHandler.program_batch h) as [|c b] eqn:Hb.
  { intros [= <- <-]. rewrite program_set_batch_nil by done.
    unfold skipped_entries. simpl. rewrite app_nil_r. naive_solver. }
  rewrite <- Hb in *.
  assert (Hne : ProgramHandler.program_batch h ≠ []) by (rewrite Hb; done).
  destruct (ProgramHandler.write_batch _ (Sql.begin w)) as [o w1] eqn:E1.
  apply program_write_batch_spec in E1 as (Ht & Hk & Hq & Hd & Hn).
  change (txn (Sql.begin w)) with (Some (store w)) in Ht.
  change (store (Sql.begin w)) with (store w) in Hd.
  change (faults (Sql.begin w)) with (faults w) in Hq.
  change (log (Sql.begin w)) with (log w) in Hd.
  change (store_clock (Sql.begin w)) with (store_clock w) in Hk.
  assert (Hfail : ∀ w2, txn w2 = Some (store w) →
            store_clock w2 = store_clock w →
            let w3 := Sql.rollback (logger ErrorProgramBatch w2) in
            store w3 = store w ∧ last (log w3) = Some ErrorProgramBatch ∧
            txn w3 = None ∧ store_clock w3 = store_clock w).
  { intros w2 Ht2 Hk2 w3.
    destruct (rollback_spec (logger ErrorProgramBatch w2) (store w))
      as (Hs3&Ht3&Hf3&Hk3&Hl3); [done|].
    subst w3. rewrite Hs3, Ht3, Hk3, Hl3. simpl. by rewrite last_snoc. }
  destruct o.
  - destruct (Sql.commit w1) as [o2 w2] eqn:E2.
    apply commit_spec in E2 as (Hs2 & Hk2 & Hl2 & Hq2 & Ht2).
    destruct Hd as [Hd Hlog]; [done|].
    destruct o2.
    + intros [= <- <-]. rewrite Hs2, Hd, Hl2, Hlog.
      settle.
    + intros [= <- <-].
      destruct (Hfail w2) as (?&?&?&?); [congruence..|].
      settle.
    + intros [= <- <-].
      destruct (Hfail w2) as (?&?&?&?); [congruence..|].
      settle.
  - intros [= <- <-].
    destruct (Hfail w1) as (?&?&?&?); [congruence..|].
    settle.
  - intros [= <- <-].
    destruct (Hfail w1) as (?&?&?&?); [congruence..|].
    settle.
Qed.

End Batches.

(** ** The handlers do not read the store *)

Section HandlerStates.

Lemma channel_flush_fst h w :
  (ChannelHandler._process_channel_batch (h, w)).1 = ChannelHandler.set_batch [] h.
Proof.
  unfold ChannelHandler._process_channel_batch.
  destruct (ChannelHandler.channel_batch h) eqn:Hb.
  { by rewrite channel_set_batch_nil. }
  destruct (ChannelHandler.write_batch _ _) as [[] w1]; try done.
  by destruct (Sql.commit w1) as [[] w2].
Qed.

Lemma program_flush_fst h w :
  (ProgramHandler._process_program_batch (h, w)).1 = ProgramHandler.set_batch [] h.
Proof.
  unfold ProgramHandler._process_program_batch.
  destruct (ProgramHandler.program_batch h) eqn:Hb.
  { by rewrite program_set_batch_nil. }
  destruct (ProgramHandler.write_batch _ _) as [[] w1]; try done.
  by destruct (Sql.commit w1) as [[] w2].
Qed.

Lemma channel_dispatch_fst h w e :
  (Sax.dispatch (h, w) e).1 = channel_state [e] h.
Proof.
  unfold channel_state. destruct e as [name attrs|content|name]; simpl; try done.
  unfold ChannelHandler.endElement.
  repeat first [ done | rewrite !channel_flush_fst | case_decide | case_match ].
Qed.

Lemma program_dispatch_fst h w e :
  (Sax.dispatch (h, w) e).1 = program_state [e] h.
Proof.
  unfold program_state. destruct e as [name attrs|content|name]; simpl; try done.
  unfold ProgramHandler.endElement.
  repeat first [ done | rewrite !program_flush_fst | case_decide | case_match ].
Qed.

Lemma channel_run_fst evs h w : (Sax.run evs (h, w)).1 = channel_state evs h.
Proof.
  revert h w. induction evs as [|e evs IH]; intros h w; [done|].
  unfold channel_state. simpl.
  pose proof (channel_dispatch_fst h w e) as H1.
  pose proof (channel_dispatch_fst h null_world e) as H2.
  destruct (Sax.dispatch (h, w) e) as [h1 w1], (Sax.dispatch (h, null_world) e) as [h2 w2].
  simpl in *. subst. by rewrite !IH.
Qed.

Lemma program_run_fst evs h w : (Sax.run evs (h, w)).1 = program_state evs h.
Proof.
  revert h w. induction evs as [|e evs IH]; intros h w; [done|].
  unfold program_state. simpl.
  pose proof (program_dispatch_fst h w e) as H1.
  pose proof (program_dispatch_fst h null_world e) as H2.
  destruct (Sax.dispatch (h, w) e) as [h1 w1], (Sax.dispatch (h, null_world) e) as [h2 w2].
  simpl in *. subst. by rewrite !IH.
Qed.

Lemma channel_state_cons e evs h :
  channel_state (e :: evs) h = channel_state evs (channel_state [e] h).
Proof.
  unfold channel_state at 1. simpl.
  destruct (Sax.dispatch (h, null_world) e) as [h1 w1] eqn:E.
  rewrite channel_run_fst. f_equal.
  by rewrite <- (channel_dispatch_fst h null_world e), E.
Qed.

Lemma program_state_cons e evs h :
  program_state (e :: evs) h = program_state evs (program_state [e] h).
Proof.
  unfold program_state at 1. simpl.
  destruct (Sax.dispatch (h, null_world) e) as [h1 w1] eqn:E.
  rewrite program_run_fst. f_equal.
  by rewrite <- (program_dispatch_fst h null_world e), E.
Qed.

End HandlerStates.

(** ** One callback of the first pass *)

Section ChannelSteps.

Import ChannelHandler.

(** Case analysis on a callback of the first pass. *)
Ltac channel_cases e :=
  unfold channel_state, accepts;
  destruct e as [name attrs|content|name]; simpl;
  [ unfold startElement; try case_decide
  |
  | unfold endElement;
    repeat first [ rewrite !channel_flush_fst | case_decide | case_bool_decide | case_match ] ];
  simplify_eq/=.

Lemma channel_step_source e h : source_id (channel_state [e] h) = source_id h.
Proof. channel_cases e; done. Qed.

Lemma channel_step_count e h :
  channel_count (channel_state [e] h) = channel_count h + Z.of_nat (length (accepts h e)).
Proof. channel_cases e; try done; simpl; lia. Qed.

Lemma channel_step_ids e h :
  channel_ids (channel_state [e] h) = list_to_set (ch_id <$> accepts h e) ∪ channel_ids h.
Proof. channel_cases e; set_solver. Qed.

Lemma channel_step_candidate e h : candidate_ok h → candidate_ok (channel_state [e] h).
Proof. unfold candidate_ok. channel_cases e; naive_solver. Qed.

Lemma accepts_source e h c :
  candidate_ok h → c ∈ accepts h e → ch_source_id c = source_id h ∧ ch_id c ≠ "".
Proof.
  unfold candidate_ok, accepts. destruct e as [| |name]; try set_solver.
  destruct (in_channel h); simpl; [|set_solver].
  case_bool_decide; simpl; [|set_solver].
  destruct (ch_id (current_channel h)) eqn:Hid; simpl; [set_solver|].
  intros Hs ->%list_elem_of_singleton. rewrite Hid. naive_solver.
Qed.

Lemma channel_dispatch_world h w e h' w' :
  Sax.dispatch (h, w) e = (h', w') →
  (w' = w ∧ channel_batch h' = channel_batch h ++ accepts h e) ∨
  (∃ h1, channel_batch h1 = channel_batch h ++ accepts h e ∧ accepts h e ≠ [] ∧
         source_id h1 = source_id h ∧ channel_count h1 = channel_count h' ∧
         (h', w') = _process_channel_batch (h1, w)).
Proof.
  unfold accepts. destruct e as [name attrs|content|name]; simpl.
  - intros [= <- <-]. left. unfold startElement.
    case_decide; simpl; by rewrite app_nil_r.
  - intros [= <- <-]. left. simpl. by rewrite app_nil_r.
  - unfold endElement.
    destruct (in_channel h); simpl; [|intros [= <- <-]; left; by rewrite app_nil_r].
    case_decide; [subst; intros [= <- <-]; left; simpl; by rewrite app_nil_r|].
    case_decide.
    { subst. rewrite bool_decide_eq_false_2 by done. simpl.
      case_match; intros [= <- <-]; left; simpl; by rewrite app_nil_r. }
    case_decide; [|rewrite bool_decide_eq_false_2 by done; simpl;
                   intros [= <- <-]; left; by rewrite app_nil_r].
    rewrite bool_decide_eq_true_2 by done.
    destruct (Str.truthy _); simpl; [|intros [= <- <-]; left; simpl; by rewrite app_nil_r].
    case_match.
    + intros E. right. eexists. split_and!; [| | | |by rewrite E]; try done.
      simpl. pose proof (channel_flush_fst
        (Make (source_id h) (channel_count h + 1) (current_element h) false
              (current_channel h) (buffer h) (channel_batch h ++ [current_channel h])
              ({[ch_id (current_channel h)]} ∪ channel_ids h)) w) as Hf.
      rewrite E in Hf. simpl in Hf. by subst.
    + intros [= <- <-]. by left.
Qed.

End ChannelSteps.

(** ** The first pass on a store that raises nothing *)

Section ChannelPass.

Import ChannelHandler.

Lemma upsert_all_app b1 b2 t : upsert_all (b1 ++ b2) t = upsert_all b2 (upsert_all b1 t).
Proof. unfold upsert_all. apply foldl_app. Qed.

Lemma replace_all_app b1 b2 t : replace_all (b1 ++ b2) t = replace_all b2 (replace_all b1 t).
Proof. unfold replace_all. apply foldl_app. Qed.

Lemma accepted_cons e evs h :
  accepted (e :: evs) h = accepts h e ++ accepted evs (channel_state [e] h).
Proof. done. Qed.

Lemma batch_ok_init sid : batch_ok (init sid).
Proof. split; [done|]. simpl. set_solver. Qed.

(** The first pass, callback after callback: the store is the one at the
    start with some of the accepted records written, in order; all of
    them but those still in the batch when the store raises nothing. *)
Lemma channel_run_spec evs h w h' w' :
  batch_ok h → is_Some (sources (store w) !! source_id h) →
  Sax.run evs (h, w) = (h', w') →
  store_clock w' = store_clock w ∧ batch_ok h' ∧
  (∀ c, c ∈ channel_batch h' → c ∈ channel_batch h ++ accepted evs h) ∧
  ∃ wr, (∀ c, c ∈ wr → c ∈ channel_batch h ++ accepted evs h) ∧
        store w' = upsert_all wr (store w) ∧
        (faults w = [] →
         faults w' = [] ∧ wr ++ channel_batch h' = channel_batch h ++ accepted evs h).
Proof.
  revert h w. induction evs as [|e evs IH]; intros h w [Hc Hb] Hs.
  { intros [= <- <-]. split_and!; try done; [by rewrite app_nil_r|].
    exists []. simpl. rewrite app_nil_r. split_and!; try done. set_solver. }
  rewrite accepted_cons.
  change (Sax.run (e :: evs) (h, w)) with (Sax.run evs (Sax.dispatch (h, w) e)).
  destruct (Sax.dispatch (h, w) e) as [h1 w1] eqn:E.
  pose proof (channel_dispatch_fst h w e) as Hh1. rewrite E in Hh1. simpl in Hh1.
  assert (Hacc : ∀ c, c ∈ channel_batch h ++ accepts h e → ch_source_id c = source_id h).
  { intros c [?|Hin]%elem_of_app; [by apply Hb|]. by eapply accepts_source. }
  apply channel_dispatch_world in E as [[-> Hb1]|(h2 & Hb2 & Hne & Hs2 & _ & E)].
  - intros Hrun. apply IH in Hrun as (? & ? & Hin & wr & Hsub & Hst & Hq).
    + rewrite <- Hh1, Hb1, <- !app_assoc in *.
      split_and!; try done. by exists wr.
    + split; [subst; by apply channel_step_candidate|].
      intros c Hin. rewrite Hb1 in Hin. rewrite Hh1, channel_step_source. by apply Hacc.
    + by rewrite Hh1, channel_step_source.
  - symmetry in E. apply channel_flush_spec in E as (-> & Hk & Hcase & _ & _ & Hq1).
    2:{ intros c Hin. rewrite Hb2 in Hin. rewrite (Hacc c Hin). done. }
    assert (source_id (set_batch [] h2) = source_id h) as Hsid by (by rewrite <- Hs2).
    assert (Hsrc : sources (store w1) = sources (store w)).
    { destruct Hcase as [[-> _]|[-> _]]; [apply upsert_all_sources|done]. }
    intros Hrun. apply IH in Hrun as (? & ? & Hin & wr & Hsub & Hst & Hq).
    + rewrite <- Hh1 in *. simpl in Hin, Hsub, Hq.
      split; [congruence|]. split; [done|]. split; [set_solver|].
      destruct (decide (faults w = [])) as [Hf|Hf].
      * destruct (Hq1 Hf) as (Hf1 & _ & Hst1). destruct (Hq Hf1) as [Hf' Hwr].
        exists (channel_batch h2 ++ wr). split_and!.
        -- rewrite Hb2. set_solver.
        -- by rewrite upsert_all_app, Hst, Hst1.
        -- intros _. split; [done|]. by rewrite <- app_assoc, Hwr, Hb2, <- app_assoc.
      * destruct Hcase as [[Hst1 _]|[Hst1 _]].
        -- exists (channel_batch h2 ++ wr). split_and!; [|by rewrite upsert_all_app, Hst, Hst1|done].
           rewrite Hb2. set_solver.
        -- exists wr. split_and!; [set_solver|by rewrite Hst, Hst1|done].
    + split; [rewrite Hh1; by apply channel_step_candidate|]. simpl. set_solver.
    + by rewrite Hsid, Hsrc.
Qed.

End ChannelPass.

(** ** One callback of the second pass *)

Section ProgramSteps.

Import ProgramHandler.

Ltac program_cases e :=
  unfold program_state, admits;
  destruct e as [name attrs|content|name]; simpl;
  [ unfold startElement; repeat case_decide
  |
  | unfold endElement;
    repeat first [ rewrite !program_flush_fst | case_decide | case_bool_decide | case_match ] ];
  simplify_eq/=.

Lemma program_step_ids e h : channel_ids (program_state [e] h) = channel_ids h.
Proof. program_cases e; done. Qed.

Lemma program_step_count e h :
  program_count (program_state [e] h) = program_count h + Z.of_nat (length (admits h e)).
Proof. program_cases e; try done; simpl; lia. Qed.

Lemma program_step_skipped e h :
  skipped_programs (program_state [e] h) =
  skipped_programs h + (if rejected (channel_ids h) e then 1 else 0).
Proof.
  unfold rejected. program_cases e; try done;
    repeat case_bool_decide; simpl; try done; lia.
Qed.

Lemma from_feed_mono seen seen' ids p :
  seen ⊆ seen' → from_feed seen ids p → from_feed seen' ids p.
Proof. intros Hsub (attrs & Hin & ?). exists attrs. split; [by apply Hsub|done]. Qed.

Lemma program_step_candidate seen e h :
  programme_ok seen h → programme_ok (seen ++ [e]) (program_state [e] h).
Proof.
  unfold programme_ok. intros Hc.
  assert (Hm : in_programme h = true →
               from_feed (seen ++ [e]) (channel_ids h) (current_program h)).
  { intros Hin. eapply from_feed_mono; [|by apply Hc]. set_solver. }
  clear Hc. program_cases e; try done; intros; simplify_eq/=.
  all: try (destruct Hm as (a & Ha); [done|]; by exists a).
  all: try (exists attrs; split_and!; try done; set_solver).
  all: congruence.
Qed.

Lemma admits_ok seen e h p :
  programme_ok seen h → p ∈ admits h e → written_ok seen (channel_ids h) p.
Proof.
  unfold programme_ok, admits. destruct e as [| |name]; try set_solver.
  destruct (in_programme h); simpl; [|set_solver].
  case_bool_decide; simpl; [|set_solver].
  destruct (pr_title (current_program h)) eqn:Ht; simpl; [set_solver|].
  intros Hs ->%list_elem_of_singleton. split; [by apply Hs|]. by rewrite Ht.
Qed.

Lemma program_dispatch_world h w e h' w' :
  Sax.dispatch (h, w) e = (h', w') →
  (w' = w ∧ program_batch h' = program_batch h ++ admits h e) ∨
  (∃ h1, program_batch h1 = program_batch h ++ admits h e ∧ admits h e ≠ [] ∧
         (h', w') = _process_program_batch (h1, w)).
Proof.
  unfold admits. destruct e as [name attrs|content|name]; simpl.
  - intros [= <- <-]. left. unfold startElement.
    repeat case_decide; simpl; by rewrite app_nil_r.
  - intros [= <- <-]. left. simpl. by rewrite app_nil_r.
  - unfold endElement.
    destruct (in_programme h); simpl; [|intros [= <- <-]; left; by rewrite app_nil_r].
    case_decide; [subst; intros [= <- <-]; left; simpl; by rewrite app_nil_r|].
    case_decide; [subst; intros [= <- <-]; left; simpl; by rewrite app_nil_r|].
    case_decide; [subst; intros [= <- <-]; left; simpl; by rewrite app_nil_r|].
    case_decide; [|rewrite bool_decide_eq_false_2 by done; simpl;
                   intros [= <- <-]; left; by rewrite app_nil_r].
    rewrite bool_decide_eq_true_2 by done.
    destruct (Str.truthy _); simpl; [|intros [= <- <-]; left; simpl; by rewrite app_nil_r].
    case_match.
    + intros E. right. eexists. split_and!; [| |by rewrite E]; done.
    + intros [= <- <-]. by left.
Qed.

End ProgramSteps.

(** ** The second pass, callback after callback *)

Section ProgramPass.

Import ProgramHandler.

Lemma admitted_cons e evs h :
  admitted (e :: evs) h = admits h e ++ admitted evs (program_state [e] h).
Proof. done. Qed.

Lemma program_run_spec evs h w h' w' :
  Sax.run evs (h, w) = (h', w') →
  store_clock w' = store_clock w ∧
  (∀ p, p ∈ program_batch h' → p ∈ program_batch h ++ admitted evs h) ∧
  ∃ wr, (∀ p, p ∈ wr → p ∈ program_batch h ++ admitted evs h) ∧
        store w' = replace_all wr (store w) ∧
        (faults w = [] →
         faults w' = [] ∧ wr ++ program_batch h' = program_batch h ++ admitted evs h).
Proof.
  revert h w. induction evs as [|e evs IH]; intros h w.
  { intros [= <- <-]. split_and!; try done; [by rewrite app_nil_r|].
    exists []. simpl. rewrite app_nil_r. split_and!; try done. set_solver. }
  rewrite admitted_cons.
  change (Sax.run (e :: evs) (h, w)) with (Sax.run evs (Sax.dispatch (h, w) e)).
  destruct (Sax.dispatch (h, w) e) as [h1 w1] eqn:E.
  pose proof (program_dispatch_fst h w e) as Hh1. rewrite E in Hh1. simpl in Hh1.
  apply program_dispatch_world in E as [[-> Hb1]|(h2 & Hb2 & Hne & E)].
  - intros Hrun. apply IH in Hrun as (? & Hin & wr & Hsub & Hst & Hq).
    rewrite <- Hh1, Hb1, <- !app_assoc in *.
    split_and!; try done. by exists wr.
  - symmetry in E. apply program_flush_spec in E as (-> & Hk & Hcase & _ & _ & Hq1).
    intros Hrun. apply IH in Hrun as (? & Hin & wr & Hsub & Hst & Hq).
    rewrite <- Hh1 in *. simpl in Hin, Hsub, Hq.
    split; [congruence|]. split; [set_solver|].
    destruct (decide (faults w = [])) as [Hf|Hf].
    + destruct (Hq1 Hf) as (Hf1 & Hst1). destruct (Hq Hf1) as [Hf' Hwr].
      exists (program_batch h2 ++ wr). split_and!.
      * rewrite Hb2. set_solver.
      * by rewrite replace_all_app, Hst, Hst1.
      * intros _. split; [done|]. by rewrite <- app_assoc, Hwr, Hb2, <- app_assoc.
    + destruct Hcase as [[Hst1 _]|[Hst1 _]].
      * exists (program_batch h2 ++ wr).
        split_and!; [|by rewrite replace_all_app, Hst, Hst1|done].
        rewrite Hb2. set_solver.
      * exists wr. split_and!; [set_solver|by rewrite Hst, Hst1|done].
Qed.

Lemma program_state_ids evs h : channel_ids (program_state evs h) = channel_ids h.
Proof.
  revert h. induction evs as [|e evs IH]; intros h; [done|].
  by rewrite program_state_cons, IH, program_step_ids.
Qed.

Lemma admitted_ok evs seen h p :
  programme_ok seen h → p ∈ admitted evs h → written_ok (seen ++ evs) (channel_ids h) p.
Proof.
  revert seen h. induction evs as [|e evs IH]; intros seen h Hc; [set_solver|].
  rewrite admitted_cons. intros [Hin|Hin]%elem_of_app.
  - apply (admits_ok seen) in Hin as [Hf Ht]; [|done].
    split; [|done]. eapply from_feed_mono; [|done]. set_solver.
  - apply (IH (seen ++ [e])) in Hin; [|by apply program_step_candidate].
    by rewrite program_step_ids, <- app_assoc in Hin.
Qed.

Lemma program_state_skipped evs h :
  skipped_programs (program_state evs h) =
  skipped_programs h + Z.of_nat (length (filter (λ e, rejected (channel_ids h) e = true) evs)).
Proof.
  revert h. induction evs as [|e evs IH]; intros h; [simpl; unfold program_state; simpl; lia|].
  rewrite program_state_cons, IH, program_step_skipped, program_step_ids.
  destruct (rejected (channel_ids h) e) eqn:Hr.
  - rewrite filter_cons_True by done. simpl length. lia.
  - rewrite filter_cons_False by (by rewrite Hr). lia.
Qed.

Lemma program_state_count evs h :
  program_count (program_state evs h) = program_count h + Z.of_nat (length (admitted evs h)).
Proof.
  revert h. induction evs as [|e evs IH]; intros h; [simpl; unfold program_state; simpl; lia|].
  rewrite program_state_cons, IH, program_step_count, admitted_cons, length_app. lia.
Qed.

(** A row of [programs] after a batch was applied is an old row or a
    record of the batch whose channel exists. *)
Lemma replace_all_rows b t k row :
  programs (replace_all b t) !! k = Some row →
  programs t !! k = Some row ∨
  (row ∈ b ∧ k = pr_id row ∧ is_Some (channels t !! pr_channel_id row)).
Proof.
  revert t. induction b as [|p b IH]; intros t; [by left|]. simpl.
  intros [Hold|(Hin & -> & Hc)]%IH.
  - case_decide as Hd; [|by left]. simpl in Hold.
    destruct (decide (pr_id p = k)) as [<-|Hne].
    + rewrite lookup_insert_eq in Hold. simplify_eq. right. split_and!; [by left|done..].
    + rewrite lookup_insert_ne in Hold by done. by left.
  - right. split_and!; [by right|done|].
    case_decide; simpl in Hc; done.
Qed.

End ProgramPass.

(** ** A whole pass *)

Section Passes.

Lemma take_app_inv {A} (wr b acc : list A) :
  wr ++ b = acc → wr = take (length acc - length b) acc.
Proof.
  intros <-. rewrite length_app.
  replace (length wr + length b - length b)%nat with (length wr) by lia.
  by rewrite take_app_length.
Qed.

Lemma program_endDocument_spec h w h' w' :
  ProgramHandler.endDocument (h, w) = (h', w') →
  h' = ProgramHandler.set_batch [] h ∧ store_clock w' = store_clock w ∧
  (store w' = replace_all (ProgramHandler.program_batch h) (store w) ∨ store w' = store w) ∧
  (faults w = [] →
   faults w' = [] ∧ store w' = replace_all (ProgramHandler.program_batch h) (store w)).
Proof.
  unfold ProgramHandler.endDocument. simpl.
  destruct (ProgramHandler.program_batch h) as [|p b] eqn:Hb.
  { intros [= <- <-]. rewrite program_set_batch_nil by done. simpl. naive_solver. }
  rewrite <- Hb.
  destruct (ProgramHandler._process_program_batch (h, w)) as [h1 w1] eqn:E.
  apply program_flush_spec in E as (-> & Hk & Hcase & _ & _ & Hq).
  intros [= <- <-]. simpl. split_and!; try done; naive_solver.
Qed.

Lemma channel_endDocument_spec h w h' w' :
  (∀ c, c ∈ ChannelHandler.channel_batch h → is_Some (sources (store w) !! ch_source_id c)) →
  ChannelHandler.endDocument (h, w) = (h', w') →
  h' = ChannelHandler.set_batch [] h ∧ store_clock w' = store_clock w ∧
  (store w' = upsert_all (ChannelHandler.channel_batch h) (store w) ∨ store w' = store w) ∧
  (faults w = [] →
   faults w' = [] ∧ store w' = upsert_all (ChannelHandler.channel_batch h) (store w)).
Proof.
  intros Hsrc. unfold ChannelHandler.endDocument. simpl.
  destruct (ChannelHandler.channel_batch h) as [|p b] eqn:Hb.
  { intros [= <- <-]. rewrite channel_set_batch_nil by done. simpl. naive_solver. }
  rewrite <- Hb in *.
  destruct (ChannelHandler._process_channel_batch (h, w)) as [h1 w1] eqn:E.
  apply channel_flush_spec in E as (-> & Hk & Hcase & _ & _ & Hq); [|done].
  intros [= <- <-]. simpl. split_and!; try done; naive_solver.
Qed.

(** The second pass as a whole. *)
Lemma program_parse_spec f ids w o h' w' :
  Sax.parse f (ProgramHandler.init ids, w) = (o, (h', w')) →
  o = match Sax.final f with Sax.EndDocument => Done | Sax.SAXException => OtherError end ∧
  ProgramHandler.skipped_programs h' =
    Z.of_nat (length (filter (λ e, rejected ids e = true) (Sax.events f))) ∧
  ProgramHandler.program_count h' =
    Z.of_nat (length (admitted (Sax.events f) (ProgramHandler.init ids))) ∧
  store_clock w' = store_clock w ∧
  ∃ wr, (∀ p, p ∈ wr → p ∈ admitted (Sax.events f) (ProgramHandler.init ids)) ∧
        store w' = replace_all wr (store w) ∧
        (faults w = [] → faults w' = [] ∧ wr = written_programs f ids).
Proof.
  unfold Sax.parse, written_programs.
  destruct (Sax.run (Sax.events f) (ProgramHandler.init ids, w)) as [h1 w1] eqn:E.
  pose proof (program_run_fst (Sax.events f) (ProgramHandler.init ids) w) as Hh1.
  rewrite E in Hh1. simpl in Hh1.
  apply program_run_spec in E as (Hk & Hin & wr & Hsub & Hst & Hq). simpl in *.
  assert (Hsk := program_state_skipped (Sax.events f) (ProgramHandler.init ids)).
  assert (Hct := program_state_count (Sax.events f) (ProgramHandler.init ids)).
  simpl in Hsk, Hct. rewrite <- Hh1 in *.
  destruct (Sax.final f).
  - destruct (ProgramHandler.endDocument (h1, w1)) as [h2 w2] eqn:E2.
    apply program_endDocument_spec in E2 as (-> & Hk2 & Hcase & Hq2).
    intros [= <- <- <-]. simpl. split_and!; try done; try congruence.
    destruct (decide (faults w = [])) as [Hf|Hf].
    + destruct (Hq Hf) as [Hf1 Hwr]. destruct (Hq2 Hf1) as [Hf2 Hst2].
      exists (wr ++ ProgramHandler.program_batch h1).
      split_and!; [set_solver|by rewrite replace_all_app, Hst2, Hst|].
      intros _. by rewrite Hwr.
    + destruct Hcase as [Hst2|Hst2].
      * exists (wr ++ ProgramHandler.program_batch h1).
        split_and!; [set_solver|by rewrite replace_all_app, Hst2, Hst|done].
      * exists wr. split_and!; [done|congruence|done].
  - intros [= <- <- <-]. split_and!; try done.
    exists wr. split_and!; try done.
    intros Hf. destruct (Hq Hf) as [Hf1 Hwr]. split; [done|]. by apply take_app_inv.
Qed.

Lemma channel_state_source evs h :
  ChannelHandler.source_id (channel_state evs h) = ChannelHandler.source_id h.
Proof.
  revert h. induction evs as [|e evs IH]; intros h; [done|].
  by rewrite channel_state_cons, IH, channel_step_source.
Qed.

Lemma channel_state_count evs h :
  ChannelHandler.channel_count (channel_state evs h) =
  ChannelHandler.channel_count h + Z.of_nat (length (accepted evs h)).
Proof.
  revert h. induction evs as [|e evs IH]; intros h; [simpl; unfold channel_state; simpl; lia|].
  rewrite channel_state_cons, IH, channel_step_count, accepted_cons, length_app. lia.
Qed.

Lemma channel_state_ids evs h :
  ChannelHandler.channel_ids (channel_state evs h) =
  list_to_set (ch_id <$> accepted evs h) ∪ ChannelHandler.channel_ids h.
Proof.
  revert h. induction evs as [|e evs IH]; intros h.
  { unfold channel_state. simpl. set_solver. }
  rewrite channel_state_cons, IH, channel_step_ids, accepted_cons, fmap_app, list_to_set_app_L.
  set_solver.
Qed.

Lemma accepted_source evs h c :
  candidate_ok h → c ∈ accepted evs h →
  ch_source_id c = ChannelHandler.source_id h ∧ ch_id c ≠ "".
Proof.
  revert h. induction evs as [|e evs IH]; intros h Hc; [set_solver|].
  rewrite accepted_cons. intros [Hin|Hin]%elem_of_app.
  - by eapply accepts_source.
  - apply IH in Hin; [|by apply channel_step_candidate].
    by rewrite channel_step_source in Hin.
Qed.

(** The first pass as a whole. *)
Lemma channel_parse_spec f sid w o h' w' :
  is_Some (sources (store w) !! sid) →
  Sax.parse f (ChannelHandler.init sid, w) = (o, (h', w')) →
  o = match Sax.final f with Sax.EndDocument => Done | Sax.SAXException => OtherError end ∧
  ChannelHandler.channel_count h' =
    Z.of_nat (length (accepted (Sax.events f) (ChannelHandler.init sid))) ∧
  ChannelHandler.channel_ids h' =
    list_to_set (ch_id <$> accepted (Sax.events f) (ChannelHandler.init sid)) ∧
  store_clock w' = store_clock w ∧
  ∃ wr, (∀ c, c ∈ wr → c ∈ accepted (Sax.events f) (ChannelHandler.init sid)) ∧
        store w' = upsert_all wr (store w) ∧
        (faults w = [] → faults w' = [] ∧ wr = written_channels f sid).
Proof.
  intros Hsrc. unfold Sax.parse, written_channels.
  destruct (Sax.run (Sax.events f) (ChannelHandler.init sid, w)) as [h1 w1] eqn:E.
  pose proof (channel_run_fst (Sax.events f) (ChannelHandler.init sid) w) as Hh1.
  rewrite E in Hh1. simpl in Hh1.
  apply channel_run_spec in E as (Hk & Hok & Hin & wr & Hsub & Hst & Hq);
    [|apply batch_ok_init|done]. simpl in *.
  assert (Hct := channel_state_count (Sax.events f) (ChannelHandler.init sid)).
  assert (Hids := channel_state_ids (Sax.events f) (ChannelHandler.init sid)).
  simpl in Hct, Hids. rewrite <- Hh1 in *. rewrite (right_id_L ∅ (∪)) in Hids.
  destruct (Sax.final f).
  - destruct (ChannelHandler.endDocument (h1, w1)) as [h2 w2] eqn:E2.
    apply channel_endDocument_spec in E2 as (-> & Hk2 & Hcase & Hq2).
    2:{ intros c Hc%Hin. apply accepted_source in Hc as [Hc _]; [|done].
        simpl in Hc. by rewrite Hc, Hst, upsert_all_sources. }
    intros [= <- <- <-]. simpl. split_and!; try done; try congruence.
    destruct (decide (faults w = [])) as [Hf|Hf].
    + destruct (Hq Hf) as [Hf1 Hwr]. destruct (Hq2 Hf1) as [Hf2 Hst2].
      exists (wr ++ ChannelHandler.channel_batch h1).
      split_and!; [set_solver|by rewrite upsert_all_app, Hst2, Hst|].
      intros _. by rewrite Hwr.
    + destruct Hcase as [Hst2|Hst2].
      * exists (wr ++ ChannelHandler.channel_batch h1).
        split_and!; [set_solver|by rewrite upsert_all_app, Hst2, Hst|done].
      * exists wr. split_and!; [done|congruence|done].
  - intros [= <- <- <-]. split_and!; try done.
    exists wr. split_and!; try done.
    intros Hf. destruct (Hq Hf) as [Hf1 Hwr]. split; [done|]. by apply take_app_inv.
Qed.

End Passes.

(** ** The orchestrator *)

Section Orchestrator.

Import TwoPassEPGParser.

Lemma declared_ids_accepted f sid :
  declared_ids f sid = list_to_set (ch_id <$> accepted (Sax.events f) (ChannelHandler.init sid)).
Proof. unfold declared_ids. rewrite channel_state_ids. simpl. set_solver. Qed.

Lemma first_pass_spec fs p w ok p' w' :
  is_Some (sources (store w) !! source_id p) →
  _first_pass fs (p, w) = (ok, (p', w')) →
  let f := fs (file_path p) in
  file_path p' = file_path p ∧ source_id p' = source_id p ∧
  program_count p' = program_count p ∧ skipped_programs p' = skipped_programs p ∧
  ok = match Sax.final f with Sax.EndDocument => true | Sax.SAXException => false end ∧
  channel_count p' =
    match Sax.final f with
    | Sax.EndDocument => Z.of_nat (length (accepted (Sax.events f) (ChannelHandler.init (source_id p))))
    | Sax.SAXException => channel_count p
    end ∧
  channel_ids p' =
    match Sax.final f with
    | Sax.EndDocument => declared_ids f (source_id p)
    | Sax.SAXException => channel_ids p
    end ∧
  store_clock w' = store_clock w ∧
  ∃ wr, (∀ c, c ∈ wr → c ∈ accepted (Sax.events f) (ChannelHandler.init (source_id p))) ∧
        store w' = upsert_all wr (store w) ∧
        (faults w = [] → faults w' = [] ∧ wr = written_channels f (source_id p)).
Proof.
  intros Hsrc. unfold _first_pass.
  destruct (Sax.parse _ _) as [o [h1 w1]] eqn:E.
  apply channel_parse_spec in E as (-> & Hct & Hids & Hk & wr & Hsub & Hst & Hq); [|done].
  rewrite declared_ids_accepted.
  destruct (Sax.final (fs (file_path p))); intros [= <- <- <-]; simpl;
    (split_and!; try done; exists wr; split_and!; done).
Qed.

Lemma second_pass_spec fs p w ok p' w' :
  _second_pass fs (p, w) = (ok, (p', w')) →
  let f := fs (file_path p) in
  file_path p' = file_path p ∧ source_id p' = source_id p ∧
  channel_count p' = channel_count p ∧ channel_ids p' = channel_ids p ∧
  ok = match Sax.final f with Sax.EndDocument => true | Sax.SAXException => false end ∧
  program_count p' =
    match Sax.final f with
    | Sax.EndDocument =>
        Z.of_nat (length (admitted (Sax.events f) (ProgramHandler.init (channel_ids p))))
    | Sax.SAXException => program_count p
    end ∧
  skipped_programs p' =
    match Sax.final f with
    | Sax.EndDocument =>
        Z.of_nat (length (filter (λ e, rejected (channel_ids p) e = true) (Sax.events f)))
    | Sax.SAXException => skipped_programs p
    end ∧
  store_clock w' = store_clock w ∧
  ∃ wr, (∀ r, r ∈ wr → r ∈ admitted (Sax.events f) (ProgramHandler.init (channel_ids p))) ∧
        store w' = replace_all wr (store w) ∧
        (faults w = [] → faults w' = [] ∧ wr = written_programs f (channel_ids p)).
Proof.
  unfold _second_pass.
  destruct (Sax.parse _ _) as [o [h1 w1]] eqn:E.
  apply program_parse_spec in E as (-> & Hsk & Hct & Hk & wr & Hsub & Hst & Hq).
  destruct (Sax.final (fs (file_path p))); intros [= <- <- <-]; simpl;
    (split_and!; try done; exists wr; split_and!; done).
Qed.

Lemma update_statistics_spec now p w :
  let w' := update_statistics now (p, w) in
  let updated :=
    match sources (store w) !! source_id p with
    | Some r => <[source_id p := SourceRow (src_id r) (src_name r) (src_url r) (src_file_path r)
                                           (channel_count p) (program_count p) now]>
                  (sources (store w))
    | None => sources (store w)
    end in
  store_clock w' = store_clock w ∧
  channels (store w') = channels (store w) ∧ programs (store w') = programs (store w) ∧
  ((sources (store w') = updated ∧
    last (log w') = Some (UpdatedSourceStatistics (channel_count p) (program_count p))) ∨
   (sources (store w') = sources (store w) ∧ last (log w') = Some FailedSourceStatistics)) ∧
  (faults w = [] → faults w' = [] ∧ sources (store w') = updated).
Proof.
  unfold update_statistics.
  destruct (Sql.update_source _ _ _ _ _) as [o w1] eqn:E1.
  apply update_source_spec in E1 as (Ht & Hk & Hl & Hc & Hp & Hq & Hni & Hs).
  change (txn (Sql.begin w)) with (Some (store w)) in Ht.
  change (store (Sql.begin w)) with (store w) in *.
  change (faults (Sql.begin w)) with (faults w) in Hq.
  change (store_clock (Sql.begin w)) with (store_clock w) in Hk.
  assert (Hfail : ∀ w2, txn w2 = Some (store w) → store_clock w2 = store_clock w →
            let w3 := Sql.rollback (logger FailedSourceStatistics w2) in
            store w3 = store w ∧ last (log w3) = Some FailedSourceStatistics ∧
            store_clock w3 = store_clock w).
  { intros w2 Ht2 Hk2 w3.
    destruct (rollback_spec (logger FailedSourceStatistics w2) (store w))
      as (Hs3&Ht3&Hf3&Hk3&Hl3); [done|].
    subst w3. rewrite Hs3, Hk3, Hl3. simpl. by rewrite last_snoc. }
  destruct o; [|done|].
  - destruct (Sql.commit w1) as [o2 w2] eqn:E2.
    apply commit_spec in E2 as (Hs2 & Hk2 & Hl2 & Hq2 & Ht2).
    destruct o2.
    + simpl. rewrite last_snoc, Hs2. split_and!; try congruence; [by left|].
      intros Hf. destruct (Hq Hf) as [Hf1 _]. by destruct (Hq2 Hf1).
    + destruct (Hfail w2) as (Hs3 & Hl3 & Hk3); [congruence..|].
      rewrite Hs3. split_and!; try done; [by right|].
      intros Hf. destruct (Hq Hf) as [Hf1 _]. by destruct (Hq2 Hf1).
    + destruct (Hfail w2) as (Hs3 & Hl3 & Hk3); [congruence..|].
      rewrite Hs3. split_and!; try done; [by right|].
      intros Hf. destruct (Hq Hf) as [Hf1 _]. by destruct (Hq2 Hf1).
  - destruct (Hfail w1) as (Hs3 & Hl3 & Hk3); [congruence..|].
    rewrite Hs3. split_and!; try done; [by right|].
    intros Hf. by destruct (Hq Hf).
Qed.

(** What a parse does to the store. *)
Lemma parse_spec fs now path sid w :
  is_Some (sources (store w) !! sid) →
  let f := fs path in
  ∃ p' w',
    parse fs now (init path sid, w) = (true, (p', w')) ∧
    source_id p' = sid ∧
    channel_ids p' = first_pass_ids f sid ∧
    channel_count p' =
      match Sax.final f with
      | Sax.EndDocument => Z.of_nat (length (accepted (Sax.events f) (ChannelHandler.init sid)))
      | Sax.SAXException => 0
      end ∧
    program_count p' =
      match Sax.final f with
      | Sax.EndDocument =>
          Z.of_nat (length (admitted (Sax.events f) (ProgramHandler.init (first_pass_ids f sid))))
      | Sax.SAXException => 0
      end ∧
    skipped_programs p' =
      match Sax.final f with
      | Sax.EndDocument =>
          Z.of_nat (length (filter (λ e, rejected (first_pass_ids f sid) e = true) (Sax.events f)))
      | Sax.SAXException => 0
      end ∧
    store_clock w' = store_clock w ∧
    ∃ wc wp,
      (∀ c, c ∈ wc → c ∈ accepted (Sax.events f) (ChannelHandler.init sid)) ∧
      (∀ r, r ∈ wp → r ∈ admitted (Sax.events f) (ProgramHandler.init (first_pass_ids f sid))) ∧
      channels (store w') = channels (upsert_all wc (store w)) ∧
      programs (store w') = programs (replace_all wp (upsert_all wc (store w))) ∧
      (sources (store w') = sources (store w) ∨
       ∃ r, sources (store w) !! sid = Some r ∧
            sources (store w') =
            <[sid := SourceRow (src_id r) (src_name r) (src_url r) (src_file_path r)
                               (channel_count p') (program_count p') now]> (sources (store w))) ∧
      (faults w = [] →
       faults w' = [] ∧ wc = written_channels f sid ∧
       wp = written_programs f (first_pass_ids f sid) ∧
       ∃ r, sources (store w) !! sid = Some r ∧
            sources (store w') =
            <[sid := SourceRow (src_id r) (src_name r) (src_url r) (src_file_path r)
                               (channel_count p') (program_count p') now]> (sources (store w))).
Proof.
  intros [r Hr] f. unfold parse.
  destruct (_first_pass _ _) as [ok1 [p1 w1]] eqn:E1.
  apply first_pass_spec in E1
    as (Hpa1 & Hsi1 & Hpc1 & Hsk1 & _ & Hcc1 & Hid1 & Hk1 & wc & Hsub1 & Hst1 & Hq1);
    [|simpl; by rewrite Hr].
  simpl in Hpa1, Hsi1, Hpc1, Hsk1, Hcc1, Hid1, Hk1, Hsub1, Hst1, Hq1.
  destruct (_second_pass _ _) as [ok2 [p2 w2]] eqn:E2.
  apply second_pass_spec in E2
    as (Hpa2 & Hsi2 & Hcc2 & Hid2 & _ & Hpc2 & Hsk2 & Hk2 & wp & Hsub2 & Hst2 & Hq2).
  simpl in Hpa2, Hsi2, Hcc2, Hid2, Hpc2, Hsk2, Hk2, Hsub2, Hst2, Hq2.
  rewrite Hpa1 in *. fold f in Hcc1, Hid1, Hsub1, Hq1, Hpc2, Hsk2, Hsub2, Hq2.
  assert (Hids : channel_ids p1 = first_pass_ids f sid).
  { unfold first_pass_ids. rewrite Hid1. by destruct (Sax.final f). }
  rewrite Hids in *.
  destruct (update_statistics_spec now p2 w2) as (Hk3 & Hc3 & Hp3 & Hcase & Hq3).
  set (w3 := update_statistics now (p2, w2)) in *.
  assert (Hsrc2 : sources (store w2) = sources (store w)).
  { by rewrite Hst2, replace_all_sources, Hst1, upsert_all_sources. }
  assert (Hrow : sources (store w2) !! source_id p2 = Some r).
  { by rewrite Hsrc2, Hsi2, Hsi1. }
  rewrite Hrow, Hsrc2, Hsi2, Hsi1 in *.
  eexists p2, _. split; [done|].
  assert (Hfin : ∀ (z : Z) (w4 : world),
            store (if (0 <? z)%Z then logger (SkippedWarning z) w4 else w4) = store w4 ∧
            faults (if (0 <? z)%Z then logger (SkippedWarning z) w4 else w4) = faults w4 ∧
            store_clock (if (0 <? z)%Z then logger (SkippedWarning z) w4 else w4)
            = store_clock w4).
  { intros z w4. by destruct (0 <? z)%Z. }
  destruct (Hfin (skipped_programs p2)
              (logger (CompletedParsing (channel_count p2) (program_count p2)) w3))
    as (-> & -> & ->). simpl.
  split_and!; try congruence.
  { rewrite Hpc2, Hpc1. by destruct (Sax.final f). }
  { rewrite Hsk2, Hsk1. by destruct (Sax.final f). }
  exists wc, wp. split_and!; try done.
  - by rewrite Hc3, Hst2, replace_all_channels, Hst1.
  - by rewrite Hp3, Hst2, Hst1.
  - destruct Hcase as [[-> _]|[-> _]]; [right; by exists r|by left].
  - intros Hf. destruct (Hq1 Hf) as [Hf1 ->]. destruct (Hq2 Hf1) as [Hf2 ->].
    destruct (Hq3 Hf2) as [Hf3 ->]. split_and!; try done. by exists r.
Qed.

End Orchestrator.

(** ** Deleting a source *)

Section Lifecycle.

Implicit Types (t : tables).

Lemma delete_source_sources sid t :
  sources (Sql.delete_source sid t) = delete sid (sources t).
Proof.
  unfold Sql.delete_source. destruct (sources t !! sid) eqn:Hs; [done|].
  by rewrite delete_id.
Qed.

Lemma delete_source_channels sid t :
  fk_ok t →
  channels (Sql.delete_source sid t) = filter (λ kv, ch_source_id kv.2 ≠ sid) (channels t).
Proof.
  intros [Hfk _]. unfold Sql.delete_source. destruct (sources t !! sid) eqn:Hs; [done|].
  rewrite map_filter_id; [done|]. intros k c Hc. simpl. intros Heq.
  apply Hfk in Hc as [r Hr]. congruence.
Qed.

Lemma channels_of_lookup sid t k c :
  channels_of sid t !! k = Some c ↔ channels t !! k = Some c ∧ ch_source_id c = sid.
Proof. unfold channels_of. by rewrite map_lookup_filter_Some. Qed.

Lemma channels_of_none sid t k :
  channels_of sid t !! k = None ↔
  ∀ c, channels t !! k = Some c → ch_source_id c ≠ sid.
Proof.
  unfold channels_of. rewrite map_lookup_filter_None. simpl.
  destruct (channels t !! k); naive_solver.
Qed.

Lemma delete_source_programs sid t :
  fk_ok t →
  programs (Sql.delete_source sid t) =
  filter (λ kv, channels_of sid t !! pr_channel_id kv.2 = None) (programs t).
Proof.
  intros [Hfk _]. unfold Sql.delete_source. destruct (sources t !! sid) eqn:Hs; [done|].
  rewrite map_filter_id; [done|]. intros k p Hp. simpl.
  apply channels_of_none. intros c Hc Heq. apply Hfk in Hc as [r Hr]. congruence.
Qed.

Lemma delete_source_fk sid t : fk_ok t → fk_ok (Sql.delete_source sid t).
Proof.
  intros Hfk. pose proof Hfk as [Hc Hp]. split.
  - intros k c. rewrite delete_source_channels, delete_source_sources by done.
    intros [Hk Hne]%map_lookup_filter_Some. simpl in Hne.
    rewrite lookup_delete_ne by done. by eapply Hc.
  - intros k p. rewrite delete_source_programs, delete_source_channels by done.
    intros [Hk Hno]%map_lookup_filter_Some. simpl in Hno.
    destruct (Hp k p Hk) as [c Hch]. exists c.
    apply map_lookup_filter_Some. split; [done|]. simpl.
    by eapply channels_of_none.
Qed.

Lemma delete_source_channels_of sid t :
  fk_ok t → channels_of sid (Sql.delete_source sid t) = ∅.
Proof.
  intros Hfk. apply map_empty. intros k. apply channels_of_none.
  intros c. rewrite delete_source_channels by done.
  by intros [_ ?]%map_lookup_filter_Some.
Qed.

Lemma programs_of_empty sid t : channels_of sid t = ∅ → programs_of sid t = ∅.
Proof.
  intros He. apply map_empty. intros k. unfold programs_of.
  apply map_lookup_filter_None. right. intros p _. simpl. rewrite He, lookup_empty.
  by intros [? ?].
Qed.

(** Writing channels of an existing source and programmes of existing
    channels keeps the references whole. *)
Lemma upsert_all_fk b t :
  (∀ c, c ∈ b → is_Some (sources t !! ch_source_id c)) → fk_ok t → fk_ok (upsert_all b t).
Proof.
  revert t. induction b as [|c b IH]; intros t Hsrc Hfk; [done|]. simpl.
  apply IH; [intros c' Hc'; simpl; apply Hsrc; by right|].
  destruct Hfk as [Hc Hp]. split; simpl.
  - intros k c'. destruct (decide (ch_id c = k)) as [<-|Hne].
    + rewrite lookup_insert_eq. intros [= <-]. apply Hsrc. by left.
    + rewrite lookup_insert_ne by done. apply Hc.
  - intros k p Hk. apply lookup_insert_is_Some'. right. by eapply Hp.
Qed.

Lemma replace_all_fk b t : fk_ok t → fk_ok (replace_all b t).
Proof.
  revert t. induction b as [|p b IH]; intros t Hfk; [done|]. simpl.
  apply IH. case_decide as Hd; [|done].
  destruct Hfk as [Hc Hp]. split; simpl; [done|].
  intros k p'. destruct (decide (pr_id p = k)) as [<-|Hne].
  - rewrite lookup_insert_eq. by intros [= <-].
  - rewrite lookup_insert_ne by done. apply Hp.
Qed.

End Lifecycle.

(** ** Lookups after a batch *)

Section Lookups.

Implicit Types (t : tables).

Lemma upsert_all_lookup b t k c :
  channels (upsert_all b t) !! k = Some c →
  channels t !! k = Some c ∨ (c ∈ b ∧ ch_id c = k).
Proof.
  revert t. induction b as [|c' b IH]; intros t; [by left|]. simpl.
  intros [Hold|[Hin <-]]%IH; [|right; split; [by right|done]].
  simpl in Hold. destruct (decide (ch_id c' = k)) as [<-|Hne].
  - rewrite lookup_insert_eq in Hold. simplify_eq. right. split; [by left|done].
  - rewrite lookup_insert_ne in Hold by done. by left.
Qed.

Lemma upsert_all_lookup_notin b t k :
  (∀ c, c ∈ b → ch_id c ≠ k) → channels (upsert_all b t) !! k = channels t !! k.
Proof.
  revert t. induction b as [|c' b IH]; intros t Hno; [done|]. simpl.
  rewrite IH by (intros c Hc; apply Hno; by right). simpl.
  rewrite lookup_insert_ne; [done|]. apply Hno. by left.
Qed.


(** The last record of a batch with a given id is the row afterwards. *)
Lemma upsert_all_last b1 c b2 t :
  (∀ c', c' ∈ b2 → ch_id c' ≠ ch_id c) →
  channels (upsert_all (b1 ++ c :: b2) t) !! ch_id c = Some c.
Proof.
  intros Hno. rewrite upsert_all_app. simpl.
  rewrite upsert_all_lookup_notin by done. simpl. apply lookup_insert_eq.
Qed.


Lemma replace_all_agree b t t' k :
  channels t = channels t' →
  (programs t !! k = programs t' !! k ∨
   ∃ p, p ∈ b ∧ pr_id p = k ∧ is_Some (channels t !! pr_channel_id p)) →
  programs (replace_all b t) !! k = programs (replace_all b t') !! k.
Proof.
  revert t t'. induction b as [|p b IH]; intros t t' Hch Hk.
  { destruct Hk as [?|(p & Hp & _)]; [done|]. by apply elem_of_nil in Hp. }
  simpl. rewrite <- Hch.
  case_decide as Hd.
  - apply IH; [done|]. simpl.
    destruct (decide (pr_id p = k)) as [<-|Hne]; [left; by rewrite !lookup_insert_eq|].
    rewrite !lookup_insert_ne by done.
    destruct Hk as [?|(p' & [->|Hp']%elem_of_cons & Hid & Hc)]; [by left|done|].
    right. by exists p'.
  - apply IH; [done|].
    destruct Hk as [?|(p' & [->|Hp']%elem_of_cons & Hid & Hc)]; [by left|done|].
    right. by exists p'.
Qed.


Lemma written_programs_admitted f ids p :
  p ∈ written_programs f ids → p ∈ admitted (Sax.events f) (ProgramHandler.init ids).
Proof.
  unfold written_programs. destruct (Sax.final f); [done|].
  intros Hin. by eapply subseteq_take.
Qed.

End Lookups.

(** ** A source from start to end *)

Section ProcessSource.

Variable md5_hexdigest : string → string.
Variable download_file : string → option string.
Variable fs : string → Sax.feed.

Lemma process_source_spec url now w :
  let sid := md5_hexdigest url in
  process_source md5_hexdigest download_file fs url now w =
  match local_path download_file url with
  | None =>
      (false, World (Sql.delete_source sid (store w)) (txn w) (faults w) (store_clock w)
                    (log w ++ [DeletedExisting]))
  | Some path =>
      parse_epg_file fs now path sid
        (World (prepared sid url (store_clock w) (store w)) (txn w) (faults w) (store_clock w)
               (log w ++ [DeletedExisting]))
  end.
Proof.
  intros sid. unfold process_source, local_path. fold sid.
  destruct (if String.prefix "http" url then download_file url else Some url) as [path|];
    [|done].
  unfold Sql.insert_source. simpl.
  rewrite delete_source_sources, lookup_delete_eq.
  unfold prepared. by rewrite delete_source_sources.
Qed.

Lemma fk_ok_ext t t' :
  (∀ k, is_Some (sources t !! k) → is_Some (sources t' !! k)) →
  channels t' = channels t → programs t' = programs t → fk_ok t → fk_ok t'.
Proof.
  intros Hs Hc Hp [Hfc Hfp]. split.
  - intros k c. rewrite Hc. intros Hk. eapply Hs, Hfc, Hk.
  - intros k p. rewrite Hc, Hp. apply Hfp.
Qed.

Lemma prepared_fk sid url clock t : fk_ok t → fk_ok (prepared sid url clock t).
Proof.
  intros Hfk%(delete_source_fk sid). eapply fk_ok_ext; [| | |exact Hfk]; try done.
  intros k Hk. simpl. apply lookup_insert_is_Some'. by right.
Qed.

Lemma prepared_source sid url clock t : is_Some (sources (prepared sid url clock t) !! sid).
Proof. simpl. rewrite lookup_insert_eq. by eexists. Qed.

(** A parse keeps the references whole, whatever the store raises. *)
Lemma parse_epg_file_fk now path sid w :
  fk_ok (store w) → is_Some (sources (store w) !! sid) →
  fk_ok (store (parse_epg_file fs now path sid w).2).
Proof.
  intros Hfk Hsrc. unfold parse_epg_file.
  destruct (parse_spec fs now path sid w Hsrc)
    as (p' & w' & -> & _ & _ & _ & _ & _ & _ & wc & wp & Hwc & _ & Hc & Hp & Hs & _).
  simpl. eapply (fk_ok_ext (replace_all wp (upsert_all wc (store w)))); try done.
  - intros k. rewrite replace_all_sources, upsert_all_sources.
    destruct Hs as [->|(r & Hr & ->)]; [done|].
    intros Hk. apply lookup_insert_is_Some'. by right.
  - by rewrite replace_all_channels.
  - apply replace_all_fk, upsert_all_fk; [|done].
    intros c Hin%Hwc. apply accepted_source in Hin as [-> _]; done.
Qed.



End ProcessSource.

(** ** Rows and counts *)

Section Counting.

Import ChannelHandler.

Lemma channels_of_put_size sid c t :
  (size (channels_of sid (put_channel c t)) ≤ S (size (channels_of sid t)))%nat.
Proof.
  unfold channels_of, put_channel. simpl. rewrite map_filter_insert. case_decide.
  - rewrite map_size_insert. destruct (_ !! _); simpl; lia.
  - rewrite map_filter_delete.
    etrans; [apply map_subseteq_size, delete_subseteq|lia].
Qed.

Lemma channels_of_upsert_size sid b t :
  (size (channels_of sid (upsert_all b t)) ≤ size (channels_of sid t) + length b)%nat.
Proof.
  revert t. induction b as [|c b IH]; intros t; simpl; [lia|].
  etrans; [apply IH|]. pose proof (channels_of_put_size sid c t). lia.
Qed.

(** The rows of a source, the records waiting in the batch and the
    records lost with failed batches never outnumber the records accepted;
    a batch that failed lost at least one. *)
Lemma channel_run_loss sid evs h w h' w' :
  batch_ok h → is_Some (sources (store w) !! source_id h) →
  Sax.run evs (h, w) = (h', w') →
  ∃ lost : nat,
    (size (channels_of sid (store w')) + length (channel_batch h') + lost ≤
     size (channels_of sid (store w)) + length (channel_batch h) + length (accepted evs h))%nat ∧
    (ErrorChannelBatch ∈ log w' → ErrorChannelBatch ∈ log w ∨ (0 < lost)%nat).
Proof.
  revert h w. induction evs as [|e evs IH]; intros h w [Hc Hb] Hs.
  { intros [= <- <-]. exists 0%nat. simpl. split; [lia|by left]. }
  rewrite accepted_cons.
  change (Sax.run (e :: evs) (h, w)) with (Sax.run evs (Sax.dispatch (h, w) e)).
  destruct (Sax.dispatch (h, w) e) as [h1 w1] eqn:E.
  pose proof (channel_dispatch_fst h w e) as Hh1. rewrite E in Hh1. simpl in Hh1.
  assert (Hacc : ∀ c, c ∈ channel_batch h ++ accepts h e → ch_source_id c = source_id h).
  { intros c [?|Hin]%elem_of_app; [by apply Hb|]. by eapply accepts_source. }
  apply channel_dispatch_world in E as [[-> Hb1]|(h2 & Hb2 & Hne & Hs2 & _ & E)].
  - intros Hrun. apply IH in Hrun as (lost & Hle & Hlog).
    + exists lost. rewrite <- Hh1, Hb1, !length_app in *. split; [lia|done].
    + split; [subst; by apply channel_step_candidate|].
      intros c Hin. rewrite Hb1 in Hin. rewrite Hh1, channel_step_source. by apply Hacc.
    + by rewrite Hh1, channel_step_source.
  - symmetry in E. apply channel_flush_spec in E as (-> & Hk & Hcase & _ & _ & _).
    2:{ intros c Hin. rewrite Hb2 in Hin. rewrite (Hacc c Hin). done. }
    assert (source_id (set_batch [] h2) = source_id h) as Hsid by (by rewrite <- Hs2).
    assert (Hsrc : sources (store w1) = sources (store w)).
    { destruct Hcase as [[-> _]|[-> _]]; [apply upsert_all_sources|done]. }
    assert (Hlen : (0 < length (channel_batch h2))%nat).
    { rewrite Hb2, length_app. destruct (accepts h e); [done|simpl; lia]. }
    intros Hrun. apply IH in Hrun as (lost & Hle & Hlog).
    + rewrite <- Hh1 in *. simpl in Hle.
      pose proof (channels_of_upsert_size sid (channel_batch h2) (store w)) as Hup.
      rewrite Hb2, !length_app in *.
      destruct Hcase as [[Hst1 Hl1]|[Hst1 Hl1]]; rewrite Hst1, Hl1 in *.
      * exists lost. split; [lia|done].
      * exists (length (channel_batch h) + length (accepts h e) + lost)%nat.
        split; [lia|]. intros _. right. lia.
    + split; [rewrite Hh1; by apply channel_step_candidate|]. simpl. set_solver.
    + by rewrite Hsid, Hsrc.
Qed.

(** The first pass on a document that ends well, from a store without a
    channel of the source: the channels of the source afterwards are at
    most as many as the channel count, and fewer when a batch failed. *)
Lemma channel_pass_loss f sid w :
  Sax.final f = Sax.EndDocument →
  is_Some (sources (store w) !! sid) →
  channels_of sid (store w) = ∅ →
  let r := Sax.parse f (init sid, w) in
  (Z.of_nat (size (channels_of sid (store r.2.2))) ≤ channel_count r.2.1)%Z ∧
  (ErrorChannelBatch ∈ log r.2.2 → ErrorChannelBatch ∉ log w →
   (Z.of_nat (size (channels_of sid (store r.2.2))) < channel_count r.2.1)%Z).
Proof.
  intros Hfin Hsrc Hzero r. subst r. unfold Sax.parse. rewrite Hfin.
  destruct (Sax.run (Sax.events f) (init sid, w)) as [h1 w1] eqn:E.
  pose proof (channel_run_fst (Sax.events f) (init sid) w) as Hh1.
  rewrite E in Hh1. simpl in Hh1.
  pose proof E as E'.
  apply (channel_run_loss sid) in E as (lost & Hle & Hlog); [|apply batch_ok_init|done].
  apply channel_run_spec in E' as (_ & Hok & Hin & wr & _ & Hst & _);
    [|apply batch_ok_init|done].
  assert (Hct := channel_state_count (Sax.events f) (init sid)).
  rewrite <- Hh1 in Hct. simpl in Hct, Hle, Hin.
  rewrite Hzero, map_size_empty in Hle.
  simpl. unfold endDocument. simpl.
  destruct (channel_batch h1) as [|c0 b0] eqn:Hb.
  { simpl in *. split; [lia|]. intros Herr Hno.
    apply elem_of_app in Herr as [Herr|Herr]; [|by apply list_elem_of_singleton in Herr].
    destruct (Hlog Herr) as [?|?]; [done|lia]. }
  rewrite <- Hb in *.
  destruct (_process_channel_batch (h1, w1)) as [h2 w2] eqn:E2.
  apply channel_flush_spec in E2 as (-> & _ & Hcase & _ & _ & _).
  2:{ intros c Hc%Hin. apply accepted_source in Hc as [Hc _]; [|apply batch_ok_init].
      simpl in Hc. by rewrite Hc, Hst, upsert_all_sources. }
  simpl.
  pose proof (channels_of_upsert_size sid (channel_batch h1) (store w1)) as Hup.
  assert (Hlen : (0 < length (channel_batch h1))%nat) by (rewrite Hb; simpl; lia).
  destruct Hcase as [[Hst2 Hl2]|[Hst2 Hl2]]; rewrite Hst2.
  - split; [lia|]. intros Herr Hno.
    apply elem_of_app in Herr as [Herr|Herr]; [|by apply list_elem_of_singleton in Herr].
    rewrite Hl2 in Herr. destruct (Hlog Herr) as [?|?]; [done|lia].
  - split; lia.
Qed.

End Counting.

(** ** The claims *)

Section Claims.

(** C1, as the code has it. [parse] never looks at what the passes return:
    it reports success for every feed. On a document cut short, the first
    pass logs its error, the second pass runs all the same, the statistics
    are written and the source counts as processed. *)
Theorem stream_failure_reported_as_success :
  (∀ fs now s, (TwoPassEPGParser.parse fs now s).1 = true) ∧
  let r := process_source Samples.same Samples.fetched (Samples.only Samples.truncated)
                          "guide.xml" "2024-01-02T00:00:00" Samples.empty_world in
  r.1 = true ∧
  log r.2 = [DeletedExisting; StartingFirstPass; ErrorFirstPass; StartingSecondPass;
             ErrorSecondPass; UpdatedSourceStatistics 0 0; CompletedParsing 0 0].
Proof.
  split.
  - intros fs now [p w]. unfold TwoPassEPGParser.parse.
    destruct (TwoPassEPGParser._first_pass _ _) as [? [? ?]].
    by destruct (TwoPassEPGParser._second_pass _ _) as [? [? ?]].
  - vm_compute. done.
Qed.

Lemma replace_all_keeps b t k :
  is_Some (programs t !! k) → is_Some (programs (replace_all b t) !! k).
Proof.
  revert t. induction b as [|p b IH]; intros t Hk; [done|]. simpl.
  apply IH. case_decide; [|done]. simpl. apply lookup_insert_is_Some'. by right.
Qed.

Lemma replace_all_lookup_cases b t k :
  programs (replace_all b t) !! k = programs t !! k ∨
  ∃ p, p ∈ b ∧ programs (replace_all b t) !! k = Some p ∧ pr_id p = k.
Proof.
  destruct (programs (replace_all b t) !! k) as [row|] eqn:Hk.
  - apply replace_all_rows in Hk as [Hold|(Hin & -> & _)]; [by left|].
    right. by exists row.
  - left. symmetry.
    destruct (programs t !! k) as [x|] eqn:Hx; [|done]. exfalso.
    destruct (replace_all_keeps b t k) as [y Hy]; [by rewrite Hx|]. congruence.
Qed.

(** What the second pass leaves in [programs], row by row: the row that
    was there, or a record that comes from a programme element of the feed
    with a channel of the set and a title. *)
Lemma program_pass_rows ids f w k :
  let r := Sax.parse f (ProgramHandler.init ids, w) in
  programs (store r.2.2) !! k = programs (store w) !! k ∨
  ∃ row, programs (store r.2.2) !! k = Some row ∧ pr_id row = k ∧
         written_ok (Sax.events f) ids row.
Proof.
  intros r. subst r.
  destruct (Sax.parse f (ProgramHandler.init ids, w)) as [o [h' w']] eqn:E.
  apply program_parse_spec in E as (_ & _ & _ & _ & wr & Hsub & Hst & _). simpl.
  rewrite Hst.
  destruct (replace_all_lookup_cases wr (store w) k) as [?|(p & Hin & Hk & Hid)]; [by left|].
  right. exists p. split_and!; try done.
  apply Hsub in Hin. by apply (admitted_ok _ []) in Hin.
Qed.

(** C2. In the second pass the skipped counter ends at the number of
    programme elements whose channel is not in the channel-id set, and no
    such element leaves a row: a row of [programs] after the pass is the
    row that was there before, or has its channel in the set. *)
Theorem unknown_channel_skipped_and_never_persisted ids f w :
  let r := Sax.parse f (ProgramHandler.init ids, w) in
  ProgramHandler.skipped_programs r.2.1 =
    Z.of_nat (length (filter (λ e, rejected ids e = true) (Sax.events f))) ∧
  ∀ k, programs (store r.2.2) !! k = programs (store w) !! k ∨
       ∃ row, programs (store r.2.2) !! k = Some row ∧ pr_channel_id row ∈ ids.
Proof.
  intros r. split.
  - subst r. destruct (Sax.parse f (ProgramHandler.init ids, w)) as [o [h' w']] eqn:E.
    by apply program_parse_spec in E as (_ & ? & _).
  - intros k. destruct (program_pass_rows ids f w k) as [?|(row & Hk & _ & Hok)]; [by left|].
    right. exists row. split; [done|].
    destruct Hok as [(attrs & _ & Hin & -> & _) _]. done.
Qed.

Lemma program_state_app l1 l2 h :
  program_state (l1 ++ l2) h = program_state l2 (program_state l1 h).
Proof.
  revert h. induction l1 as [|e l1 IH]; intros h; [done|].
  rewrite <- app_comm_cons, program_state_cons, IH. by rewrite (program_state_cons e l1).
Qed.

Lemma admitted_app l1 l2 h :
  admitted (l1 ++ l2) h = admitted l1 h ++ admitted l2 (program_state l1 h).
Proof.
  revert h. induction l1 as [|e l1 IH]; intros h; [done|].
  rewrite <- app_comm_cons, !admitted_cons, IH, <- app_assoc.
  by rewrite (program_state_cons e l1).
Qed.

(** Inside an open programme element, a callback that neither opens nor
    closes a programme element leaves the element open and its key and
    channel as they are, and gives no record. *)
Lemma program_inner_step e h :
  opens "programme" e = false → closes "programme" e = false →
  ProgramHandler.in_programme h = true →
  ProgramHandler.in_programme (program_state [e] h) = true ∧
  pr_id (ProgramHandler.current_program (program_state [e] h)) =
    pr_id (ProgramHandler.current_program h) ∧
  pr_channel_id (ProgramHandler.current_program (program_state [e] h)) =
    pr_channel_id (ProgramHandler.current_program h) ∧
  admits h e = [].
Proof.
  intros Ho Hc Hin. unfold program_state, Sax.run.
  destruct e as [n attrs|content|n]; simpl in *.
  - apply bool_decide_eq_false in Ho. unfold ProgramHandler.startElement.
    by rewrite decide_False.
  - done.
  - apply bool_decide_eq_false in Hc. rewrite Hin.
    rewrite (bool_decide_eq_false_2 _ Hc), andb_false_r.
    repeat case_decide; simpl; done.
Qed.

Lemma program_inner_run body h :
  (∀ e, e ∈ body → opens "programme" e = false ∧ closes "programme" e = false) →
  ProgramHandler.in_programme h = true →
  ProgramHandler.in_programme (program_state body h) = true ∧
  pr_id (ProgramHandler.current_program (program_state body h)) =
    pr_id (ProgramHandler.current_program h) ∧
  pr_channel_id (ProgramHandler.current_program (program_state body h)) =
    pr_channel_id (ProgramHandler.current_program h) ∧
  admitted body h = [].
Proof.
  revert h. induction body as [|e body IH]; intros h Hb Hin; [done|].
  destruct (Hb e) as [Ho Hc]; [by left|].
  destruct (program_inner_step e h Ho Hc Hin) as (Hin1 & Hid1 & Hch1 & Hno).
  destruct (IH (program_state [e] h)) as (Hin2 & Hid2 & Hch2 & Hno2);
    [intros e' He'; apply Hb; by right|done|].
  rewrite program_state_cons, admitted_cons, Hno, Hno2.
  split_and!; [done|congruence|congruence|done].
Qed.

(** A record of the batch whose channel is in the store has a row under
    its key once the batch is applied. *)
Lemma replace_all_lookup_in b t p :
  p ∈ b → is_Some (channels t !! pr_channel_id p) →
  ∃ row, programs (replace_all b t) !! pr_id p = Some row ∧ row ∈ b ∧ pr_id row = pr_id p.
Proof.
  revert t. induction b as [|q b IH]; intros t Hin Hch; [by apply elem_of_nil in Hin|].
  simpl. apply elem_of_cons in Hin as [->|Hb].
  - rewrite decide_True by done.
    destruct (replace_all_lookup_cases b (put_program q t) (pr_id q))
      as [Heq|(row & Hrow & Hk & Hid)].
    + exists q. rewrite Heq. simpl. rewrite lookup_insert_eq. split_and!; [done|by left|done].
    + exists row. split_and!; [done|by right|done].
  - destruct (IH (if decide (is_Some (channels t !! pr_channel_id q))
                  then put_program q t else t) Hb) as (row & Hk & Hrow & Hid).
    + by case_decide.
    + exists row. split_and!; [done|by right|done].
Qed.

(** Applying a batch a second time changes no programme row. *)
Lemma replace_all_twice b t :
  programs (replace_all b (replace_all b t)) = programs (replace_all b t).
Proof.
  apply map_eq. intros k.
  rewrite (replace_all_agree b (replace_all b t) t k).
  - done.
  - apply replace_all_channels.
  - destruct (programs (replace_all b t) !! k) as [row|] eqn:Hk.
    + apply replace_all_rows in Hk as Hcase. destruct Hcase as [Hold|(Hin & -> & Hc)].
      * left. by rewrite Hold.
      * right. exists row. split_and!; [done..|]. by rewrite replace_all_channels.
    + left. destruct (replace_all_lookup_cases b t k) as [Heq|(p & _ & Hp & _)];
        [by rewrite <- Heq, Hk|congruence].
Qed.

(** C3. The key of a programme is made at its start tag from the channel,
    start and stop attributes as they stand in the feed, joined by
    underscores, whatever the handler has seen before. A row the second
    pass writes is under such a key, of a programme element of the feed
    whose channel is in the set. On a store that raises nothing, every
    programme element that is accepted (channel in the set and in the
    store, title not empty at its close) has a row under the key made of
    its three attributes when the document has ended; and a second pass
    over the same feed leaves every row as the first left it. The key
    column is TEXT and holds the key as built. *)
Theorem program_key_is_raw_concatenation :
  (∀ (h : ProgramHandler.t) attrs,
     Sax.get attrs "channel" ∈ ProgramHandler.channel_ids h →
     let h' := ProgramHandler.startElement "programme" attrs h in
     ProgramHandler.in_programme h' = true ∧
     pr_channel_id (ProgramHandler.current_program h') = Sax.get attrs "channel" ∧
     pr_id (ProgramHandler.current_program h') =
       (Sax.get attrs "channel" ++ "_" ++ Sax.get attrs "start" ++ "_" ++
        Sax.get attrs "stop")%string) ∧
  (∀ ids f w k,
     let r := Sax.parse f (ProgramHandler.init ids, w) in
     programs (store r.2.2) !! k = programs (store w) !! k ∨
     ∃ row attrs,
       programs (store r.2.2) !! k = Some row ∧
       Sax.StartElement "programme" attrs ∈ Sax.events f ∧
       Sax.get attrs "channel" ∈ ids ∧
       pr_channel_id row = Sax.get attrs "channel" ∧
       pr_id row = k ∧
       k = (Sax.get attrs "channel" ++ "_" ++ Sax.get attrs "start" ++ "_" ++
            Sax.get attrs "stop")%string) ∧
  (∀ ids pre attrs body post w,
     let f := Sax.Feed (pre ++ Sax.StartElement "programme" attrs :: body ++
                        Sax.EndElement "programme" :: post) Sax.EndDocument in
     let key := (Sax.get attrs "channel" ++ "_" ++ Sax.get attrs "start" ++ "_" ++
                 Sax.get attrs "stop")%string in
     faults w = [] →
     Sax.get attrs "channel" ∈ ids →
     is_Some (channels (store w) !! Sax.get attrs "channel") →
     (∀ e, e ∈ body → opens "programme" e = false ∧ closes "programme" e = false) →
     pr_title (ProgramHandler.current_program
                 (Sax.run (pre ++ Sax.StartElement "programme" attrs :: body)
                          (ProgramHandler.init ids, w)).1) ≠ "" →
     ∃ row, programs (store (Sax.parse f (ProgramHandler.init ids, w)).2.2) !! key = Some row ∧
            pr_id row = key ∧ pr_title row ≠ "") ∧
  (∀ ids f w,
     faults w = [] → Sax.final f = Sax.EndDocument →
     let w1 := (Sax.parse f (ProgramHandler.init ids, w)).2.2 in
     programs (store (Sax.parse f (ProgramHandler.init ids, w1)).2.2) = programs (store w1)).
Proof.
  split_and!.
  - intros h attrs Hin h'. subst h'. unfold ProgramHandler.startElement.
    rewrite decide_True by done. by rewrite decide_True by done.
  - intros ids f w k r.
    destruct (program_pass_rows ids f w k) as [?|(row & Hk & Hid & Hok)]; [by left|].
    right. destruct Hok as [(attrs & Hin & Hids & Hc & _ & _ & Hkey) _].
    exists row, attrs. split_and!; try done. congruence.
  - intros ids pre attrs body post w f key Hq Hin Hch Hbody Htitle.
    destruct (Sax.parse f (ProgramHandler.init ids, w)) as [o [h' w']] eqn:E.
    apply program_parse_spec in E as (_ & _ & _ & _ & wr & _ & Hst & Hwr).
    destruct (Hwr Hq) as [_ ->]. simpl. rewrite Hst.
    unfold written_programs. simpl.
    rewrite program_run_fst, program_state_app, program_state_cons in Htitle.
    set (h0 := program_state pre (ProgramHandler.init ids)) in *.
    set (h1 := program_state [Sax.StartElement "programme" attrs] h0) in *.
    set (h2 := program_state body h1) in *.
    assert (Hids : ProgramHandler.channel_ids h0 = ids)
      by apply (program_state_ids pre (ProgramHandler.init ids)).
    assert (H1 : ProgramHandler.in_programme h1 = true ∧
                 pr_id (ProgramHandler.current_program h1) = key ∧
                 pr_channel_id (ProgramHandler.current_program h1) = Sax.get attrs "channel").
    { subst h1. unfold program_state, Sax.run. simpl.
      unfold ProgramHandler.startElement. rewrite decide_True by done.
      rewrite decide_True by (by rewrite Hids). done. }
    destruct H1 as (Hin1 & Hid1 & Hch1).
    destruct (program_inner_run body h1 Hbody Hin1) as (Hin2 & Hid2 & Hch2 & _).
    fold h2 in Hin2, Hid2, Hch2.
    set (p := ProgramHandler.current_program h2) in *.
    assert (Hp : p ∈ admitted (pre ++ Sax.StartElement "programme" attrs :: body ++
                               Sax.EndElement "programme" :: post)
                              (ProgramHandler.init ids)).
    { rewrite admitted_app. apply elem_of_app. right. fold h0.
      rewrite admitted_cons. apply elem_of_app. right. fold h1.
      rewrite admitted_app. apply elem_of_app. right. fold h2.
      rewrite admitted_cons. apply elem_of_app. left.
      unfold admits. rewrite Hin2. fold p.
      destruct (pr_title p) eqn:Ht; [by destruct Htitle|]. simpl. by left. }
    destruct (replace_all_lookup_in _ (store w) p Hp) as (row & Hk & Hrow & Hid).
    { by rewrite Hch2, Hch1. }
    exists row. rewrite Hid2, Hid1 in Hk, Hid. split_and!; [done..|].
    by apply (admitted_ok _ []) in Hrow as [_ ?].
  - intros ids f w Hq Hfin w1. subst w1.
    destruct (Sax.parse f (ProgramHandler.init ids, w)) as [o [h' w']] eqn:E.
    apply program_parse_spec in E as (_ & _ & _ & _ & wr & _ & Hst & Hwr).
    destruct (Hwr Hq) as [Hq' ->]. simpl.
    destruct (Sax.parse f (ProgramHandler.init ids, w')) as [o2 [h2 w2]] eqn:E2.
    apply program_parse_spec in E2 as (_ & _ & _ & _ & wr2 & _ & Hst2 & Hwr2).
    destruct (Hwr2 Hq') as [_ ->]. simpl.
    rewrite Hst2, Hst. apply replace_all_twice.
Qed.

Lemma program_key_is_raw_concatenation_witness :
  ∃ row,
    programs (store (Sax.parse
                       (Sax.Feed (Samples.elem "tv" ∅ (Samples.prog "c1" "100" "200" "News"))
                                 Sax.EndDocument)
                       (ProgramHandler.init {["c1"]}, Samples.other_world)).2.2)
      !! "c1_100_200" = Some row ∧
    pr_id row = "c1_100_200" ∧ pr_title row ≠ "".
Proof.
  destruct (proj1 (proj2 (proj2 program_key_is_raw_concatenation)) {["c1"]}
              [Sax.StartElement "tv" ∅]
              (<["channel" := "c1"]> (<["start" := "100"]> {["stop" := "200"]}))
              (Samples.text "title" "News")
              [Sax.EndElement "tv"]
              Samples.other_world) as (row & Hk & Hid & Ht).
  - reflexivity.
  - vm_compute. reflexivity.
  - vm_compute. by eexists.
  - intros e He. repeat (apply elem_of_cons in He as [->|He]; [by vm_compute|]).
    by apply elem_of_nil in He.
  - vm_compute. discriminate.
  - exists row. split_and!.
    + vm_compute in Hk. vm_compute. exact Hk.
    + vm_compute in Hid. vm_compute. exact Hid.
    + exact Ht.
Defined.

(** C4. At the close of a programme element that was let in and has no
    title, nothing happens but that the element is no longer open: the
    batch, both counters and the store stay as they are. After the pass
    every row it wrote has a title. *)
Theorem untitled_programme_dropped_silently :
  (∀ h w,
     ProgramHandler.in_programme h = true →
     pr_title (ProgramHandler.current_program h) = "" →
     ProgramHandler.endElement "programme" (h, w) =
     (ProgramHandler.Make (ProgramHandler.channel_ids h) (ProgramHandler.program_count h)
        (ProgramHandler.skipped_programs h) (ProgramHandler.current_element h) false
        (ProgramHandler.current_program h) (ProgramHandler.buffer h)
        (ProgramHandler.program_batch h), w)) ∧
  (∀ ids f w k,
     let r := Sax.parse f (ProgramHandler.init ids, w) in
     programs (store r.2.2) !! k = programs (store w) !! k ∨
     ∃ row, programs (store r.2.2) !! k = Some row ∧ pr_title row ≠ "").
Proof.
  split.
  - intros h w Hin Ht. unfold ProgramHandler.endElement. rewrite Hin, Ht.
    repeat (case_decide; [done|]). done.
  - intros ids f w k r.
    destruct (program_pass_rows ids f w k) as [?|(row & Hk & _ & _ & Ht)]; [by left|].
    right. by exists row.
Qed.

Lemma settled_tables_fk : fk_ok Samples.settled_tables.
Proof.
  split; intros k c Hk; cbn in Hk;
    apply lookup_singleton_Some in Hk as [<- <-]; cbn;
    rewrite lookup_singleton_eq; by eexists.
Qed.

Lemma other_tables_fk : fk_ok Samples.other_tables.
Proof.
  split; intros k c Hk; cbn in Hk;
    apply lookup_singleton_Some in Hk as [<- <-]; cbn;
    rewrite lookup_singleton_eq; by eexists.
Qed.

(** C4 at a sample: the programme element of [Samples.untitled] that has a
    description and no title. *)
Lemma untitled_programme_dropped_silently_witness :
  ProgramHandler.in_programme Samples.untitled_open = true ∧
  pr_title (ProgramHandler.current_program Samples.untitled_open) = "" ∧
  ProgramHandler.endElement "programme" (Samples.untitled_open, Samples.empty_world) =
  (ProgramHandler.Make {["c1"]} 1 0 (Some "desc") false
     (Program "c1_200_300" "c1" "" (Some "No title here") "200" "300" None)
     "No title here"
     [Program "c1_100_200" "c1" "News" None "100" "200" None], Samples.empty_world).
Proof.
  split; [reflexivity|]. split; [reflexivity|].
  apply (proj1 untitled_programme_dropped_silently Samples.untitled_open Samples.empty_world);
    reflexivity.
Defined.




(** C6. With the references whole, deleting a source leaves no row of
    the source, none of its channels and none of the programmes on them;
    the other channels and programmes stay, and the references are still
    whole. [process_source] makes that deletion on the store it is given
    before anything else: when no file is obtained it returns false with
    the store so deleted, and otherwise its result is that of the parse
    started on that store with the row of the source inserted anew, which
    holds no channel and no programme of the source and none of the rows
    the source had. A channel the source holds after the run is one the
    feed declares. *)
Theorem source_delete_cascades :
  (∀ sid t,
     fk_ok t →
     let t' := Sql.delete_source sid t in
     sources t' !! sid = None ∧
     channels_of sid t' = ∅ ∧ programs_of sid t' = ∅ ∧
     (∀ k c, channels t !! k = Some c → ch_source_id c = sid → channels t' !! k = None) ∧
     (∀ k p, programs t !! k = Some p → is_Some (channels_of sid t !! pr_channel_id p) →
             programs t' !! k = None) ∧
     (∀ k c, channels t !! k = Some c → ch_source_id c ≠ sid → channels t' !! k = Some c) ∧
     (∀ k p, programs t !! k = Some p → channels_of sid t !! pr_channel_id p = None →
             programs t' !! k = Some p) ∧
     fk_ok t') ∧
  (∀ md5_hexdigest download_file fs url now w,
     fk_ok (store w) →
     let sid := md5_hexdigest url in
     let t0 := Sql.delete_source sid (store w) in
     let w0 := World t0 (txn w) (faults w) (store_clock w) (log w ++ [DeletedExisting]) in
     let w1 := World (Tables (<[sid := SourceRow sid (last_segment url "") (Some url) None 0 0
                                                 (store_clock w)]> (sources t0))
                             (channels t0) (programs t0))
                     (txn w) (faults w) (store_clock w) (log w ++ [DeletedExisting]) in
     let r := process_source md5_hexdigest download_file fs url now w in
     r = match (if String.prefix "http" url then download_file url else Some url) with
         | None => (false, w0)
         | Some path => parse_epg_file fs now path sid w1
         end ∧
     channels_of sid (store w0) = ∅ ∧ programs_of sid (store w0) = ∅ ∧
     channels_of sid (store w1) = ∅ ∧ programs_of sid (store w1) = ∅ ∧
     fk_ok (store w1) ∧
     (∀ k c, channels (store w) !! k = Some c → ch_source_id c = sid →
             channels (store w1) !! k = None) ∧
     (∀ k p, programs (store w) !! k = Some p →
             is_Some (channels_of sid (store w) !! pr_channel_id p) →
             programs (store w1) !! k = None) ∧
     (∀ path k c,
        (if String.prefix "http" url then download_file url else Some url) = Some path →
        channels (store r.2) !! k = Some c → ch_source_id c = sid →
        c ∈ accepted (Sax.events (fs path)) (ChannelHandler.init sid))).
Proof.
  assert (Hdel : ∀ sid t,
     fk_ok t →
     let t' := Sql.delete_source sid t in
     sources t' !! sid = None ∧
     channels_of sid t' = ∅ ∧ programs_of sid t' = ∅ ∧
     (∀ k c, channels t !! k = Some c → ch_source_id c = sid → channels t' !! k = None) ∧
     (∀ k p, programs t !! k = Some p → is_Some (channels_of sid t !! pr_channel_id p) →
             programs t' !! k = None) ∧
     (∀ k c, channels t !! k = Some c → ch_source_id c ≠ sid → channels t' !! k = Some c) ∧
     (∀ k p, programs t !! k = Some p → channels_of sid t !! pr_channel_id p = None →
             programs t' !! k = Some p) ∧
     fk_ok t').
  { intros sid t Hfk t'. subst t'.
    pose proof (delete_source_channels_of sid t Hfk) as Hnone.
    split_and!.
    + by rewrite delete_source_sources, lookup_delete_eq.
    + done.
    + by apply programs_of_empty.
    + intros k c Hk Hs. rewrite delete_source_channels by done.
      apply map_lookup_filter_None_2. right. intros x Hx. simpl. naive_solver.
    + intros k p' Hk Hs. rewrite delete_source_programs by done.
      apply map_lookup_filter_None_2. right. intros x Hx. simpl.
      simplify_eq. destruct Hs as [c Hc]. by rewrite Hc.
    + intros k c Hk Hs. rewrite delete_source_channels by done.
      by apply map_lookup_filter_Some_2.
    + intros k p' Hk Hs. rewrite delete_source_programs by done.
      by apply map_lookup_filter_Some_2.
    + by apply delete_source_fk. }
  split; [exact Hdel|].
  intros md5_hexdigest download_file fs url now w Hfk sid t0 w0 w1 r.
  destruct (Hdel sid (store w) Hfk) as (_ & Hc0 & Hp0 & Hcg & Hpg & _ & _ & Hfk0).
  fold t0 in Hc0, Hp0, Hcg, Hpg, Hfk0.
  assert (Hc1 : channels_of sid (store w1) = ∅) by exact Hc0.
  assert (Hr : r = match local_path download_file url with
                   | None => (false, w0)
                   | Some path => parse_epg_file fs now path sid w1
                   end).
  { subst r. by rewrite process_source_spec. }
  split_and!.
  - exact Hr.
  - exact Hc0.
  - exact Hp0.
  - exact Hc1.
  - by apply programs_of_empty.
  - by apply (prepared_fk sid url (store_clock w) (store w)).
  - exact Hcg.
  - exact Hpg.
  - intros path k c Hpath Hk Hs. rewrite Hr in Hk. unfold local_path in Hk.
    rewrite Hpath in Hk. unfold parse_epg_file in Hk.
    destruct (parse_spec fs now path sid w1 (prepared_source sid url _ _))
      as (p1 & w2 & E1 & _ & _ & _ & _ & _ & _ & wc & wp & Hwc & _ & Hch & _).
    rewrite E1 in Hk. simpl in Hk. rewrite Hch in Hk.
    apply upsert_all_lookup in Hk as [Hold|[Hin _]]; [|by apply Hwc].
    exfalso. assert (Hx : channels_of sid (store w1) !! k = Some c)
      by (by apply channels_of_lookup).
    by rewrite Hc1, lookup_empty in Hx.
Qed.

Lemma source_delete_cascades_witness :
  fk_ok Samples.settled_tables ∧
  channels (Sql.delete_source "other" Samples.settled_tables) !! "k7" = None ∧
  programs (Sql.delete_source "other" Samples.settled_tables) !! "k7_100_200" = None ∧
  process_source (λ _, "other") Samples.fetched (Samples.only Samples.guide)
                 "guide.xml" "2024-01-02T00:00:00" Samples.settled_world =
  parse_epg_file (Samples.only Samples.guide) "2024-01-02T00:00:00" "guide.xml" "other"
    (World (Tables {["other" := SourceRow "other" "guide.xml" (Some "guide.xml") None 0 0
                                          "2024-01-01 00:00:00"]} ∅ ∅)
           None [] "2024-01-01 00:00:00" [DeletedExisting]) ∧
  channels (store (process_source (λ _, "other") Samples.fetched (Samples.only Samples.guide)
                                  "guide.xml" "2024-01-02T00:00:00" Samples.settled_world).2)
    !! "k7" = None.
Proof.
  split; [exact settled_tables_fk|].
  destruct (proj1 source_delete_cascades "other" Samples.settled_tables settled_tables_fk)
    as (_ & _ & _ & Hc & Hp & _).
  destruct (proj2 source_delete_cascades (λ _, "other") Samples.fetched
              (Samples.only Samples.guide) "guide.xml" "2024-01-02T00:00:00"
              Samples.settled_world settled_tables_fk)
    as (Hr & _ & _ & _ & _ & _ & _ & _ & Hfeed).
  split_and!.
  - apply (Hc "k7" (Channel "k7" "other" "Seven" None)); reflexivity.
  - apply (Hp "k7_100_200" (Program "k7_100_200" "k7" "Old" None "100" "200" None));
      [reflexivity|]. exists (Channel "k7" "other" "Seven" None). vm_compute. reflexivity.
  - rewrite Hr. vm_compute. reflexivity.
  - vm_compute. reflexivity.
Defined.

(** C7. A flush empties the batch and leaves the store in one of two
    states: every record of the batch written and committed, or the store
    as it was before the batch, with the error logged. In a programme
    batch a record whose channel row is missing is passed over and logged,
    and the others are committed. When the store raises nothing the batch
    is committed. *)
Theorem batch_commits_as_a_unit :
  (∀ h w,
     (∀ c, c ∈ ChannelHandler.channel_batch h →
           is_Some (sources (store w) !! ch_source_id c)) →
     let r := ChannelHandler._process_channel_batch (h, w) in
     ChannelHandler.channel_batch r.1 = [] ∧
     ((store r.2 = upsert_all (ChannelHandler.channel_batch h) (store w) ∧ log r.2 = log w) ∨
      (store r.2 = store w ∧ log r.2 = log w ++ [ErrorChannelBatch])) ∧
     (ChannelHandler.channel_batch h ≠ [] → txn r.2 = None) ∧
     (faults w = [] → store r.2 = upsert_all (ChannelHandler.channel_batch h) (store w))) ∧
  (∀ h w,
     let r := ProgramHandler._process_program_batch (h, w) in
     ProgramHandler.program_batch r.1 = [] ∧
     ((store r.2 = replace_all (ProgramHandler.program_batch h) (store w) ∧
       log r.2 = log w ++ skipped_entries (store w) (ProgramHandler.program_batch h)) ∨
      (store r.2 = store w ∧ last (log r.2) = Some ErrorProgramBatch)) ∧
     (ProgramHandler.program_batch h ≠ [] → txn r.2 = None) ∧
     (faults w = [] → store r.2 = replace_all (ProgramHandler.program_batch h) (store w))).
Proof.
  split.
  - intros h w Hsrc r. subst r.
    destruct (ChannelHandler._process_channel_batch (h, w)) as [h' w'] eqn:E.
    apply channel_flush_spec in E as (-> & _ & Hcase & Ht & _ & Hq); [|done].
    simpl. split_and!; try done. intros Hf. by destruct (Hq Hf) as (_ & _ & ?).
  - intros h w r. subst r.
    destruct (ProgramHandler._process_program_batch (h, w)) as [h' w'] eqn:E.
    apply program_flush_spec in E as (-> & _ & Hcase & Ht & _ & Hq).
    simpl. split_and!; try done. intros Hf. by destruct (Hq Hf) as (_ & ?).
Qed.

Lemma batch_commits_as_a_unit_witness :
  let r := ChannelHandler._process_channel_batch (Samples.pending, Samples.ready_world) in
  faults Samples.ready_world = [] ∧
  store r.2 = upsert_all (ChannelHandler.channel_batch Samples.pending)
                         (store Samples.ready_world).
Proof.
  cbv zeta. split; [reflexivity|].
  apply (proj1 batch_commits_as_a_unit Samples.pending Samples.ready_world); [|reflexivity].
  intros c Hc. exists (SourceRow "guide.xml" "guide.xml" (Some "guide.xml") None 0 0
                                 "2024-01-01 00:00:00").
  cbn in Hc. apply elem_of_cons in Hc as [->|Hc]; [reflexivity|].
  apply list_elem_of_singleton in Hc as ->. reflexivity.
Defined.

(** C8 as stated fails. In [Samples.icons] the channel has three icon
    elements with text; the first, which does not contain the marker, is
    passed over and the second is stored. In [Samples.twice] the first
    block has an icon and the second none: the row has the name of the
    second block and no icon. *)
Lemma first_icon_with_text_does_not_win :
  let r := process_source Samples.same Samples.fetched (Samples.only Samples.icons)
                          "guide.xml" "2024-01-02T00:00:00" Samples.empty_world in
  let r' := process_source Samples.same Samples.fetched (Samples.only Samples.twice)
                           "guide.xml" "2024-01-02T00:00:00" Samples.empty_world in
  channels (store r.2) !! "c1" = Some (Channel "c1" "guide.xml" "One" (Some "@src 2.png")) ∧
  channels (store r'.2) !! "c1" = Some (Channel "c1" "guide.xml" "Uno" None).
Proof. split; vm_compute; reflexivity. Qed.

(** C8, amended. When the document ends well and the store raises
    nothing, the row of a channel id is the last record the first pass
    accepted for that id, name and icon alike. Inside a channel element
    the close of an icon element sets the icon only when none is set and
    the text of the element contains "@src", and changes nothing
    otherwise. *)
Theorem later_block_wins_and_icon_needs_marker :
  (∀ f sid w b1 c b2,
     Sax.final f = Sax.EndDocument → faults w = [] →
     is_Some (sources (store w) !! sid) →
     accepted (Sax.events f) (ChannelHandler.init sid) = b1 ++ c :: b2 →
     (∀ c', c' ∈ b2 → ch_id c' ≠ ch_id c) →
     channels (store (Sax.parse f (ChannelHandler.init sid, w)).2.2) !! ch_id c = Some c) ∧
  (∀ h w,
     ChannelHandler.in_channel h = true →
     ChannelHandler.endElement "icon" (h, w) =
     (if negb (Str.truthy_opt (ch_icon (ChannelHandler.current_channel h))) &&
         Str.contains "@src" (ChannelHandler.buffer h)
      then ChannelHandler.set_current
             (Channel (ch_id (ChannelHandler.current_channel h))
                      (ch_source_id (ChannelHandler.current_channel h))
                      (ch_name (ChannelHandler.current_channel h))
                      (Some (Str.strip (ChannelHandler.buffer h)))) h
      else h, w)).
Proof.
  split.
  - intros f sid w b1 c b2 Hfin Hq Hsrc Hacc Hlast.
    destruct (Sax.parse f (ChannelHandler.init sid, w)) as [o [h' w']] eqn:E.
    apply channel_parse_spec in E as (_ & _ & _ & _ & wr & _ & Hst & Hwr); [|done].
    destruct (Hwr Hq) as [_ ->]. simpl. rewrite Hst.
    unfold written_channels. rewrite Hfin, Hacc. by apply upsert_all_last.
  - intros h w Hin. unfold ChannelHandler.endElement. rewrite Hin.
    rewrite decide_False by done. rewrite decide_True by done.
    by destruct (_ && _).
Qed.

Lemma later_block_wins_and_icon_needs_marker_witness :
  Sax.final Samples.twice = Sax.EndDocument ∧ faults Samples.ready_world = [] ∧
  channels (store (Sax.parse Samples.twice
                     (ChannelHandler.init "guide.xml", Samples.ready_world)).2.2) !! "c1"
  = Some (Channel "c1" "guide.xml" "Uno" None).
Proof.
  split; [reflexivity|]. split; [reflexivity|].
  apply (proj1 later_block_wins_and_icon_needs_marker Samples.twice "guide.xml"
           Samples.ready_world [Channel "c1" "guide.xml" "One" (Some "@src 1.png")]
           (Channel "c1" "guide.xml" "Uno" None) []).
  - reflexivity.
  - reflexivity.
  - eexists. reflexivity.
  - vm_compute. reflexivity.
  - intros c' Hc'. by apply elem_of_nil in Hc'.
Defined.

(** C9 as stated fails for the skipped count. The feeds [Samples.guide]
    and [Samples.guide_known] end with different skipped counts and with
    the same store: the skipped count is not written anywhere. *)
Lemma skipped_count_is_not_stored :
  let a := TwoPassEPGParser.parse (Samples.only Samples.guide) "2024-01-02T00:00:00"
             (TwoPassEPGParser.init "guide.xml" "guide.xml", Samples.ready_world) in
  let b := TwoPassEPGParser.parse (Samples.only Samples.guide_known) "2024-01-02T00:00:00"
             (TwoPassEPGParser.init "guide.xml" "guide.xml", Samples.ready_world) in
  TwoPassEPGParser.skipped_programs a.2.1 = 1 ∧
  TwoPassEPGParser.skipped_programs b.2.1 = 0 ∧
  store a.2.2 = store b.2.2.
Proof. split_and!; vm_compute; reflexivity. Qed.

(** C9, amended. After the two passes the row of the source has the
    channel count and the programme count of the parser and, as last
    update, the clock reading the parser took, whatever the clock of the
    store says; its other columns and the other rows of [sources] are as
    before. When the store raises on the update the row is left as it
    was. *)
Theorem statistics_written_with_explicit_timestamp fs now path sid w r :
  sources (store w) !! sid = Some r →
  let res := TwoPassEPGParser.parse fs now (TwoPassEPGParser.init path sid, w) in
  let updated := SourceRow (src_id r) (src_name r) (src_url r) (src_file_path r)
                           (TwoPassEPGParser.channel_count res.2.1)
                           (TwoPassEPGParser.program_count res.2.1) now in
  (faults w = [] → sources (store res.2.2) !! sid = Some updated) ∧
  (sources (store res.2.2) !! sid = Some updated ∨ sources (store res.2.2) !! sid = Some r) ∧
  (∀ k, k ≠ sid → sources (store res.2.2) !! k = sources (store w) !! k).
Proof.
  intros Hr res updated.
  destruct (parse_spec fs now path sid w (ltac:(by rewrite Hr)))
    as (p' & w' & E & _ & _ & _ & _ & _ & _ & wc & wp & _ & _ & _ & _ & Hs & Hq).
  subst updated res. rewrite E. simpl. split_and!.
  - intros Hf. destruct (Hq Hf) as (_ & _ & _ & r' & Hr' & ->).
    rewrite lookup_insert_eq. congruence.
  - destruct Hs as [->|(r' & Hr' & ->)]; [by right|left].
    rewrite lookup_insert_eq. congruence.
  - intros k Hk. destruct Hs as [->|(r' & Hr' & ->)]; [done|].
    by rewrite lookup_insert_ne.
Qed.

Lemma statistics_written_with_explicit_timestamp_witness :
  sources (store Samples.ready_world) !! "guide.xml" =
    Some (SourceRow "guide.xml" "guide.xml" (Some "guide.xml") None 0 0 "2024-01-01 00:00:00") ∧
  faults Samples.ready_world = [] ∧
  sources (store (TwoPassEPGParser.parse (Samples.only Samples.guide) "2024-01-02T00:00:00"
                    (TwoPassEPGParser.init "guide.xml" "guide.xml", Samples.ready_world)).2.2)
    !! "guide.xml" =
    Some (SourceRow "guide.xml" "guide.xml" (Some "guide.xml") None 2 3 "2024-01-02T00:00:00").
Proof.
  split; [reflexivity|]. split; [reflexivity|].
  apply (proj1 (statistics_written_with_explicit_timestamp
                  (Samples.only Samples.guide) "2024-01-02T00:00:00" "guide.xml" "guide.xml"
                  Samples.ready_world
                  (SourceRow "guide.xml" "guide.xml" (Some "guide.xml") None 0 0
                             "2024-01-01 00:00:00") eq_refl)).
  reflexivity.
Defined.

(** C10. The counters of both handlers depend on the callbacks alone: the
    channel count is the number of records accepted, the programme count
    the number admitted and the skipped count the number turned away,
    whatever the store does; a flush leaves them as they are. After a
    first pass that started without a channel of the source, the channels
    of the source are at most as many as the channel count, and fewer when
    a channel batch failed. In the run of [Samples.guide] on a store whose
    commit of the channel batch raises, the source row says two channels
    and three programmes and the store holds none. *)
Theorem counts_outlive_failed_commits :
  (∀ evs sid w,
     ChannelHandler.channel_count (Sax.run evs (ChannelHandler.init sid, w)).1 =
     Z.of_nat (length (accepted evs (ChannelHandler.init sid)))) ∧
  (∀ evs ids w,
     ProgramHandler.program_count (Sax.run evs (ProgramHandler.init ids, w)).1 =
     Z.of_nat (length (admitted evs (ProgramHandler.init ids))) ∧
     ProgramHandler.skipped_programs (Sax.run evs (ProgramHandler.init ids, w)).1 =
     Z.of_nat (length (filter (λ e, rejected ids e = true) evs))) ∧
  (∀ h w,
     ChannelHandler.channel_count (ChannelHandler._process_channel_batch (h, w)).1 =
     ChannelHandler.channel_count h) ∧
  (∀ h w,
     ProgramHandler.program_count (ProgramHandler._process_program_batch (h, w)).1 =
     ProgramHandler.program_count h ∧
     ProgramHandler.skipped_programs (ProgramHandler._process_program_batch (h, w)).1 =
     ProgramHandler.skipped_programs h) ∧
  (∀ f sid w,
     Sax.final f = Sax.EndDocument →
     is_Some (sources (store w) !! sid) →
     channels_of sid (store w) = ∅ →
     let r := Sax.parse f (ChannelHandler.init sid, w) in
     (Z.of_nat (size (channels_of sid (store r.2.2))) ≤ ChannelHandler.channel_count r.2.1)%Z ∧
     (ErrorChannelBatch ∈ log r.2.2 → ErrorChannelBatch ∉ log w →
      (Z.of_nat (size (channels_of sid (store r.2.2))) < ChannelHandler.channel_count r.2.1)%Z)) ∧
  let r := process_source Samples.same Samples.fetched (Samples.only Samples.guide)
                          "guide.xml" "2024-01-02T00:00:00" Samples.failing_commit in
  sources (store r.2) !! "guide.xml" =
    Some (SourceRow "guide.xml" "guide.xml" (Some "guide.xml") None 2 3 "2024-01-02T00:00:00") ∧
  channels (store r.2) = ∅ ∧ programs (store r.2) = ∅ ∧
  log r.2 = [DeletedExisting; StartingFirstPass; ErrorChannelBatch; ProcessedChannels 2;
             FirstPassComplete 2; StartingSecondPass;
             ProgramIntegrityError "c1_100_200" "c1"; ProgramIntegrityError "c1_200_300" "c1";
             ProgramIntegrityError "c2_100_200" "c2"; ProcessedPrograms 3 1;
             SecondPassComplete 3 1; UpdatedSourceStatistics 2 3; CompletedParsing 2 3;
             SkippedWarning 1].
Proof.
  split.
  { intros evs sid w. rewrite channel_run_fst, channel_state_count. simpl. lia. }
  split.
  { intros evs ids w. rewrite program_run_fst, program_state_count, program_state_skipped.
    simpl. split; lia. }
  split; [intros h w; by rewrite channel_flush_fst|].
  split; [intros h w; by rewrite program_flush_fst|].
  split; [apply channel_pass_loss|].
  cbv zeta. repeat split; vm_compute; reflexivity.
Qed.

Lemma counts_outlive_failed_commits_witness :
  let r := Sax.parse Samples.guide (ChannelHandler.init "guide.xml", Samples.failing_ready) in
  Sax.final Samples.guide = Sax.EndDocument ∧
  channels_of "guide.xml" (store Samples.failing_ready) = ∅ ∧
  ErrorChannelBatch ∈ log r.2.2 ∧
  (Z.of_nat (size (channels_of "guide.xml" (store r.2.2))) < ChannelHandler.channel_count r.2.1)%Z.
Proof.
  cbv zeta. split; [reflexivity|]. split; [vm_compute; reflexivity|].
  assert (Hlog : ErrorChannelBatch ∈
            log (Sax.parse Samples.guide
                   (ChannelHandler.init "guide.xml", Samples.failing_ready)).2.2).
  { vm_compute. left. }
  split; [exact Hlog|].
  destruct counts_outlive_failed_commits as (_ & _ & _ & _ & Hloss & _).
  apply (Hloss Samples.guide "guide.xml" Samples.failing_ready).
  - reflexivity.
  - eexists. reflexivity.
  - vm_compute. reflexivity.
  - exact Hlog.
  - intros Hin. cbn in Hin. by apply elem_of_nil in Hin.
Defined.

End Claims.

(** ** Strings *)

Section Strings.

Lemma append_cons c (a b : string) : (String c a ++ b)%string = String c (a ++ b)%string.
Proof. done. Qed.

Lemma append_nil_r (s : string) : (s ++ "")%string = s.
Proof. induction s as [|c s IH]; [done|]. by rewrite append_cons, IH. Qed.

Lemma append_assoc (a b c : string) : ((a ++ b) ++ c)%string = (a ++ b ++ c)%string.
Proof. induction a as [|x a IH]; [done|]. by rewrite !append_cons, IH. Qed.

Lemma length_append (a b : string) :
  String.length (a ++ b)%string = (String.length a + String.length b)%nat.
Proof. induction a as [|x a IH]; [done|]. rewrite append_cons. simpl. by rewrite IH. Qed.

Lemma lstrip_head s : head_ok (Str.lstrip s).
Proof.
  induction s as [|c s IH]; simpl; [done|].
  destruct (Str.isspace c) eqn:Hc; [done|]. simpl. done.
Qed.

Lemma lstrip_fixed s : head_ok s → Str.lstrip s = s.
Proof. destruct s as [|c s]; simpl; [done|]. by intros ->. Qed.

Lemma rstrip_head s : head_ok s → head_ok (Str.rstrip s).
Proof.
  destruct s as [|c s]; simpl; [done|]. intros Hc.
  destruct (Str.rstrip s); simpl; by rewrite ?Hc.
Qed.

Lemma rstrip_idem s : Str.rstrip (Str.rstrip s) = Str.rstrip s.
Proof.
  induction s as [|c s IH]; simpl; [done|].
  destruct (Str.rstrip s) as [|c' r'] eqn:Hr.
  - destruct (Str.isspace c) eqn:Hc; simpl; [done|]. by rewrite Hc.
  - simpl. simpl in IH. by rewrite IH.
Qed.

(** Trimming what is trimmed changes nothing. *)
Lemma strip_idem s : Str.strip (Str.strip s) = Str.strip s.
Proof.
  unfold Str.strip.
  rewrite (lstrip_fixed (Str.rstrip (Str.lstrip s))).
  - apply rstrip_idem.
  - apply rstrip_head, lstrip_head.
Qed.

Lemma lower_append a b :
  PyStr.lower (a ++ b)%string = (PyStr.lower a ++ PyStr.lower b)%string.
Proof. induction a as [|x a IH]; [done|]. rewrite append_cons. simpl. by rewrite IH. Qed.

Lemma endswith_length suffix s :
  PyStr.endswith suffix s = true → (String.length suffix ≤ String.length s)%nat.
Proof.
  induction s as [|c s IH]; simpl.
  - rewrite orb_false_r. intros ->%String.eqb_eq. done.
  - intros [->%String.eqb_eq|H]%orb_true_iff; [done|]. apply IH in H. lia.
Qed.

(** Whether a string ends with a suffix is decided by its end. *)
Lemma endswith_append suffix a b :
  (String.length suffix ≤ String.length b)%nat →
  PyStr.endswith suffix (a ++ b)%string = PyStr.endswith suffix b.
Proof.
  intros Hlen. induction a as [|c a IH]; [done|].
  rewrite append_cons. simpl. rewrite IH.
  destruct (String.eqb_spec suffix (String c (a ++ b)%string)) as [->|_]; [|done].
  simpl in Hlen. rewrite length_append in Hlen. lia.
Qed.

Lemma endswith_refl s : PyStr.endswith s s = true.
Proof.
  destruct s as [|c s]; [done|].
  change (PyStr.endswith (String c s) (String c s))
    with ((String c s =? String c s)%string || PyStr.endswith (String c s) s).
  by rewrite String.eqb_refl.
Qed.

Lemma prefix_head c s : String.prefix (String c "") s = true → ∃ r, s = String c r.
Proof.
  destruct s as [|c' r]; simpl; [done|].
  destruct (ascii_dec c c') as [->|?]; [|done]. intros _. by exists r.
Qed.

End Strings.

(** ** The cache file of a url *)

Section CacheFile.

Lemma lower_length s : String.length (PyStr.lower s) = String.length s.
Proof. induction s as [|c s IH]; simpl; [done|]. by rewrite IH. Qed.

Lemma is_gzipped_append a b :
  (3 ≤ String.length b)%nat → is_gzipped (a ++ b)%string = is_gzipped b.
Proof.
  intros Hlen. unfold is_gzipped. rewrite lower_append.
  apply endswith_append. by rewrite lower_length.
Qed.

Lemma path_join_cases a b :
  ∃ x, PyStr.path_join a b = (x ++ b)%string.
Proof.
  unfold PyStr.path_join. destruct (String.prefix "/" b); [by exists ""|].
  destruct (_ || _); [by exists a|]. exists (a ++ "/")%string. by rewrite append_assoc.
Qed.

(** X1. The parser takes a downloaded file for gzipped exactly when the
    url ends in ".gz", in any mix of cases: the name [download_file] gives
    the cache file ends in ".gz" for those urls and in ".xml" for all
    others, whatever the cache directory and the hash are. *)
Theorem gzip_detection_survives_caching md5_hexdigest url cache_dir :
  is_gzipped (PyStr.path_join cache_dir (Download.cache_filename md5_hexdigest url)) =
  PyStr.endswith ".gz" (PyStr.lower url).
Proof.
  destruct (path_join_cases cache_dir (Download.cache_filename md5_hexdigest url)) as [x ->].
  unfold Download.cache_filename.
  set (h := if (100 <? _)%nat then _ else _).
  destruct (PyStr.endswith ".gz" (PyStr.lower url)).
  - rewrite <- append_assoc. rewrite is_gzipped_append; [done|simpl; lia].
  - rewrite <- append_assoc. rewrite is_gzipped_append; [done|simpl; lia].
Qed.

Lemma contains1_cons c x s :
  Str.contains (String c "") (String x s) =
  bool_decide (c = x) || Str.contains (String c "") s.
Proof.
  simpl. destruct (ascii_dec c x) as [->|Hne].
  - rewrite bool_decide_eq_true_2 by done. by destruct s.
  - by rewrite bool_decide_eq_false_2.
Qed.

Lemma contains1_nil c : Str.contains (String c "") "" = false.
Proof. done. Qed.

Lemma contains1_append c a b :
  Str.contains (String c "") (a ++ b)%string =
  Str.contains (String c "") a || Str.contains (String c "") b.
Proof.
  induction a as [|x a IH].
  { change ("" ++ b)%string with b. by rewrite contains1_nil. }
  rewrite append_cons, !contains1_cons, IH. by rewrite orb_assoc.
Qed.

Lemma contains1_replace_other c old new s :
  c ≠ new → Str.contains (String c "") s = false →
  Str.contains (String c "") (PyStr.replace old new s) = false.
Proof.
  intros Hne. induction s as [|x s IH]; [done|].
  simpl PyStr.replace. rewrite !contains1_cons.
  intros [Hx%bool_decide_eq_false Hs]%orb_false_iff. rewrite (IH Hs), orb_false_r.
  destruct (decide (x = old)); by rewrite bool_decide_eq_false_2.
Qed.

Lemma contains1_replace_same old new s :
  old ≠ new → Str.contains (String old "") (PyStr.replace old new s) = false.
Proof.
  intros Hne. induction s as [|x s IH]; [done|].
  simpl PyStr.replace. rewrite contains1_cons, IH, orb_false_r.
  destruct (decide (x = old)); rewrite bool_decide_eq_false_2; congruence.
Qed.

Lemma replace_length old new s :
  String.length (PyStr.replace old new s) = String.length s.
Proof. induction s as [|x s IH]; simpl; [done|]. by rewrite IH. Qed.

Lemma prefix1_contains c s :
  String.prefix (String c "") s = true → Str.contains (String c "") s = true.
Proof. destruct s; simpl; [done|]. by intros ->. Qed.

(** X2. For a url of at most 100 characters, or with a hash that has no
    slash and no colon, the name of the cache file has no slash and no
    colon in it: the file lies in the cache directory itself, and the path
    is the directory, a slash unless it ends in one, and the name. *)
Theorem cache_file_stays_in_cache_dir md5_hexdigest url cache_dir :
  ((100 < String.length url)%nat →
   Str.contains "/" (md5_hexdigest url) = false ∧
   Str.contains ":" (md5_hexdigest url) = false) →
  let name := Download.cache_filename md5_hexdigest url in
  Str.contains "/" name = false ∧ Str.contains ":" name = false ∧
  PyStr.path_join cache_dir name =
    (if (cache_dir =? "")%string || PyStr.endswith "/" cache_dir
     then cache_dir ++ name else cache_dir ++ "/" ++ name)%string.
Proof.
  intros Hmd5 name.
  assert (Hname : Str.contains "/" name = false ∧ Str.contains ":" name = false).
  { subst name. unfold Download.cache_filename.
    rewrite !replace_length.
    assert (Hh : Str.contains "/"
                   (if (100 <? String.length url)%nat then md5_hexdigest url
                    else PyStr.replace "." "_" (PyStr.replace ":" "_" (PyStr.replace "/" "_" url)))
                 = false ∧
                 Str.contains ":"
                   (if (100 <? String.length url)%nat then md5_hexdigest url
                    else PyStr.replace "." "_" (PyStr.replace ":" "_" (PyStr.replace "/" "_" url)))
                 = false).
    { destruct (100 <? String.length url)%nat eqn:Hl.
      - apply Hmd5. by apply Nat.ltb_lt.
      - split.
        + do 2 (apply contains1_replace_other; [done|]). by apply contains1_replace_same.
        + apply contains1_replace_other; [done|]. by apply contains1_replace_same. }
    destruct Hh as [Hs Hc].
    destruct (PyStr.endswith ".gz" (PyStr.lower url));
      rewrite !contains1_append, Hs, Hc; done. }
  destruct Hname as [Hs Hc]. split_and!; [done..|].
  unfold PyStr.path_join.
  destruct (String.prefix "/" name) eqn:Hp; [|done].
  apply prefix1_contains in Hp. congruence.
Qed.

Lemma cache_file_stays_in_cache_dir_witness :
  Str.contains "/" (Download.cache_filename Samples.same "https://epg.pw/xmltv/epg_US.xml")
  = false.
Proof.
  apply (cache_file_stays_in_cache_dir Samples.same "https://epg.pw/xmltv/epg_US.xml" "cache").
  intros Hlen. exfalso. revert Hlen. vm_compute. lia.
Defined.

(** X3. [download_file] gives no path exactly when there is no file at
    the cache path and either opening the url failed or the cache file
    could not be opened for writing; it then leaves the files as they are.
    In every other case it gives the cache path, and a file that is there
    and less than a day old is given without the network being asked. When
    the cache file was opened and the transfer breaks off, the part written
    is what the file holds, and the path is given all the same. *)
Theorem download_file_outcomes md5_hexdigest fsys net writable url cache_dir :
  let path := PyStr.path_join cache_dir (Download.cache_filename md5_hexdigest url) in
  let r := Download.download_file md5_hexdigest fsys net writable url cache_dir in
  (r.1 = None ↔
   fsys !! path = None ∧ (net url = Download.Refused ∨ writable path = false)) ∧
  (r.1 = None → r.2 = fsys) ∧
  (r.1 = None ∨ r.1 = Some path) ∧
  (net url = Download.Refused ∨ writable path = false → r.2 = fsys) ∧
  (∀ f, fsys !! path = Some f →
        QArith_base.Qlt (Download.file_age f) (QArith_base.inject_Z (24 * 60 * 60)) →
        r = (Some path, fsys)) ∧
  (∀ chunks, fsys !! path = None → net url = Download.Body chunks false →
             writable path = true →
             r.1 = Some path ∧
             Download.content <$> (r.2 !! path) = Some (String.concat "" chunks)).
Proof.
  intros path r. subst r. unfold Download.download_file. fold path.
  unfold Download.fetch.
  destruct (fsys !! path) as [f|] eqn:Hf;
    [destruct (QArith_base.Qlt_le_dec _ _) as [Hlt|Hle]|];
    try (destruct (net url) as [|chunks c] eqn:Hn; [|destruct (writable path) eqn:Hw]);
    simpl; split_and!; try done; try (by left); try (by right); try naive_solver.
  all: try (intros f' [= <-] Hlt; exfalso; by apply (QArith_base.Qlt_not_le _ _ Hlt)).
  intros chunks' _ [= <- _] _. by rewrite lookup_insert_eq.
Qed.

Lemma download_file_outcomes_witness :
  (Download.download_file Samples.same ∅ (λ _, Download.Body ["<tv>"; "<chan"] false)
     (λ _, true) "http://x/g.xml" "cache").1 = Some "cache/http___x_g_xml.xml".
Proof.
  destruct (download_file_outcomes Samples.same ∅ (λ _, Download.Body ["<tv>"; "<chan"] false)
              (λ _, true) "http://x/g.xml" "cache") as (_ & _ & _ & _ & _ & H).
  destruct (H ["<tv>"; "<chan"]) as [Hr _]; [reflexivity|reflexivity|reflexivity|].
  exact Hr.
Defined.

End CacheFile.

(** ** The list of sources read from a file *)

Section SourcesList.

Import SourcesFile.

Lemma rstrip_cons_truthy c s : Str.isspace c = false → Str.truthy (Str.rstrip (String c s)) = true.
Proof. intros Hc. simpl. destruct (Str.rstrip s); by rewrite ?Hc. Qed.

(** X4. From a file whose name does not end in ".json", every entry
    returned is a line of the file trimmed, is not empty, has no white
    space at either end, and comes from a line that does not begin with
    "#". A file that cannot be opened gives no entry. *)
Theorem sources_file_entries_are_trimmed_lines file_path lines parsed :
  PyStr.endswith ".json" file_path = false →
  read_sources_file file_path Unreadable = Urls [] ∧
  ∃ l, read_sources_file file_path (Contents lines parsed) = Urls l ∧
       ∀ x, x ∈ l →
            x ≠ "" ∧ Str.strip x = x ∧
            ∃ line, line ∈ lines ∧ x = Str.strip line ∧ String.prefix "#" line = false.
Proof.
  intros Hj. split; [done|]. unfold read_sources_file. rewrite Hj.
  eexists. split; [done|].
  intros x [line [<- Hin]]%list_elem_of_In%in_map_iff.
  apply filter_In in Hin as [Hin [Ht Hp%negb_true_iff]%andb_true_iff].
  split_and!.
  - intros Heq. by rewrite Heq in Ht.
  - apply strip_idem.
  - exists line. split_and!; try done. by apply list_elem_of_In.
Qed.

Lemma sources_file_entries_are_trimmed_lines_witness :
  ∃ l, read_sources_file "sources.txt"
         (Contents ["# EPG sources"; "  http://a/guide.xml  "; ""; "http://b/g.xml.gz"] None)
       = Urls l ∧
       ∀ x, x ∈ l → x ≠ "".
Proof.
  destruct (sources_file_entries_are_trimmed_lines "sources.txt"
              ["# EPG sources"; "  http://a/guide.xml  "; ""; "http://b/g.xml.gz"] None eq_refl)
    as (_ & l & Hl & Hall).
  exists l. split; [exact Hl|]. intros x Hx. by destruct (Hall x Hx).
Defined.

(** X5. The test for a comment looks at the line before it is trimmed:
    a line that has white space before its "#" is returned as a source,
    trimmed. *)
Theorem indented_comment_is_taken_for_a_source file_path c rest parsed :
  PyStr.endswith ".json" file_path = false →
  Str.isspace c = true →
  read_sources_file file_path (Contents [String c (String "#" rest)] parsed) =
  Urls [Str.rstrip (String "#" rest)].
Proof.
  intros Hj Hc. unfold read_sources_file. rewrite Hj.
  assert (Hs : Str.strip (String c (String "#" rest)) = Str.rstrip (String "#" rest)).
  { unfold Str.strip. simpl Str.lstrip. by rewrite Hc. }
  assert (Hp : String.prefix "#" (String c (String "#" rest)) = false).
  { destruct (String.prefix "#" (String c (String "#" rest))) eqn:E; [|done].
    apply prefix_head in E as [r [= Heq _]]. subst c. by vm_compute in Hc. }
  cbn [List.filter]. rewrite Hs, Hp, rstrip_cons_truthy by done.
  cbn [andb negb List.map]. by rewrite Hs.
Qed.

Lemma indented_comment_is_taken_for_a_source_witness :
  read_sources_file "sources.txt" (Contents [" # old feed"] None) =
  Urls [Str.rstrip "# old feed"].
Proof.
  apply (indented_comment_is_taken_for_a_source "sources.txt" " " " old feed"%string None);
    reflexivity.
Defined.

End SourcesList.

(** ** More on the first pass *)

Section FirstPass.

Import ChannelHandler.

Lemma upsert_all_keeps b t k :
  is_Some (channels t !! k) → is_Some (channels (upsert_all b t) !! k).
Proof.
  revert t. induction b as [|c b IH]; intros t Hk; [done|]. simpl.
  apply IH. simpl. apply lookup_insert_is_Some'. by right.
Qed.

Lemma upsert_all_lookup_cases b t k :
  channels (upsert_all b t) !! k = channels t !! k ∨
  ∃ c, c ∈ b ∧ channels (upsert_all b t) !! k = Some c ∧ ch_id c = k.
Proof.
  destruct (channels (upsert_all b t) !! k) as [row|] eqn:Hk.
  - apply upsert_all_lookup in Hk as [Hold|[Hin Hid]]; [by left|].
    right. by exists row.
  - left. symmetry.
    destruct (channels t !! k) as [x|] eqn:Hx; [|done]. exfalso.
    destruct (upsert_all_keeps b t k) as [y Hy]; [by rewrite Hx|]. congruence.
Qed.

(** X6. The first pass writes to [channels] only: the rows of [sources]
    and [programs] are as before, whatever the store raises. A row of
    [channels] after the pass is the row that was there, or a record with
    that id, not empty, declared in the feed, under the source being
    processed. At the close of a channel element whose id is empty nothing
    is counted or kept. *)
Theorem first_pass_writes_declared_channels_only :
  (∀ f sid w k,
     is_Some (sources (store w) !! sid) →
     let r := Sax.parse f (init sid, w) in
     sources (store r.2.2) = sources (store w) ∧
     programs (store r.2.2) = programs (store w) ∧
     (channels (store r.2.2) !! k = channels (store w) !! k ∨
      ∃ c, channels (store r.2.2) !! k = Some c ∧ ch_id c = k ∧ k ≠ "" ∧
           ch_source_id c = sid ∧ k ∈ declared_ids f sid)) ∧
  (∀ h w,
     in_channel h = true → ch_id (current_channel h) = "" →
     endElement "channel" (h, w) =
     (Make (source_id h) (channel_count h) (current_element h) false (current_channel h)
           (buffer h) (channel_batch h) (channel_ids h), w)).
Proof.
  split.
  - intros f sid w k Hsrc r. subst r.
    destruct (Sax.parse f (init sid, w)) as [o [h' w']] eqn:E.
    apply channel_parse_spec in E as (_ & _ & _ & _ & wr & Hsub & Hst & _); [|done].
    simpl. rewrite Hst, upsert_all_sources, upsert_all_programs.
    split_and!; try done.
    destruct (upsert_all_lookup_cases wr (store w) k) as [?|(c & Hin & Hk & Hid)]; [by left|].
    right. exists c. apply Hsub in Hin.
    pose proof (accepted_source _ _ _ (proj1 (batch_ok_init sid)) Hin) as [Hs Hne].
    split_and!; try done; [congruence|].
    rewrite declared_ids_accepted, <- Hid.
    apply elem_of_list_to_set, list_elem_of_fmap. by exists c.
  - intros h w Hin Hid. unfold endElement. rewrite Hin, Hid.
    repeat (case_decide; [done|]). done.
Qed.

Lemma first_pass_writes_declared_channels_only_witness :
  let r := Sax.parse Samples.guide (init "guide.xml", Samples.ready_world) in
  sources (store r.2.2) = sources (store Samples.ready_world) ∧
  programs (store r.2.2) = programs (store Samples.ready_world).
Proof.
  cbv zeta.
  destruct (proj1 first_pass_writes_declared_channels_only Samples.guide "guide.xml"
              Samples.ready_world "c1") as (Hs & Hp & _).
  - eexists. reflexivity.
  - split; [exact Hs|exact Hp].
Defined.

(** X7. Character data that reaches a handler in pieces gives what it
    gives in one piece, and an empty piece changes nothing: the outcome of
    a pass does not depend on how the parser cuts the text. *)
Theorem text_chunks_are_joined :
  (∀ pre post fin a b (s : t * world),
     Sax.parse (Sax.Feed (pre ++ Sax.Characters a :: Sax.Characters b :: post) fin) s =
     Sax.parse (Sax.Feed (pre ++ Sax.Characters (a ++ b)%string :: post) fin) s) ∧
  (∀ pre post fin a b (s : ProgramHandler.t * world),
     Sax.parse (Sax.Feed (pre ++ Sax.Characters a :: Sax.Characters b :: post) fin) s =
     Sax.parse (Sax.Feed (pre ++ Sax.Characters (a ++ b)%string :: post) fin) s) ∧
  (∀ pre post fin (s : t * world),
     Sax.parse (Sax.Feed (pre ++ Sax.Characters "" :: post) fin) s =
     Sax.parse (Sax.Feed (pre ++ post) fin) s) ∧
  (∀ pre post fin (s : ProgramHandler.t * world),
     Sax.parse (Sax.Feed (pre ++ Sax.Characters "" :: post) fin) s =
     Sax.parse (Sax.Feed (pre ++ post) fin) s).
Proof.
  unfold Sax.parse, Sax.run. simpl.
  split_and!; intros; rewrite !fold_left_app; simpl; do 2 f_equal.
  - unfold characters. simpl. by rewrite append_assoc.
  - unfold ProgramHandler.characters. simpl. by rewrite append_assoc.
  - destruct (fold_left _ pre s) as [[] ?]. unfold characters. simpl.
    by rewrite append_nil_r.
  - destruct (fold_left _ pre s) as [[] ?]. unfold ProgramHandler.characters. simpl.
    by rewrite append_nil_r.
Qed.

End FirstPass.

(** ** Counters and batches *)

Section Counters.

Lemma channel_step_open e h :
  (ChannelHandler.channel_count (channel_state [e] h) +
    Z.b2z (ChannelHandler.in_channel (channel_state [e] h)) ≤
  ChannelHandler.channel_count h + Z.b2z (ChannelHandler.in_channel h) +
    Z.b2z (opens "channel" e))%Z.
Proof.
  unfold channel_state, opens. destruct e as [name attrs|content|name]; simpl.
  - unfold ChannelHandler.startElement. case_decide; simpl.
    + rewrite bool_decide_eq_true_2 by done. destruct (ChannelHandler.in_channel h); simpl; lia.
    + rewrite bool_decide_eq_false_2 by done. simpl. lia.
  - lia.
  - unfold ChannelHandler.endElement.
    destruct (ChannelHandler.in_channel h) eqn:Hin; simpl; [|rewrite Hin; simpl; lia].
    repeat case_decide; try (simpl; rewrite ?Hin; simpl; lia).
    + case_match; simpl; rewrite Hin; simpl; lia.
    + destruct (Str.truthy _); [|simpl; lia].
      case_match; [rewrite channel_flush_fst|]; simpl; lia.
Qed.

Lemma program_step_open e h :
  (ProgramHandler.program_count (program_state [e] h) +
    ProgramHandler.skipped_programs (program_state [e] h) +
    Z.b2z (ProgramHandler.in_programme (program_state [e] h)) ≤
  ProgramHandler.program_count h + ProgramHandler.skipped_programs h +
    Z.b2z (ProgramHandler.in_programme h) + Z.b2z (opens "programme" e))%Z.
Proof.
  unfold program_state, opens. destruct e as [name attrs|content|name]; simpl.
  - unfold ProgramHandler.startElement. case_decide; simpl.
    + rewrite bool_decide_eq_true_2 by done.
      case_decide; destruct (ProgramHandler.in_programme h); simpl; lia.
    + rewrite bool_decide_eq_false_2 by done. simpl. lia.
  - lia.
  - unfold ProgramHandler.endElement.
    destruct (ProgramHandler.in_programme h) eqn:Hin; simpl; [|rewrite Hin; simpl; lia].
    repeat case_decide; try (simpl; rewrite ?Hin; simpl; lia).
    destruct (Str.truthy _); [|simpl; lia].
    case_match; [rewrite program_flush_fst|]; simpl; lia.
Qed.

Lemma channel_state_open evs h :
  (ChannelHandler.channel_count (channel_state evs h) +
    Z.b2z (ChannelHandler.in_channel (channel_state evs h)) ≤
  ChannelHandler.channel_count h + Z.b2z (ChannelHandler.in_channel h) +
    Z.of_nat (length (filter (λ e, opens "channel" e = true) evs)))%Z.
Proof.
  revert h. induction evs as [|e evs IH]; intros h.
  { unfold channel_state. simpl. lia. }
  rewrite channel_state_cons.
  pose proof (IH (channel_state [e] h)). pose proof (channel_step_open e h).
  destruct (opens "channel" e) eqn:Ho.
  - rewrite filter_cons_True by done. simpl length. simpl in *. lia.
  - rewrite filter_cons_False by (by rewrite Ho). simpl in *. lia.
Qed.

Lemma program_state_open evs h :
  (ProgramHandler.program_count (program_state evs h) +
    ProgramHandler.skipped_programs (program_state evs h) +
    Z.b2z (ProgramHandler.in_programme (program_state evs h)) ≤
  ProgramHandler.program_count h + ProgramHandler.skipped_programs h +
    Z.b2z (ProgramHandler.in_programme h) +
    Z.of_nat (length (filter (λ e, opens "programme" e = true) evs)))%Z.
Proof.
  revert h. induction evs as [|e evs IH]; intros h.
  { unfold program_state. simpl. lia. }
  rewrite program_state_cons.
  pose proof (IH (program_state [e] h)). pose proof (program_step_open e h).
  destruct (opens "programme" e) eqn:Ho.
  - rewrite filter_cons_True by done. simpl length. simpl in *. lia.
  - rewrite filter_cons_False by (by rewrite Ho). simpl in *. lia.
Qed.

(** X8. No element is counted twice, whatever the order of the callbacks
    and whatever the store does: the channel count is at most the number of
    channel elements opened, and the programme count and the skipped count
    together are at most the number of programme elements opened. *)
Theorem counts_bounded_by_elements :
  (∀ evs sid w,
     (ChannelHandler.channel_count (Sax.run evs (ChannelHandler.init sid, w)).1 ≤
      Z.of_nat (length (filter (λ e, opens "channel" e = true) evs)))%Z) ∧
  (∀ evs ids w,
     (ProgramHandler.program_count (Sax.run evs (ProgramHandler.init ids, w)).1 +
      ProgramHandler.skipped_programs (Sax.run evs (ProgramHandler.init ids, w)).1 ≤
      Z.of_nat (length (filter (λ e, opens "programme" e = true) evs)))%Z).
Proof.
  split.
  - intros evs sid w. rewrite channel_run_fst.
    pose proof (channel_state_open evs (ChannelHandler.init sid)) as H. simpl in H.
    destruct (ChannelHandler.in_channel _); simpl in H; lia.
  - intros evs ids w. rewrite program_run_fst.
    pose proof (program_state_open evs (ProgramHandler.init ids)) as H. simpl in H.
    destruct (ProgramHandler.in_programme _); simpl in H; lia.
Qed.

End Counters.

(** ** The size of a batch *)

Section BatchSize.

Lemma accepts_length e h : (length (accepts h e) ≤ 1)%nat.
Proof.
  unfold accepts. destruct e; simpl; try lia. destruct (_ && _); simpl; lia.
Qed.

Lemma admits_length e h : (length (admits h e) ≤ 1)%nat.
Proof.
  unfold admits. destruct e; simpl; try lia. destruct (_ && _); simpl; lia.
Qed.

Lemma channel_step_batch e h :
  ChannelHandler.channel_batch (channel_state [e] h) =
  match accepts h e with
  | [] => ChannelHandler.channel_batch h
  | l => if (batch_size <=? Z.of_nat (length (ChannelHandler.channel_batch h ++ l)))%Z
         then [] else ChannelHandler.channel_batch h ++ l
  end.
Proof.
  unfold channel_state, accepts. destruct e as [name attrs|content|name]; simpl.
  - unfold ChannelHandler.startElement. by case_decide.
  - done.
  - unfold ChannelHandler.endElement.
    destruct (ChannelHandler.in_channel h) eqn:Hin; simpl; [|done].
    case_decide; [subst; by rewrite bool_decide_eq_false_2|].
    case_decide; [subst; rewrite bool_decide_eq_false_2 by done; by case_match|].
    case_decide; [|by rewrite bool_decide_eq_false_2].
    rewrite bool_decide_eq_true_2 by done.
    destruct (Str.truthy _); simpl; [|done].
    case_match; [by rewrite channel_flush_fst|done].
Qed.

Lemma program_step_batch e h :
  ProgramHandler.program_batch (program_state [e] h) =
  match admits h e with
  | [] => ProgramHandler.program_batch h
  | l => if (batch_size <=? Z.of_nat (length (ProgramHandler.program_batch h ++ l)))%Z
         then [] else ProgramHandler.program_batch h ++ l
  end.
Proof.
  unfold program_state, admits. destruct e as [name attrs|content|name]; simpl.
  - unfold ProgramHandler.startElement. by repeat case_decide.
  - done.
  - unfold ProgramHandler.endElement.
    destruct (ProgramHandler.in_programme h) eqn:Hin; simpl; [|done].
    case_decide; [subst; by rewrite bool_decide_eq_false_2|].
    case_decide; [subst; by rewrite bool_decide_eq_false_2|].
    case_decide; [subst; by rewrite bool_decide_eq_false_2|].
    case_decide; [|by rewrite bool_decide_eq_false_2].
    rewrite bool_decide_eq_true_2 by done.
    destruct (Str.truthy _); simpl; [|done].
    case_match; [by rewrite program_flush_fst|done].
Qed.

Lemma channel_state_batch evs h :
  (Z.of_nat (length (ChannelHandler.channel_batch h)) < batch_size)%Z →
  Z.of_nat (length (ChannelHandler.channel_batch (channel_state evs h))) =
  ((Z.of_nat (length (ChannelHandler.channel_batch h)) +
    Z.of_nat (length (accepted evs h))) mod batch_size)%Z.
Proof.
  unfold batch_size. revert h. induction evs as [|e evs IH]; intros h Hlt.
  { unfold channel_state. simpl. rewrite Z.add_0_r, Z.mod_small; lia. }
  rewrite channel_state_cons, accepted_cons, length_app.
  pose proof (accepts_length e h) as Ha.
  pose proof (channel_step_batch e h) as Hb. unfold batch_size in Hb.
  assert (Hn : (Z.of_nat (length (ChannelHandler.channel_batch (channel_state [e] h))) =
                (Z.of_nat (length (ChannelHandler.channel_batch h)) +
                 Z.of_nat (length (accepts h e))) mod 1000)%Z).
  { rewrite Hb. destruct (accepts h e) as [|c l] eqn:Hacc.
    - simpl. rewrite Z.add_0_r, Z.mod_small; lia.
    - destruct l; [|simpl in Ha; lia]. rewrite length_app. simpl length.
      destruct (Z.leb_spec 1000 (Z.of_nat (length (ChannelHandler.channel_batch h) + 1))).
      + replace (Z.of_nat (length (ChannelHandler.channel_batch h)) + Z.of_nat 1)%Z
          with 1000%Z by lia. done.
      + rewrite ?length_app. simpl length. rewrite Z.mod_small; lia. }
  rewrite IH.
  - rewrite Hn, Z.add_mod_idemp_l by lia. f_equal. lia.
  - rewrite Hn. apply Z.mod_pos_bound. lia.
Qed.

Lemma program_state_batch evs h :
  (Z.of_nat (length (ProgramHandler.program_batch h)) < batch_size)%Z →
  Z.of_nat (length (ProgramHandler.program_batch (program_state evs h))) =
  ((Z.of_nat (length (ProgramHandler.program_batch h)) +
    Z.of_nat (length (admitted evs h))) mod batch_size)%Z.
Proof.
  unfold batch_size. revert h. induction evs as [|e evs IH]; intros h Hlt.
  { unfold program_state. simpl. rewrite Z.add_0_r, Z.mod_small; lia. }
  rewrite program_state_cons, admitted_cons, length_app.
  pose proof (admits_length e h) as Ha.
  pose proof (program_step_batch e h) as Hb. unfold batch_size in Hb.
  assert (Hn : (Z.of_nat (length (ProgramHandler.program_batch (program_state [e] h))) =
                (Z.of_nat (length (ProgramHandler.program_batch h)) +
                 Z.of_nat (length (admits h e))) mod 1000)%Z).
  { rewrite Hb. destruct (admits h e) as [|c l] eqn:Hacc.
    - simpl. rewrite Z.add_0_r, Z.mod_small; lia.
    - destruct l; [|simpl in Ha; lia]. rewrite length_app. simpl length.
      destruct (Z.leb_spec 1000 (Z.of_nat (length (ProgramHandler.program_batch h) + 1))).
      + replace (Z.of_nat (length (ProgramHandler.program_batch h)) + Z.of_nat 1)%Z
          with 1000%Z by lia. done.
      + rewrite ?length_app. simpl length. rewrite Z.mod_small; lia. }
  rewrite IH.
  - rewrite Hn, Z.add_mod_idemp_l by lia. f_equal. lia.
  - rewrite Hn. apply Z.mod_pos_bound. lia.
Qed.

(** X9. Between two callbacks a handler holds in its batch the number of
    records taken so far modulo 1000, hence fewer than 1000, whatever the
    store does. When the parser raises on a store that raises nothing,
    what the first pass has written is the first 1000 * (n / 1000) of the n
    records it had accepted: full batches only. *)
Theorem batches_hold_less_than_a_thousand :
  (∀ evs sid w,
     Z.of_nat (length (ChannelHandler.channel_batch (Sax.run evs (ChannelHandler.init sid, w)).1))
     = (Z.of_nat (length (accepted evs (ChannelHandler.init sid))) mod 1000)%Z) ∧
  (∀ evs ids w,
     Z.of_nat (length (ProgramHandler.program_batch (Sax.run evs (ProgramHandler.init ids, w)).1))
     = (Z.of_nat (length (admitted evs (ProgramHandler.init ids))) mod 1000)%Z) ∧
  (∀ f sid w,
     Sax.final f = Sax.SAXException → faults w = [] →
     is_Some (sources (store w) !! sid) →
     let n := length (accepted (Sax.events f) (ChannelHandler.init sid)) in
     store (Sax.parse f (ChannelHandler.init sid, w)).2.2 =
     upsert_all (take (1000 * (n / 1000)) (accepted (Sax.events f) (ChannelHandler.init sid)))
                (store w)).
Proof.
  split_and!.
  - intros evs sid w. rewrite channel_run_fst, channel_state_batch; [done|]. simpl.
    unfold batch_size. lia.
  - intros evs ids w. rewrite program_run_fst, program_state_batch; [done|]. simpl.
    unfold batch_size. lia.
  - intros f sid w Hfin Hq Hsrc n.
    destruct (Sax.parse f (ChannelHandler.init sid, w)) as [o [h' w']] eqn:E.
    apply channel_parse_spec in E as (_ & _ & _ & _ & wr & _ & Hst & Hwr); [|done].
    destruct (Hwr Hq) as [_ ->]. cbn [fst snd]. rewrite Hst. f_equal.
    unfold written_channels. rewrite Hfin. f_equal. fold n.
    pose proof (channel_state_batch (Sax.events f) (ChannelHandler.init sid)) as Hb.
    simpl in Hb. unfold batch_size in Hb. fold n in Hb.
    specialize (Hb ltac:(lia)).
    pose proof (Nat.div_mod_eq n 1000) as Hdiv.
    assert (Hmod : length (ChannelHandler.channel_batch
                             (channel_state (Sax.events f) (ChannelHandler.init sid)))
                   = (n mod 1000)%nat).
    { apply Nat2Z.inj. rewrite Hb, Nat2Z.inj_mod. done. }
    rewrite Hmod. lia.
Qed.

Lemma batches_hold_less_than_a_thousand_witness :
  Sax.final Samples.truncated = Sax.SAXException ∧ faults Samples.ready_world = [] ∧
  store (Sax.parse Samples.truncated (ChannelHandler.init "guide.xml", Samples.ready_world)).2.2
  = store Samples.ready_world.
Proof.
  split; [reflexivity|]. split; [reflexivity|].
  destruct batches_hold_less_than_a_thousand as (_ & _ & H).
  rewrite (H Samples.truncated "guide.xml" Samples.ready_world);
    [reflexivity|reflexivity|reflexivity|eexists; reflexivity].
Defined.

End BatchSize.

(** ** Transactions *)

Section Transactions.

Lemma rollback_closed w : txn (Sql.rollback w) = None.
Proof. unfold Sql.rollback. by destruct (txn w) eqn:Ht. Qed.

Lemma channel_flush_txn h w :
  txn w = None → txn (ChannelHandler._process_channel_batch (h, w)).2 = None.
Proof.
  intros Ht. unfold ChannelHandler._process_channel_batch.
  destruct (ChannelHandler.channel_batch h); [done|].
  destruct (ChannelHandler.write_batch _ _) as [o w1].
  destruct o; simpl; try apply rollback_closed.
  destruct (Sql.commit w1) as [o2 w2] eqn:E2.
  apply commit_spec in E2 as (_ & _ & _ & _ & H).
  destruct o2; simpl; [done|apply rollback_closed..].
Qed.

Lemma program_flush_txn h w :
  txn w = None → txn (ProgramHandler._process_program_batch (h, w)).2 = None.
Proof.
  intros Ht. unfold ProgramHandler._process_program_batch.
  destruct (ProgramHandler.program_batch h); [done|].
  destruct (ProgramHandler.write_batch _ _) as [o w1].
  destruct o; simpl; try apply rollback_closed.
  destruct (Sql.commit w1) as [o2 w2] eqn:E2.
  apply commit_spec in E2 as (_ & _ & _ & _ & H).
  destruct o2; simpl; [done|apply rollback_closed..].
Qed.

Lemma channel_run_txn evs (h : ChannelHandler.t) w :
  txn w = None → txn (Sax.run evs (h, w)).2 = None.
Proof.
  revert h w. induction evs as [|e evs IH]; intros h w Ht; [done|].
  change (Sax.run (e :: evs) (h, w)) with (Sax.run evs (Sax.dispatch (h, w) e)).
  destruct (Sax.dispatch (h, w) e) as [h1 w1] eqn:E.
  apply IH.
  apply channel_dispatch_world in E as [[-> _]|(h2 & _ & _ & _ & _ & E)]; [done|].
  pose proof (channel_flush_txn h2 w Ht) as H. by rewrite <- E in H.
Qed.

Lemma program_run_txn evs (h : ProgramHandler.t) w :
  txn w = None → txn (Sax.run evs (h, w)).2 = None.
Proof.
  revert h w. induction evs as [|e evs IH]; intros h w Ht; [done|].
  change (Sax.run (e :: evs) (h, w)) with (Sax.run evs (Sax.dispatch (h, w) e)).
  destruct (Sax.dispatch (h, w) e) as [h1 w1] eqn:E.
  apply IH.
  apply program_dispatch_world in E as [[-> _]|(h2 & _ & _ & E)]; [done|].
  pose proof (program_flush_txn h2 w Ht) as H. by rewrite <- E in H.
Qed.

Lemma channel_parse_txn f (h : ChannelHandler.t) w :
  txn w = None → txn (Sax.parse f (h, w)).2.2 = None.
Proof.
  intros Ht. unfold Sax.parse.
  pose proof (channel_run_txn (Sax.events f) h w Ht) as Hr.
  destruct (Sax.run (Sax.events f) (h, w)) as [h1 w1]. simpl in Hr.
  destruct (Sax.final f); [|done]. simpl. unfold ChannelHandler.endDocument. simpl.
  destruct (ChannelHandler.channel_batch h1) eqn:Hb; [done|].
  pose proof (channel_flush_txn h1 w1 Hr) as Hf.
  by destruct (ChannelHandler._process_channel_batch (h1, w1)).
Qed.

Lemma program_parse_txn f (h : ProgramHandler.t) w :
  txn w = None → txn (Sax.parse f (h, w)).2.2 = None.
Proof.
  intros Ht. unfold Sax.parse.
  pose proof (program_run_txn (Sax.events f) h w Ht) as Hr.
  destruct (Sax.run (Sax.events f) (h, w)) as [h1 w1]. simpl in Hr.
  destruct (Sax.final f); [|done]. simpl. unfold ProgramHandler.endDocument. simpl.
  destruct (ProgramHandler.program_batch h1) eqn:Hb; [done|].
  pose proof (program_flush_txn h1 w1 Hr) as Hf.
  by destruct (ProgramHandler._process_program_batch (h1, w1)).
Qed.

Lemma update_statistics_txn now p w : txn (TwoPassEPGParser.update_statistics now (p, w)) = None.
Proof.
  unfold TwoPassEPGParser.update_statistics.
  destruct (Sql.update_source _ _ _ _ _) as [o w1].
  destruct o; try apply rollback_closed.
  destruct (Sql.commit w1) as [o2 w2] eqn:E2.
  apply commit_spec in E2 as (_ & _ & _ & _ & H).
  destruct o2; simpl; [done|apply rollback_closed..].
Qed.

(** X10. Every transaction a run opens is closed again, by a COMMIT or a
    ROLLBACK, whatever the feed is and whatever the store raises: a pass
    that starts with no transaction open ends with none open, after
    [parse] none is open, and after [process_source] none is open if none
    was open before. *)
Theorem no_transaction_left_open :
  (∀ f (h : ChannelHandler.t) w, txn w = None → txn (Sax.parse f (h, w)).2.2 = None) ∧
  (∀ f (h : ProgramHandler.t) w, txn w = None → txn (Sax.parse f (h, w)).2.2 = None) ∧
  (∀ fs now s, txn (TwoPassEPGParser.parse fs now s).2.2 = None) ∧
  (∀ md5_hexdigest download_file fs url now w,
     txn w = None →
     txn (process_source md5_hexdigest download_file fs url now w).2 = None).
Proof.
  assert (Hparse : ∀ fs now s, txn (TwoPassEPGParser.parse fs now s).2.2 = None).
  { intros fs now [p w]. unfold TwoPassEPGParser.parse.
    destruct (TwoPassEPGParser._first_pass _ _) as [? [p1 w1]].
    destruct (TwoPassEPGParser._second_pass _ _) as [? [p2 w2]].
    pose proof (update_statistics_txn now p2 w2) as Hu.
    simpl. by destruct (0 <? _)%Z. }
  split; [apply channel_parse_txn|]. split; [apply program_parse_txn|].
  split; [done|].
  intros md5_hexdigest download_file fs url now w Ht.
  rewrite process_source_spec.
  destruct (local_path download_file url) as [path|]; [|done].
  unfold parse_epg_file.
  specialize (Hparse fs now (TwoPassEPGParser.init path (md5_hexdigest url),
    World (prepared (md5_hexdigest url) url (store_clock w) (store w)) (txn w) (faults w)
          (store_clock w) (log w ++ [DeletedExisting]))).
  by destruct (TwoPassEPGParser.parse _ _ _) as [? [? ?]].
Qed.

Lemma no_transaction_left_open_witness :
  txn Samples.failing_commit = None ∧
  txn (process_source Samples.same Samples.fetched (Samples.only Samples.guide)
                      "guide.xml" "2024-01-02T00:00:00" Samples.failing_commit).2 = None.
Proof.
  split; [reflexivity|].
  destruct no_transaction_left_open as (_ & _ & _ & H). apply H. reflexivity.
Defined.

End Transactions.

(** ** Whole runs *)

Section Runs.

Variable md5_hexdigest : string → string.
Variable download_file : string → option string.
Variable fs : string → Sax.feed.

Lemma parse_reports_true now s : (TwoPassEPGParser.parse fs now s).1 = true.
Proof.
  destruct s as [p w]. unfold TwoPassEPGParser.parse.
  destruct (TwoPassEPGParser._first_pass _ _) as [? [? ?]].
  by destruct (TwoPassEPGParser._second_pass _ _) as [? [? ?]].
Qed.

Lemma process_source_result url now w :
  (process_source md5_hexdigest download_file fs url now w).1 =
  bool_decide (is_Some (local_path download_file url)).
Proof.
  rewrite process_source_spec. destruct (local_path download_file url) as [path|].
  - rewrite bool_decide_eq_true_2 by by eexists. unfold parse_epg_file.
    pose proof (parse_reports_true now
      (TwoPassEPGParser.init path (md5_hexdigest url),
       World (prepared (md5_hexdigest url) url (store_clock w) (store w)) (txn w) (faults w)
             (store_clock w) (log w ++ [DeletedExisting]))) as H.
    by destruct (TwoPassEPGParser.parse _ _ _) as [? [? ?]].
  - rewrite bool_decide_eq_false_2; [done|]. by intros [? ?].
Qed.

Lemma process_source_fk url now w :
  fk_ok (store w) →
  fk_ok (store (process_source md5_hexdigest download_file fs url now w).2).
Proof.
  intros Hfk. rewrite process_source_spec.
  destruct (local_path download_file url) as [path|].
  - apply parse_epg_file_fk; [by apply prepared_fk|apply prepared_source].
  - by apply delete_source_fk.
Qed.

(** X11. Processing a source, and processing a list of sources one after
    the other, keeps the references of the store whole (every channel has
    its source, every programme its channel), whatever the feeds are and
    whatever the store raises. *)
Theorem references_stay_whole :
  (∀ url now w,
     fk_ok (store w) →
     fk_ok (store (process_source md5_hexdigest download_file fs url now w).2)) ∧
  (∀ srcs n w,
     fk_ok (store w) →
     fk_ok (store (process_all md5_hexdigest download_file fs srcs n w).2)).
Proof.
  split; [apply process_source_fk|].
  intros srcs. induction srcs as [|[url now] srcs IH]; intros n w Hfk; [done|].
  simpl. pose proof (process_source_fk url now w Hfk) as H.
  destruct (process_source _ _ _ url now w) as [ok w1]. by apply IH.
Qed.

(** X12. The driver counts a source as a success exactly when a local
    file was obtained for it: the count after the loop is the count before
    plus the number of sources whose download did not fail, whatever the
    feeds contain and whatever the store raises. *)
Theorem success_count_counts_downloads srcs n w :
  (process_all md5_hexdigest download_file fs srcs n w).1 =
  (n + Z.of_nat (length (filter (λ x, is_Some (local_path download_file x.1)) srcs)))%Z.
Proof.
  revert n w. induction srcs as [|[url now] srcs IH]; intros n w; [simpl; lia|].
  simpl process_all.
  pose proof (process_source_result url now w) as H.
  destruct (process_source _ _ _ url now w) as [ok w1]. simpl in H. subst ok.
  rewrite IH. case_bool_decide.
  - rewrite filter_cons_True by done. simpl length. lia.
  - rewrite filter_cons_False by done. lia.
Qed.

End Runs.

Lemma references_stay_whole_witness :
  fk_ok (store Samples.other_world) ∧
  fk_ok (store (process_source Samples.same Samples.fetched (Samples.only Samples.shared)
                               "guide.xml" "2024-01-02T00:00:00" Samples.other_world).2).
Proof.
  split; [exact other_tables_fk|].
  apply (proj1 (references_stay_whole Samples.same Samples.fetched
                  (Samples.only Samples.shared))).
  exact other_tables_fk.
Defined.

(** ** What a run leaves in the store *)

Section Outcome.

Variable md5_hexdigest : string → string.
Variable download_file : string → option string.
Variable fs : string → Sax.feed.

Lemma upsert_all_lookup_in b t c0 :
  c0 ∈ b →
  ∃ c, channels (upsert_all b t) !! ch_id c0 = Some c ∧ c ∈ b ∧ ch_id c = ch_id c0.
Proof.
  revert t. induction b as [|c b IH]; intros t Hin; [by apply elem_of_nil in Hin|].
  simpl. apply elem_of_cons in Hin as [->|Hb].
  - destruct (upsert_all_lookup_cases b (put_channel c t) (ch_id c))
      as [Heq|(c' & Hc' & Hk & Hid)].
    + exists c. rewrite Heq. simpl. rewrite lookup_insert_eq. split_and!; [done|by left|done].
    + exists c'. split_and!; [done|by right|done].
  - destruct (IH (put_channel c t) Hb) as (c' & Hk & Hc' & Hid).
    exists c'. split_and!; [done|by right|done].
Qed.

(** X13. On a store that raises nothing and keeps its references, after a
    source whose document ends well is processed, the channels the store
    holds for the source are those with the ids the feed declares, the set
    the second pass was given, whoever held those ids before. *)
Theorem persisted_channels_are_the_declared_ids url now w path :
  fk_ok (store w) → faults w = [] →
  local_path download_file url = Some path →
  Sax.final (fs path) = Sax.EndDocument →
  let sid := md5_hexdigest url in
  let r := process_source md5_hexdigest download_file fs url now w in
  dom (channels_of sid (store r.2)) = declared_ids (fs path) sid ∧
  first_pass_ids (fs path) sid = declared_ids (fs path) sid.
Proof.
  intros Hfk Hq Hpath Hfin sid r. subst r.
  split; [|unfold first_pass_ids; by rewrite Hfin].
  rewrite process_source_spec, Hpath. fold sid.
  set (wA := World (prepared sid url (store_clock w) (store w)) (txn w) (faults w)
                   (store_clock w) (log w ++ [DeletedExisting])).
  unfold parse_epg_file.
  destruct (parse_spec fs now path sid wA (prepared_source sid url _ _))
    as (p1 & w1 & E1 & _ & _ & _ & _ & _ & _ & wc & wp & _ & _ & Hc1 & _ & _ & Hq1).
  rewrite E1. simpl.
  destruct (Hq1 Hq) as (_ & -> & _). clear Hq1.
  unfold written_channels in Hc1. rewrite Hfin in Hc1.
  set (W := accepted (Sax.events (fs path)) (ChannelHandler.init sid)) in *.
  assert (HA : channels_of sid (store wA) = ∅).
  { unfold channels_of. simpl. by apply delete_source_channels_of. }
  apply set_eq. intros k. rewrite elem_of_dom, declared_ids_accepted.
  fold W. rewrite elem_of_list_to_set, list_elem_of_fmap. split.
  - intros [c [Hk Hs]%channels_of_lookup]. rewrite Hc1 in Hk.
    apply upsert_all_lookup in Hk as [Hold|[Hin Hid]]; [|by exists c].
    exfalso. assert (Hx : channels_of sid (store wA) !! k = Some c)
      by (by apply channels_of_lookup).
    by rewrite HA, lookup_empty in Hx.
  - intros (c0 & -> & Hin).
    destruct (upsert_all_lookup_in W (store wA) c0 Hin) as (c & Hk & Hc & Hid).
    exists c. apply channels_of_lookup. rewrite Hc1. split; [done|].
    by apply (accepted_source _ _ _ (proj1 (batch_ok_init sid))) in Hc as [? _].
Qed.

(** X14. When the parser raises, the parse still reports success, with
    zero channels, zero programmes and zero skipped, and hands the second
    pass an empty id set: no programme row is written or changed, whatever
    the store does. *)
Theorem failed_first_pass_writes_no_programme now path sid w :
  is_Some (sources (store w) !! sid) →
  Sax.final (fs path) = Sax.SAXException →
  let r := TwoPassEPGParser.parse fs now (TwoPassEPGParser.init path sid, w) in
  r.1 = true ∧
  TwoPassEPGParser.channel_ids r.2.1 = ∅ ∧
  TwoPassEPGParser.channel_count r.2.1 = 0 ∧
  TwoPassEPGParser.program_count r.2.1 = 0 ∧
  TwoPassEPGParser.skipped_programs r.2.1 = 0 ∧
  programs (store r.2.2) = programs (store w).
Proof.
  intros Hsrc Hfin r. subst r.
  destruct (parse_spec fs now path sid w Hsrc)
    as (p1 & w1 & E1 & _ & Hids & Hcc & Hpc & Hsk & _ & wc & wp & _ & Hwp & _ & Hp1 & _).
  rewrite E1. simpl. rewrite Hfin in *.
  unfold first_pass_ids in *. rewrite Hfin in *.
  split_and!; try done.
  rewrite Hp1.
  destruct wp as [|p wp].
  - simpl. apply upsert_all_programs.
  - exfalso. assert (Hin : p ∈ p :: wp) by by left.
    apply Hwp in Hin. apply (admitted_ok _ []) in Hin as [(attrs & _ & Habs & _) _]; [|done].
    simpl in Habs. by apply not_elem_of_empty in Habs.
Qed.

(** X15. After a source for which a file was obtained is processed, its
    row has the id and the url of the source, the last segment of the url
    as name and no file path, whatever happens during the parse. Its last
    update is the clock reading of the parse, or, when the update of the
    statistics failed, the default of the store with both counts at zero. *)
Theorem source_row_after_processing url now w path :
  local_path download_file url = Some path →
  let sid := md5_hexdigest url in
  let r := process_source md5_hexdigest download_file fs url now w in
  ∃ row, sources (store r.2) !! sid = Some row ∧
         src_id row = sid ∧ src_name row = last_segment url "" ∧
         src_url row = Some url ∧ src_file_path row = None ∧
         (src_last_updated row = now ∨
          (src_last_updated row = store_clock w ∧
           src_channel_count row = 0 ∧ src_program_count row = 0)) ∧
         (faults w = [] → src_last_updated row = now).
Proof.
  intros Hpath sid r. subst r. rewrite process_source_spec, Hpath. fold sid.
  set (wA := World (prepared sid url (store_clock w) (store w)) (txn w) (faults w)
                   (store_clock w) (log w ++ [DeletedExisting])).
  unfold parse_epg_file.
  destruct (parse_spec fs now path sid wA (prepared_source sid url _ _))
    as (p1 & w1 & E1 & _ & _ & _ & _ & _ & _ & wc & wp & _ & _ & _ & _ & Hs & Hq1).
  rewrite E1. simpl.
  assert (Hrow : sources (store wA) !! sid =
                 Some (SourceRow sid (last_segment url "") (Some url) None 0 0 (store_clock w))).
  { simpl. apply lookup_insert_eq. }
  destruct (decide (faults w = [])) as [Hf|Hf].
  - destruct (Hq1 Hf) as (_ & _ & _ & r & Hr & ->).
    rewrite Hrow in Hr. injection Hr as <-. eexists. rewrite lookup_insert_eq.
    split; [done|]. simpl. split_and!; try done. by left.
  - destruct Hs as [->|(r & Hr & ->)].
    + eexists. split; [exact Hrow|]. simpl. split_and!; try done. by right.
    + rewrite Hrow in Hr. injection Hr as <-. eexists. rewrite lookup_insert_eq.
      split; [done|]. simpl. split_and!; try done. by left.
Qed.

End Outcome.

Lemma persisted_channels_are_the_declared_ids_witness :
  dom (channels_of "guide.xml"
         (store (process_source Samples.same Samples.fetched (Samples.only Samples.shared)
                                "guide.xml" "2024-01-02T00:00:00" Samples.other_world).2)) =
  declared_ids Samples.shared "guide.xml" ∧
  first_pass_ids Samples.shared "guide.xml" = declared_ids Samples.shared "guide.xml".
Proof.
  apply (persisted_channels_are_the_declared_ids Samples.same Samples.fetched
           (Samples.only Samples.shared) "guide.xml" "2024-01-02T00:00:00"
           Samples.other_world "guide.xml");
    [exact other_tables_fk|reflexivity|reflexivity|reflexivity].
Defined.

Lemma failed_first_pass_writes_no_programme_witness :
  programs (store (TwoPassEPGParser.parse (Samples.only Samples.truncated) "2024-01-02T00:00:00"
                     (TwoPassEPGParser.init "guide.xml" "guide.xml", Samples.ready_world)).2.2) =
  programs (store Samples.ready_world).
Proof.
  destruct (failed_first_pass_writes_no_programme (Samples.only Samples.truncated)
              "2024-01-02T00:00:00" "guide.xml" "guide.xml" Samples.ready_world)
    as (_ & _ & _ & _ & _ & H); [by eexists|reflexivity|exact H].
Defined.

Lemma source_row_after_processing_witness :
  ∃ row, sources (store (process_source Samples.same Samples.fetched (Samples.only Samples.guide)
                           "http://epg.example/xmltv/guide.xml" "2024-01-02T00:00:00"
                           Samples.failing_commit).2)
         !! "http://epg.example/xmltv/guide.xml" = Some row ∧
         src_name row = last_segment "http://epg.example/xmltv/guide.xml" "" ∧
         src_file_path row = None.
Proof.
  destruct (source_row_after_processing Samples.same Samples.fetched (Samples.only Samples.guide)
              "http://epg.example/xmltv/guide.xml" "2024-01-02T00:00:00" Samples.failing_commit
              "http://epg.example/xmltv/guide.xml" eq_refl)
    as (row & Hrow & _ & Hname & _ & Hpath & _).
  exists row. split; [exact Hrow|]. split; [exact Hname|exact Hpath].
Defined.

(** ** The name of a source *)

Section SourceName.

Lemma last_segment_plain s acc :
  Str.contains "/" s = false → last_segment s acc = (acc ++ s)%string.
Proof.
  revert acc. induction s as [|c s IH]; intros acc Hs.
  - simpl. by rewrite append_nil_r.
  - rewrite contains1_cons in Hs. apply orb_false_iff in Hs as [Hc%bool_decide_eq_false Hs].
    simpl. destruct (decide (c = "/"%char)) as [->|_]; [done|].
    rewrite IH by done. by rewrite append_assoc.
Qed.

Lemma last_segment_after a b acc :
  Str.contains "/" b = false → last_segment (a ++ String "/" b) acc = b.
Proof.
  intros Hb. revert acc. induction a as [|c a IH]; intros acc.
  - change ("" ++ String "/" b)%string with (String "/" b). simpl.
    by rewrite last_segment_plain.
  - rewrite append_cons. simpl. destruct (decide (c = "/"%char)); apply IH.
Qed.

Lemma last_segment_clean s acc :
  Str.contains "/" acc = false → Str.contains "/" (last_segment s acc) = false.
Proof.
  revert acc. induction s as [|c s IH]; intros acc Hacc; [done|].
  simpl. destruct (decide (c = "/"%char)) as [->|Hne]; [by apply IH|].
  apply IH. rewrite contains1_append, Hacc, contains1_cons, contains1_nil.
  rewrite bool_decide_eq_false_2 by done. done.
Qed.

(** X16. The name given to a source is what follows the last "/" of its
    url: a url without "/" is its own name, the name of a url that ends in
    "/" followed by a text without "/" is that text, and the name never
    holds a "/". A url that ends in "/" has the empty name. *)
Theorem source_name_follows_the_last_slash :
  (∀ url, Str.contains "/" url = false → last_segment url "" = url) ∧
  (∀ a b, Str.contains "/" b = false → last_segment (a ++ "/" ++ b) "" = b) ∧
  (∀ url, Str.contains "/" (last_segment url "") = false) ∧
  (∀ a, last_segment (a ++ "/") "" = "").
Proof.
  split_and!.
  - intros url Hu. by rewrite last_segment_plain.
  - intros a b Hb. by apply last_segment_after.
  - intros url. by apply last_segment_clean.
  - intros a. by apply (last_segment_after a "").
Qed.

Lemma source_name_follows_the_last_slash_witness :
  last_segment ("https://epg.pw/xmltv" ++ "/" ++ "epg_US.xml") "" = "epg_US.xml".
Proof.
  apply (proj1 (proj2 source_name_follows_the_last_slash) "https://epg.pw/xmltv" "epg_US.xml").
  reflexivity.
Defined.

End SourceName.

(** ** The text of an element *)

Section ElementText.

Lemma concat_cons x xs : String.concat "" (x :: xs) = (x ++ String.concat "" xs)%string.
Proof. destruct xs; [|done]. simpl. by rewrite append_nil_r. Qed.

Lemma program_chars cs (h : ProgramHandler.t) w :
  Sax.run (Sax.Characters <$> cs) (h, w) =
  (ProgramHandler.Make (ProgramHandler.channel_ids h) (ProgramHandler.program_count h)
     (ProgramHandler.skipped_programs h) (ProgramHandler.current_element h)
     (ProgramHandler.in_programme h) (ProgramHandler.current_program h)
     (ProgramHandler.buffer h ++ String.concat "" cs)%string (ProgramHandler.program_batch h), w).
Proof.
  revert h. induction cs as [|c cs IH]; intros h.
  - simpl. rewrite append_nil_r. by destruct h.
  - change (Sax.run (Sax.Characters <$> c :: cs) (h, w))
      with (Sax.run (Sax.Characters <$> cs) (ProgramHandler.characters c h, w)).
    rewrite IH, concat_cons. simpl. by rewrite append_assoc.
Qed.

Lemma channel_chars cs (h : ChannelHandler.t) w :
  Sax.run (Sax.Characters <$> cs) (h, w) =
  (ChannelHandler.Make (ChannelHandler.source_id h) (ChannelHandler.channel_count h)
     (ChannelHandler.current_element h) (ChannelHandler.in_channel h)
     (ChannelHandler.current_channel h)
     (ChannelHandler.buffer h ++ String.concat "" cs)%string
     (ChannelHandler.channel_batch h) (ChannelHandler.channel_ids h), w).
Proof.
  revert h. induction cs as [|c cs IH]; intros h.
  - simpl. rewrite append_nil_r. by destruct h.
  - change (Sax.run (Sax.Characters <$> c :: cs) (h, w))
      with (Sax.run (Sax.Characters <$> cs) (ChannelHandler.characters c h, w)).
    rewrite IH, concat_cons. simpl. by rewrite append_assoc.
Qed.

(** X17. The text of an element is what came after the latest start tag,
    whatever element that tag opened: inside a programme element the close
    of a title element sets the title to the trimmed text received since
    the last start tag and leaves the rest of the record, the counters, the
    batch and the store as they are, so text that stands before a child
    element of the title is lost. The same holds for the display name of a
    channel in the first pass. *)
Theorem element_text_starts_at_the_latest_start_tag :
  (∀ (h : ProgramHandler.t) w n attrs cs,
     ProgramHandler.in_programme h = true → n ≠ "programme" →
     Sax.run (Sax.StartElement n attrs :: (Sax.Characters <$> cs) ++ [Sax.EndElement "title"])
             (h, w) =
     (let p := ProgramHandler.current_program h in
      ProgramHandler.Make (ProgramHandler.channel_ids h) (ProgramHandler.program_count h)
        (ProgramHandler.skipped_programs h) (Some n) true
        (Program (pr_id p) (pr_channel_id p) (Str.strip (String.concat "" cs))
                 (pr_description p) (pr_start p) (pr_stop p) (pr_category p))
        (String.concat "" cs) (ProgramHandler.program_batch h), w)) ∧
  (∀ (h : ChannelHandler.t) w n attrs cs,
     ChannelHandler.in_channel h = true → n ≠ "channel" →
     Sax.run (Sax.StartElement n attrs :: (Sax.Characters <$> cs) ++
              [Sax.EndElement "display-name"]) (h, w) =
     (let c := ChannelHandler.current_channel h in
      ChannelHandler.Make (ChannelHandler.source_id h) (ChannelHandler.channel_count h)
        (Some n) true
        (Channel (ch_id c) (ch_source_id c) (Str.strip (String.concat "" cs)) (ch_icon c))
        (String.concat "" cs) (ChannelHandler.channel_batch h) (ChannelHandler.channel_ids h),
      w)).
Proof.
  split.
  - intros h w n attrs cs Hin Hn.
    change (Sax.run (Sax.StartElement n attrs :: (Sax.Characters <$> cs) ++
                     [Sax.EndElement "title"]) (h, w))
      with (Sax.run ((Sax.Characters <$> cs) ++ [Sax.EndElement "title"])
                    (ProgramHandler.startElement n attrs h, w)).
    unfold Sax.run. rewrite fold_left_app.
    pose proof (program_chars cs (ProgramHandler.startElement n attrs h) w) as Hc.
    unfold Sax.run in Hc. rewrite Hc. clear Hc.
    unfold ProgramHandler.startElement. rewrite decide_False by done.
    simpl. rewrite Hin. done.
  - intros h w n attrs cs Hin Hn.
    change (Sax.run (Sax.StartElement n attrs :: (Sax.Characters <$> cs) ++
                     [Sax.EndElement "display-name"]) (h, w))
      with (Sax.run ((Sax.Characters <$> cs) ++ [Sax.EndElement "display-name"])
                    (ChannelHandler.startElement n attrs h, w)).
    unfold Sax.run. rewrite fold_left_app.
    pose proof (channel_chars cs (ChannelHandler.startElement n attrs h) w) as Hc.
    unfold Sax.run in Hc. rewrite Hc. clear Hc.
    unfold ChannelHandler.startElement. rewrite decide_False by done.
    simpl. rewrite Hin. done.
Qed.

Lemma element_text_starts_at_the_latest_start_tag_witness :
  ProgramHandler.in_programme Samples.untitled_open = true ∧
  pr_title (ProgramHandler.current_program
              (Sax.run (Sax.StartElement "title" ∅ ::
                        (Sax.Characters <$> ["Late "; "news"; " "]) ++ [Sax.EndElement "title"])
                       (Samples.untitled_open, Samples.empty_world)).1) =
  Str.strip (String.concat "" ["Late "; "news"; " "]).
Proof.
  split; [reflexivity|].
  rewrite (proj1 element_text_starts_at_the_latest_start_tag Samples.untitled_open
             Samples.empty_world "title" ∅ ["Late "; "news"; " "] eq_refl);
    [reflexivity|discriminate].
Defined.

End ElementText.

(** ** A download that fails *)

Section FailedDownload.

Variable md5_hexdigest : string → string.
Variable download_file : string → option string.
Variable fs : string → Sax.feed.

(** X18. The rows of a source are deleted before its file is fetched:
    when the url begins with "http" and no file is obtained, the source is
    reported as failed and the store is left without its row, without its
    channels and without the programmes on them, while every other row
    stays; nothing of an earlier run of the source is kept. *)
Theorem failed_download_loses_the_source url now w :
  fk_ok (store w) →
  local_path download_file url = None →
  let sid := md5_hexdigest url in
  let r := process_source md5_hexdigest download_file fs url now w in
  r.1 = false ∧ String.prefix "http" url = true ∧
  sources (store r.2) = delete sid (sources (store w)) ∧
  channels (store r.2) = filter (λ kv, ch_source_id kv.2 ≠ sid) (channels (store w)) ∧
  programs (store r.2) =
    filter (λ kv, channels_of sid (store w) !! pr_channel_id kv.2 = None) (programs (store w)) ∧
  channels_of sid (store r.2) = ∅ ∧ programs_of sid (store r.2) = ∅.
Proof.
  intros Hfk Hno sid r. subst r. rewrite process_source_spec, Hno. fold sid. simpl.
  split_and!; try done.
  - unfold local_path in Hno. by destruct (String.prefix "http" url).
  - apply delete_source_sources.
  - by apply delete_source_channels.
  - by apply delete_source_programs.
  - by apply delete_source_channels_of.
  - apply programs_of_empty. by apply delete_source_channels_of.
Qed.

End FailedDownload.

Lemma failed_download_loses_the_source_witness :
  fk_ok (store Samples.settled_world) ∧
  (process_source (λ _, "other") (λ _, None) (Samples.only Samples.guide)
                  "http://epg.example/other.xml" "2024-01-02T00:00:00"
                  Samples.settled_world).1 = false ∧
  channels_of "other"
    (store (process_source (λ _, "other") (λ _, None) (Samples.only Samples.guide)
                           "http://epg.example/other.xml" "2024-01-02T00:00:00"
                           Samples.settled_world).2) = ∅.
Proof.
  split; [exact settled_tables_fk|].
  destruct (failed_download_loses_the_source (λ _, "other") (λ _, None)
              (Samples.only Samples.guide) "http://epg.example/other.xml"
              "2024-01-02T00:00:00" Samples.settled_world settled_tables_fk eq_refl)
    as (Hr & _ & _ & _ & _ & Hc & _).
  split; [exact Hr|exact Hc].
Defined.
